(** * ECB publication scraper and PDF downloader: functional model

    A shallow embedding of [ecb_scrapper.py] (class [ECBScraper]) and
    [pdf_downloader.py] (class [ECBPDFDownloader]).

    Conventions of the model.
    - A Python [str] is a [string]: a text over the code points U+0000
      to U+00FF, one character for each code point.  The character
      classes ([str.isspace] and [strip], the classes [\s], [\d] and
      [\w] of [re], [str.lower]) are those of Python on these code
      points.
    - Library calls ([re], [bs4], [tenacity], [list.sort]) are modelled by
      small executable functions that follow the documented behaviour of
      the library on the patterns and arguments the two files use.
    - The network and the browser are an environment: every attempt of a
      fallible operation has an outcome that the environment supplies.
      The exceptions are those of the [Exception] hierarchy.
    - The downloads directory is a finite map from file names to files.
      The file system may refuse a name, one that is too long for it for
      instance: [Path.exists] then raises the [OSError] of [stat].  A
      write under a name that [exists] has accepted goes as the
      environment says for a document, and [save_metadata] writes its
      file without fail.
    - The clock and the directory of the scripts are given: an instant
      is the text [isoformat] or [strftime] renders, an entry of the
      directory a name with the time of its last change. *)

From Stdlib Require Import ZArith Ascii String Permutation Sorted Lia.
From stdpp Require Import base option list sorting gmap strings pretty.

Local Open Scope bool_scope.

(** ** Python [str] operations *)

Module PyStr.

Definition code (c : ascii) : N := N_of_ascii c.

(** [c.isspace()] on one character; also the class [\s] of [re] and
    the characters [strip()] takes off: the ASCII white space, the
    separators U+001C to U+001F, the next-line control U+0085 and the
    no-break space U+00A0. *)
Definition is_space (c : ascii) : bool :=
  let n := code c in
  ((9 <=? n) && (n <=? 13) || (28 <=? n) && (n <=? 32) || (n =? 133) || (n =? 160))%N.

(** The class [\d] of [re]: below U+0100 the decimal digits are the
    ASCII ones. *)
Definition is_digit (c : ascii) : bool :=
  let n := code c in ((48 <=? n) && (n <=? 57))%N.

Definition is_upper (c : ascii) : bool :=
  let n := code c in ((65 <=? n) && (n <=? 90))%N.

Definition is_lower (c : ascii) : bool :=
  let n := code c in ((97 <=? n) && (n <=? 122))%N.

(** The letters and numerals beyond ASCII, for which [c.isalnum()]
    holds: the ordinal indicators U+00AA and U+00BA, the superscripts
    U+00B2, U+00B3 and U+00B9, the micro sign U+00B5, the fractions
    U+00BC to U+00BE, and the letters U+00C0 to U+00FF but for the
    signs U+00D7 and U+00F7. *)
Definition is_latin1_alnum (c : ascii) : bool :=
  let n := code c in
  ((n =? 170) || (178 <=? n) && (n <=? 179) || (n =? 181)
   || (185 <=? n) && (n <=? 186) || (188 <=? n) && (n <=? 190)
   || (192 <=? n) && (n <=? 214) || (216 <=? n) && (n <=? 246) || (248 <=? n))%N.

(** The class [\w] of [re]: [c.isalnum()] or the underscore. *)
Definition is_word (c : ascii) : bool :=
  is_digit c || is_upper c || is_lower c || Ascii.eqb c "_" || is_latin1_alnum c.

(** The characters [str.lower] changes: A to Z and the capital letters
    U+00C0 to U+00DE, the sign U+00D7 not among them; each goes to the
    character 32 places on. *)
Definition is_cased_upper (c : ascii) : bool :=
  let n := code c in
  ((65 <=? n) && (n <=? 90) || (192 <=? n) && (n <=? 214) || (216 <=? n) && (n <=? 222))%N.

Definition lower_char (c : ascii) : ascii :=
  if is_cased_upper c then ascii_of_N (code c + 32) else c.

(** [s.lower()] *)
Fixpoint lower (s : string) : string :=
  match s with
  | EmptyString => EmptyString
  | String c s' => String (lower_char c) (lower s')
  end.

(** [s.startswith(p)] *)
Fixpoint startswith (p s : string) : bool :=
  match p, s with
  | EmptyString, _ => true
  | String a p', String b s' => Ascii.eqb a b && startswith p' s'
  | String _ _, EmptyString => false
  end.

(** [needle in s] *)
Fixpoint contains (needle s : string) : bool :=
  startswith needle s ||
  match s with
  | EmptyString => false
  | String _ s' => contains needle s'
  end.

(** [s.lstrip(chars)], the characters given as a class. *)
Fixpoint lstrip_by (cls : ascii -> bool) (s : string) : string :=
  match s with
  | EmptyString => EmptyString
  | String c s' => if cls c then lstrip_by cls s' else s
  end.

(** [s.rstrip(chars)] *)
Fixpoint rstrip_by (cls : ascii -> bool) (s : string) : string :=
  match s with
  | EmptyString => EmptyString
  | String c s' =>
      match rstrip_by cls s' with
      | EmptyString => if cls c then EmptyString else String c EmptyString
      | r => String c r
      end
  end.

(** [s.strip(chars)] *)
Definition strip_by (cls : ascii -> bool) (s : string) : string :=
  rstrip_by cls (lstrip_by cls s).

(** [s.strip()] *)
Definition strip (s : string) : string := strip_by is_space s.

(** [s.replace(a, b)] for one-character [a] and [b]. *)
Fixpoint replace_char (a b : ascii) (s : string) : string :=
  match s with
  | EmptyString => EmptyString
  | String c s' => String (if Ascii.eqb c a then b else c) (replace_char a b s')
  end.

(** [s[n:]] *)
Fixpoint slice_from (n : nat) (s : string) : string :=
  match n, s with
  | O, _ => s
  | S n', String _ s' => slice_from n' s'
  | S _, EmptyString => EmptyString
  end.

(** [s[:n]] *)
Fixpoint slice_to (n : nat) (s : string) : string :=
  match n, s with
  | S n', String c s' => String c (slice_to n' s')
  | _, _ => EmptyString
  end.

(** [s.endswith(p)] *)
Definition endswith (p s : string) : bool :=
  (String.length p <=? String.length s)%nat &&
  String.eqb (slice_from (String.length s - String.length p) s) p.

(** [s.split(sep, 1)] when [sep] occurs: the text before the first
    occurrence of [sep] and the text after it. *)
Fixpoint partition (sep s : string) : option (string * string) :=
  if startswith sep s then Some (EmptyString, slice_from (String.length sep) s)
  else match s with
       | EmptyString => None
       | String c s' =>
           match partition sep s' with
           | Some (a, b) => Some (String c a, b)
           | None => None
           end
       end.

(** [s.split(sep, maxsplit)] for a non-empty [sep] and [maxsplit >= 0]. *)
Fixpoint split (sep s : string) (maxsplit : nat) : list string :=
  match maxsplit with
  | O => [s]
  | S m =>
      match partition sep s with
      | Some (a, b) => a :: split sep b m
      | None => [s]
      end
  end.

(** [sep.join(l)] *)
Fixpoint join (sep : string) (l : list string) : string :=
  match l with
  | [] => EmptyString
  | [x] => x
  | x :: l' => x +:+ sep +:+ join sep l'
  end.

(** Truth value of a string: it is not empty. *)
Definition truthy (s : string) : bool := negb (String.eqb s EmptyString).

(** [s.zfill(2)] for a string of digits. *)
Definition zfill2 (s : string) : string :=
  match String.length s with
  | 0 => "00"
  | 1 => "0" +:+ s
  | _ => s
  end.

End PyStr.

(** ** The fragment of Python's [re] the two files use

    Every pattern of the sources is a sequence of character classes, each
    with a greedy quantifier, optionally closed by [$].  Matching is the
    backtracking search of [re]: a quantified class first takes as many
    characters as it can and gives them back one at a time. *)

Module Re.
Import PyStr.

Inductive elem :=
| Rep (cls : ascii -> bool) (lo : nat) (hi : option nat) (* [c{lo,hi}], [c+], [c] *)
| Eos.                                                  (* [$] *)

Definition regex := list elem.

Definition lit (c : ascii) : elem := Rep (Ascii.eqb c) 1 (Some 1).
Definition plus (cls : ascii -> bool) : elem := Rep cls 1 None.
Definition exactly (cls : ascii -> bool) (n : nat) : elem := Rep cls n (Some n).

Definition below (hi : option nat) (n : nat) : bool :=
  match hi with
  | Some h => (n <? h)%nat
  | None => true
  end.

(** Length of the longest run of [cls] characters at the head of [s],
    no longer than [hi]. *)
Fixpoint span (cls : ascii -> bool) (hi : option nat) (n : nat) (s : string) : nat :=
  match s with
  | String c s' => if cls c && below hi n then span cls hi (S n) s' else n
  | EmptyString => n
  end.

(** Try [f n], [f (n-1)], ..., [f lo]; the first success wins. *)
Fixpoint try_down {B} (f : nat -> option B) (lo n : nat) : option B :=
  if (n <? lo)%nat then None
  else match f n with
       | Some r => Some r
       | None =>
           match n with
           | O => None
           | S n' => try_down f lo n'
           end
       end.

(** [$] holds at the end of the text and before a final line feed. *)
Definition at_end (s : string) : bool :=
  match s with
  | EmptyString => true
  | String c EmptyString => Ascii.eqb c "010"
  | _ => false
  end.

(** Match [r] at the head of [s]: the text each element took, and the
    text left over. *)
Fixpoint match_here (r : regex) (s : string) : option (list string * string) :=
  match r with
  | [] => Some ([], s)
  | Rep cls lo hi :: r' =>
      try_down
        (fun k =>
           match match_here r' (slice_from k s) with
           | Some (ps, rest) => Some (slice_to k s :: ps, rest)
           | None => None
           end)
        lo (span cls hi 0 s)
  | Eos :: r' =>
      if at_end s then
        match match_here r' s with
        | Some (ps, rest) => Some (EmptyString :: ps, rest)
        | None => None
        end
      else None
  end.

(** A match: the text before it, the text of each element, the text
    after it. *)
Record matched := Matched {
  before : string;
  pieces : list string;
  after : string
}.

(** [re.search(r, s)]: the leftmost match. *)
Fixpoint search (r : regex) (s : string) : option matched :=
  match match_here r s with
  | Some (ps, rest) => Some (Matched EmptyString ps rest)
  | None =>
      match s with
      | EmptyString => None
      | String c s' =>
          match search r s' with
          | Some m => Some (Matched (String c (before m)) (pieces m) (after m))
          | None => None
          end
      end
  end.

Fixpoint concat_pieces (ps : list string) : string :=
  match ps with
  | [] => EmptyString
  | p :: ps' => p +:+ concat_pieces ps'
  end.

(** [m.group(0)] *)
Definition group0 (m : matched) : string := concat_pieces (pieces m).

(** The text of the [i]-th element of the pattern (from 0). *)
Definition piece (m : matched) (i : nat) : string := default EmptyString (pieces m !! i).

(** [re.sub(r, repl, s)] for a pattern that matches no empty text:
    [skip] counts the characters of the current match still to drop. *)
Fixpoint sub_go (r : regex) (repl : string) (skip : nat) (s : string) : string :=
  match skip with
  | S k =>
      match s with
      | String _ s' => sub_go r repl k s'
      | EmptyString => EmptyString
      end
  | O =>
      match s with
      | EmptyString => EmptyString
      | String c s' =>
          match match_here r s with
          | Some (ps, _) =>
              match String.length (concat_pieces ps) with
              | O => String c (sub_go r repl 0 s')
              | S k => repl +:+ sub_go r repl k s'
              end
          | None => String c (sub_go r repl 0 s')
          end
      end
  end.

Definition sub (r : regex) (repl s : string) : string := sub_go r repl 0 s.

End Re.

(** ** The fragment of BeautifulSoup the scraper uses

    The parser is outside the model: a page is given as the tree it parses
    to, its elements and the strings [get_text] returns; comments,
    scripts and style sheets are no part of it.  An element is handled
    together with the chain of its ancestors, which is what
    [find_parent] walks. *)

Module Bs4.
Import PyStr.

#[local] Set Warnings "-register-all".
Inductive node :=
| Text (s : string)
| Elem (name : string) (classes : list string)
       (attrs : list (string * string)) (children : list node).

(** Name and classes of an enclosing element. *)
Definition head : Type := string * list string.

(** A tag in its tree: the enclosing elements, nearest first. *)
Record tag := Tag {
  parents : list head;
  tag_name : string;
  tag_classes : list string;
  tag_attrs : list (string * string);
  contents : list node
}.

Definition has_class (c : string) (classes : list string) : bool :=
  existsb (String.eqb c) classes.

(** The tags at and below a node, in document order. *)
Fixpoint tags_from (up : list head) (n : node) : list tag :=
  match n with
  | Text _ => []
  | Elem nm cl at_ ch =>
      Tag up nm cl at_ ch :: flat_map (tags_from ((nm, cl) :: up)) ch
  end.

(** The tags strictly below [t], in document order. *)
Definition descendants (t : tag) : list tag :=
  flat_map (tags_from ((tag_name t, tag_classes t) :: parents t)) (contents t).

(** [t.find_all(name)] *)
Definition find_all (nm : string) (t : tag) : list tag :=
  filter (fun d => String.eqb (tag_name d) nm = true) (descendants t).

(** [t[key]] and the test behind [find_all(..., key=True)]. *)
Fixpoint get_attr (key : string) (attrs : list (string * string)) : option string :=
  match attrs with
  | [] => None
  | (k, v) :: attrs' => if String.eqb k key then Some v else get_attr key attrs'
  end.

(** [t.find_all(name, href=True)] *)
Definition find_all_href (nm : string) (t : tag) : list tag :=
  filter (fun d => is_Some (get_attr "href" (tag_attrs d))) (find_all nm t).

(** [soup.find(name, class_=c)] on the parsed page: the first such tag
    in document order. *)
Definition find_class (nm c : string) (soup : list node) : option tag :=
  List.head
    (filter (fun d => String.eqb (tag_name d) nm && has_class c (tag_classes d) = true)
            (flat_map (tags_from []) soup)).

(** [t.find_parent(name, class_=c)]: the nearest such ancestor. *)
Definition find_parent (nm c : string) (t : tag) : option head :=
  List.find (fun h => String.eqb (fst h) nm && has_class c (snd h)) (parents t).

(** The strings below a node, in document order. *)
Fixpoint strings (n : node) : list string :=
  match n with
  | Text s => [s]
  | Elem _ _ _ ch => flat_map strings ch
  end.

(** [t.get_text(strip=True)]: every string stripped, the empty ones
    dropped, the rest joined. *)
Definition get_text_strip (t : tag) : string :=
  join EmptyString
    (filter (fun s => truthy s = true) (map strip (flat_map strings (contents t)))).

End Bs4.
(** ** The [tenacity] retry decorator

    [@retry(stop=stop_after_attempt(n), wait=wait_exponential(multiplier,
    min, max), retry=retry_if_exception_type(types))] around an operation.
    An attempt of the operation is a function of the attempt number and of
    the state it acts on. *)

Module Tenacity.

Section Retry.
(** State the operation acts on, values it returns, exceptions it
    raises. *)
Context {St V E : Type}.

Inductive outcome :=
| Returned (v : V)
| Raised (e : E).

Record policy := Policy {
  max_attempt_number : nat; (* stop_after_attempt *)
  multiplier : Z;           (* wait_exponential, in seconds *)
  min_wait : Z;
  max_wait : Z;
  retryable : E -> bool     (* retry_if_exception_type *)
}.

(** [wait_exponential.__call__]: [multiplier * exp_base **
    (attempt_number - 1)], with [exp_base] at its default 2, kept between
    [min] and [max]. *)
Definition wait (p : policy) (attempt_number : nat) : Z :=
  let exp := (2 ^ (Z.of_nat attempt_number - 1))%Z in
  let result := (multiplier p * exp)%Z in
  Z.max (Z.max 0 (min_wait p)) (Z.min result (max_wait p)).

(** How a decorated call ends. *)
Inductive ending :=
| Done (v : V)        (* an attempt returned *)
| Reraised (e : E)    (* an attempt raised an exception that is not retried *)
| RetryError (e : E). (* the last allowed attempt raised *)

Record run := Run {
  ending_of : ending;
  state_of : St;
  attempts_of : nat;   (* attempts made *)
  sleeps_of : list Z   (* the sleeps, in order *)
}.

(** The retry loop from attempt [attempt_number] on; [left] is the
    number of attempts the stop condition still allows after this
    one, [max_attempt_number - attempt_number]. *)
Fixpoint attempt_loop (p : policy) (op : nat -> St -> outcome * St)
    (left attempt_number : nat) (st : St) (sleeps : list Z) : run :=
  match op attempt_number st with
  | (Returned v, st') => Run (Done v) st' attempt_number sleeps
  | (Raised e, st') =>
      if negb (retryable p e) then Run (Reraised e) st' attempt_number sleeps
      else
        match left with
        | O => Run (RetryError e) st' attempt_number sleeps
        | S left' =>
            attempt_loop p op left' (S attempt_number) st'
              (sleeps ++ [wait p attempt_number])
        end
  end.

(** A call of the decorated operation. *)
Definition retrying (p : policy) (op : nat -> St -> outcome * St) (st : St) : run :=
  attempt_loop p op (max_attempt_number p - 1) 1 st [].

Definition succeeded (r : run) : bool :=
  match ending_of r with
  | Done _ => true
  | _ => false
  end.

End Retry.

Arguments outcome : clear implicits.
Arguments policy : clear implicits.
Arguments ending : clear implicits.
Arguments run : clear implicits.

End Tenacity.
(** ** The fragment of [datetime] the downloader uses

    [datetime.strptime(s, "%Y-%m-%d")] matches [s] against the pattern
    the format stands for, a group of alternatives for each directive,
    and builds the date from the texts of the groups. *)

Module Datetime.
Import PyStr.
Local Open Scope Z_scope.

Definition between (lo hi c : ascii) : bool :=
  ((code lo <=? code c) && (code c <=? code hi))%N.

(** An alternative of a group: a class for each of its characters. *)
Definition alternative := list (ascii -> bool).

(** The text an alternative takes at the head of [s], and the text
    left. *)
Fixpoint take_chars (alt : alternative) (s : string) : option (string * string) :=
  match alt with
  | [] => Some (EmptyString, s)
  | cls :: alt' =>
      match s with
      | String c s' =>
          if cls c then
            match take_chars alt' s' with
            | Some (m, rest) => Some (String c m, rest)
            | None => None
            end
          else None
      | EmptyString => None
      end
  end.

(** The ways a group matches at the head of [s], in the order of its
    alternatives. *)
Definition group (alts : list alternative) (s : string) : list (string * string) :=
  omap (fun alt => take_chars alt s) alts.

(** [(?P<Y>\d\d\d\d)] *)
Definition directive_Y : list alternative := [[is_digit; is_digit; is_digit; is_digit]].

(** [(?P<m>1[0-2]|0[1-9]|[1-9])] *)
Definition directive_m : list alternative :=
  [ [Ascii.eqb "1"; between "0" "2"]; [Ascii.eqb "0"; between "1" "9"]; [between "1" "9"] ].

(** [(?P<d>3[0-1]|[1-2]\d|0[1-9]|[1-9]| [1-9])] *)
Definition directive_d : list alternative :=
  [ [Ascii.eqb "3"; between "0" "1"]; [between "1" "2"; is_digit];
    [Ascii.eqb "0"; between "1" "9"]; [between "1" "9"];
    [Ascii.eqb " "; between "1" "9"] ].

Definition literal (c : ascii) : list alternative := [[Ascii.eqb c]].

(** The first element of [l] on which [f] succeeds. *)
Fixpoint first_some {A B} (f : A -> option B) (l : list A) : option B :=
  match l with
  | [] => None
  | x :: l' =>
      match f x with
      | Some y => Some y
      | None => first_some f l'
      end
  end.

(** [format_regex.match(s)]: the groups are matched one after the
    other; when the groups that follow fail, the next alternative is
    tried.  The texts of the groups, and the text left. *)
Fixpoint match_groups (gs : list (list alternative)) (s : string)
    : option (list string * string) :=
  match gs with
  | [] => Some ([], s)
  | g :: gs' =>
      first_some
        (fun way : string * string =>
           match match_groups gs' way.2 with
           | Some (ms, rest) => Some (way.1 :: ms, rest)
           | None => None
           end)
        (group g s)
  end.

(** [int(s)] for a text of digits, with blanks around them. *)
Fixpoint int_from (acc : Z) (s : string) : Z :=
  match s with
  | EmptyString => acc
  | String c s' =>
      if is_digit c then int_from (10 * acc + (Z.of_N (code c) - 48)) s'
      else int_from acc s'
  end.

Definition int (s : string) : Z := int_from 0 s.

Definition is_leap (year : Z) : bool :=
  (year mod 4 =? 0) && (negb (year mod 100 =? 0) || (year mod 400 =? 0)).

Definition days_in_month (year month : Z) : Z :=
  match month with
  | 2 => if is_leap year then 29 else 28
  | 4 | 6 | 9 | 11 => 30
  | _ => 31
  end.

(** The check of the [date] constructor: the year from 1 to 9999, the
    month from 1 to 12, the day from 1 to the length of the month. *)
Definition check_date_fields (year month day : Z) : bool :=
  (1 <=? year) && (year <=? 9999) && (1 <=? month) && (month <=? 12)
  && (1 <=? day) && (day <=? days_in_month year month).

Record datetime := Datetime_ {
  year : Z; month : Z; day : Z;
  hour : Z; minute : Z; second : Z
}.

(** [datetime.strptime(data_string, "%Y-%m-%d")]; [None] stands for
    [ValueError]. *)
Definition strptime (data_string : string) : option datetime :=
  match match_groups [directive_Y; literal "-"; directive_m; literal "-"; directive_d]
          data_string with
  | Some ([Y; _; m; _; d], rest) =>
      if truthy rest then None
      else if check_date_fields (int Y) (int m) (int d)
           then Some (Datetime_ (int Y) (int m) (int d) 0 0 0)
           else None
  | _ => None
  end.

(** ["%0{width}d" % n] *)
Fixpoint zeros (n : nat) : string :=
  match n with
  | O => EmptyString
  | S n' => String "0" (zeros n')
  end.

Definition pad (width : nat) (n : Z) : string :=
  let s := pretty n in zeros (width - String.length s)%nat +:+ s.

(** The date of [isoformat]. *)
Definition isoformat_date (year month day : Z) : string :=
  pad 4 year +:+ "-" +:+ pad 2 month +:+ "-" +:+ pad 2 day.

(** [dt.isoformat()] for a time in whole seconds, in the zone UTC. *)
Definition isoformat_utc (dt : datetime) : string :=
  isoformat_date (year dt) (month dt) (day dt) +:+ "T"
  +:+ pad 2 (hour dt) +:+ ":" +:+ pad 2 (minute dt) +:+ ":" +:+ pad 2 (second dt)
  +:+ "+00:00".

End Datetime.

(** ** [ecb_scrapper.py] *)

Module ECBScraper.
Import PyStr.

(** [self.month_names] *)
Definition month_names : gmap string string :=
  list_to_map
    [ ("January", "01"); ("February", "02"); ("March", "03"); ("April", "04");
      ("May", "05"); ("June", "06"); ("July", "07"); ("August", "08");
      ("September", "09"); ("October", "10"); ("November", "11"); ("December", "12") ].

(** [(\d{1,2})\s+(\w+)\s+(\d{4})]; the groups are elements 0, 2 and 4. *)
Definition day_month_year : Re.regex :=
  [ Re.Rep is_digit 1 (Some 2); Re.plus is_space; Re.plus is_word;
    Re.plus is_space; Re.exactly is_digit 4 ].

(** [(\d{4})-(\d{2})-(\d{2})] *)
Definition iso_date : Re.regex :=
  [ Re.exactly is_digit 4; Re.lit "-"; Re.exactly is_digit 2;
    Re.lit "-"; Re.exactly is_digit 2 ].

Definition parse_date (date_text : string) : option string :=
  if negb (truthy date_text) then None
  else
    let date_text := strip date_text in
    let pattern2 :=
      match Re.search iso_date date_text with
      | Some m => Some (Re.group0 m)
      | None => None
      end in
    match Re.search day_month_year date_text with
    | Some m =>
        let day := Re.piece m 0 in
        let month := Re.piece m 2 in
        let year := Re.piece m 4 in
        match month_names !! month with
        | Some month_num =>
            if truthy month_num
            then Some (year +:+ "-" +:+ month_num +:+ "-" +:+ zfill2 day)
            else pattern2
        | None => pattern2
        end
    | None => pattern2
    end.

(** The retry policies of the browser operations; each retries on any
    exception. *)
Definition launch_browser_policy {E} : Tenacity.policy E :=
  Tenacity.Policy 3 1 2 10 (fun _ => true).

Definition navigate_to_page_policy {E} : Tenacity.policy E :=
  Tenacity.Policy 3 1 2 10 (fun _ => true).

Definition wait_for_dl_wrapper_policy {E} : Tenacity.policy E :=
  Tenacity.Policy 3 1 2 10 (fun _ => true).

Definition get_page_height_policy {E} : Tenacity.policy E :=
  Tenacity.Policy 3 1 1 5 (fun _ => true).

Definition scroll_to_bottom_policy {E} : Tenacity.policy E :=
  Tenacity.Policy 3 1 1 5 (fun _ => true).

Definition get_page_content_policy {E} : Tenacity.policy E :=
  Tenacity.Policy 3 1 2 8 (fun _ => true).

(** One extracted record, a dict with these four keys. *)
Record publication := Publication {
  date : string;
  title : string;
  url : string;
  original_date_text : string
}.

(** [len(publications) >= self.max_publications] *)
Definition limit_reached (max_publications : Z) (publications : list publication) : bool :=
  (max_publications <=? Z.of_nat (length publications))%Z.

(** The body of the link loop below its limit check. *)
Definition visit_link (date_text : string) (link : Bs4.tag)
    (publications : list publication) : list publication :=
  let title := Bs4.get_text_strip link in
  match Bs4.find_parent "div" "accordion" link with
  | Some _ => publications
  | None =>
      let url := default EmptyString (Bs4.get_attr "href" (Bs4.tag_attrs link)) in
      let url := if startswith "/" url then "https://www.ecb.europa.eu" +:+ url else url in
      if truthy title && truthy url then
        match parse_date date_text with
        | Some parsed_date =>
            if truthy parsed_date then
              publications ++
                [ Publication parsed_date (replace_char "|" "-" title) url date_text ]
            else publications
        | None => publications
        end
      else publications
  end.

(** [for link in links] *)
Fixpoint link_loop (max_publications : Z) (date_text : string) (links : list Bs4.tag)
    (publications : list publication) : list publication :=
  match links with
  | [] => publications
  | link :: links' =>
      if limit_reached max_publications publications then publications
      else link_loop max_publications date_text links'
             (visit_link date_text link publications)
  end.

(** [for i, dt in enumerate(dt_elements)], entered at index [i]. *)
Fixpoint dt_loop (max_publications : Z) (dd_elements : list Bs4.tag) (i : nat)
    (dt_elements : list Bs4.tag) (publications : list publication) : list publication :=
  match dt_elements with
  | [] => publications
  | dt :: dt_elements' =>
      if limit_reached max_publications publications then publications
      else
        let date_text := Bs4.get_text_strip dt in
        dt_loop max_publications dd_elements (S i) dt_elements'
          (match dd_elements !! i with
           | Some dd =>
               link_loop max_publications date_text (Bs4.find_all_href "a" dd) publications
           | None => publications
           end)
  end.

(** [for dl in dl_elements] *)
Fixpoint dl_loop (max_publications : Z) (dl_elements : list Bs4.tag)
    (publications : list publication) : list publication :=
  match dl_elements with
  | [] => publications
  | dl :: dl_elements' =>
      if limit_reached max_publications publications then publications
      else
        dl_loop max_publications dl_elements'
          (dt_loop max_publications (Bs4.find_all "dd" dl) 0 (Bs4.find_all "dt" dl)
             publications)
  end.

(** [extract_publications_from_html], on the tree [BeautifulSoup(html,
    'lxml')] gives. *)
Definition extract_publications_from_html (max_publications : Z)
    (soup : list Bs4.node) : list publication :=
  match Bs4.find_class "div" "dl-wrapper" soup with
  | None => []
  | Some dl_wrapper => dl_loop max_publications (Bs4.find_all "dl" dl_wrapper) []
  end.

(** The duplicate filter of [run]: [unique_pubs] and [seen_urls] while
    the loop walks [self.publications]. *)
Fixpoint unique_loop (publications unique_pubs : list publication)
    (seen_urls : gset string) : list publication :=
  match publications with
  | [] => unique_pubs
  | pub :: publications' =>
      if decide (url pub ∈ seen_urls) then unique_loop publications' unique_pubs seen_urls
      else unique_loop publications' (unique_pubs ++ [pub]) (seen_urls ∪ {[ url pub ]})
  end.

(** [list.sort(key=...)]: a stable sort, smallest key first.  The head
    of the list is put before the first element whose key is not
    smaller, so it stays ahead of the elements with its own key. *)
Fixpoint sort_insert {A} (key : A -> string) (x : A) (l : list A) : list A :=
  match l with
  | [] => [x]
  | y :: l' =>
      if String.leb (key x) (key y) then x :: l else y :: sort_insert key x l'
  end.

Fixpoint list_sort {A} (key : A -> string) (l : list A) : list A :=
  match l with
  | [] => []
  | x :: l' => sort_insert key x (list_sort key l')
  end.

(** [list.sort(key=..., reverse=True)]: the list is reversed, sorted
    and reversed again, which keeps the sort stable. *)
Definition list_sort_reverse {A} (key : A -> string) (l : list A) : list A :=
  reverse (list_sort key (reverse l)).

(** The part of [run] between extraction and saving. *)
Definition dedup_and_rank (publications : list publication) : list publication :=
  let unique_pubs := unique_loop publications [] ∅ in
  list_sort_reverse date unique_pubs.

(** [save_to_file]: the text written, or nothing when there is no
    publication (the file name and the preview are left out). *)
Definition save_line (pub : publication) : string :=
  date pub +:+ " | " +:+ title pub +:+ " | " +:+ url pub.

Definition save_to_file (publications : list publication) : option string :=
  match publications with
  | [] => None
  | _ => Some (join (String "010" EmptyString) (map save_line publications))
  end.

(** *** The scroll loop of [scrape_with_scroll] *)

(** The variables of the loop. *)
Record scroll_state := ScrollState {
  previous_height : Z;
  failed_scroll_attempts : Z;
  successful_scrolls : Z;
  publications_found : Z
}.

(** What the page does in one round of the loop. *)
Record scroll_round := ScrollRound {
  page_height : option Z;                (* [get_page_height]; nothing when it raised *)
  scrolled : bool;                       (* [scroll_to_bottom] and the pause returned *)
  page_content : option (list Bs4.node)  (* [get_page_content]; nothing when it raised *)
}.

Definition max_failed_scrolls : Z := 10.

(** The handler of the outer [try]: one more failure, and [break] at
    the limit. *)
Definition scroll_failed (st : scroll_state) : scroll_state * bool :=
  let failed := (failed_scroll_attempts st + 1)%Z in
  (ScrollState (previous_height st) failed (successful_scrolls st) (publications_found st),
   (max_failed_scrolls <=? failed)%Z).

(** One round of the loop: the variables after it, and whether it
    ended in [break]. *)
Definition scroll_round_body (max_publications : Z) (r : scroll_round) (st : scroll_state)
    : scroll_state * bool :=
  match page_height r with
  | None => scroll_failed st
  | Some current_height =>
      let failed :=
        if (current_height =? previous_height st)%Z
        then (failed_scroll_attempts st + 1)%Z else 0%Z in
      let successful :=
        if (current_height =? previous_height st)%Z
        then successful_scrolls st else (successful_scrolls st + 1)%Z in
      if scrolled r then
        if (0 <? successful)%Z && (successful mod 5 =? 0)%Z then
          match page_content r with
          | Some soup =>
              let found :=
                Z.of_nat (length (extract_publications_from_html max_publications soup)) in
              if (max_publications <=? found)%Z
              then (ScrollState (previous_height st) failed successful found, true)
              else (ScrollState current_height failed successful found, false)
          | None =>
              (ScrollState current_height failed successful (publications_found st), false)
          end
        else (ScrollState current_height failed successful (publications_found st), false)
      else
        scroll_failed
          (ScrollState (previous_height st) failed successful (publications_found st))
  end.

(** [while failed_scroll_attempts < max_failed_scrolls and
    publications_found < self.max_publications], from round [i] on;
    [fuel] bounds the number of rounds, and [None] says that it ran out.
    The variables at the end, and the number of the first round that was
    not made. *)
Fixpoint scroll_loop (fuel : nat) (max_publications : Z) (rounds : nat -> scroll_round)
    (i : nat) (st : scroll_state) : option (scroll_state * nat) :=
  if (failed_scroll_attempts st <? max_failed_scrolls)%Z
     && (publications_found st <? max_publications)%Z
  then
    match fuel with
    | O => None
    | S fuel' =>
        let (st', stop) := scroll_round_body max_publications (rounds i) st in
        if stop then Some (st', S i)
        else scroll_loop fuel' max_publications rounds (S i) st'
    end
  else Some (st, i).

Definition scroll_start : scroll_state := ScrollState 0 0 0 0.

(** *** The run *)

(** [run] once the page has been fetched: [self.publications] at the
    end, and the text [save_to_file] writes. *)
Definition run (max_publications : Z) (soup : list Bs4.node)
    : list publication * option string :=
  let publications := extract_publications_from_html max_publications soup in
  let unique_pubs := dedup_and_rank publications in
  (unique_pubs, save_to_file unique_pubs).

(** The name of the file [save_to_file] writes; [timestamp] is the
    clock as [strftime] renders it. *)
Definition save_filename (timestamp : string) : string :=
  "ecb_publications_" +:+ timestamp +:+ ".txt".

End ECBScraper.

(** ** [pdf_downloader.py] *)

Module ECBPDFDownloader.
Import PyStr.

(** *** Exceptions *)

(** The exception classes the handlers and retry predicates tell
    apart; all of them derive from [Exception]. *)
Inductive exception :=
| ClientError          (* aiohttp.ClientError, with ClientResponseError *)
| ServerTimeoutError   (* aiohttp.ServerTimeoutError *)
| OSError              (* OSError, with requests.HTTPError *)
| OtherError.          (* any other Exception *)

(** *** File names *)

(** The character class [special_chars] of [sanitize_filename]: the
    listed punctuation, any white space, the slash. *)
Definition special_chars (c : ascii) : bool :=
  existsb (Ascii.eqb c)
    [ ";"; ":"; "'"; "034"; "{"; "}"; "^"; "%"; "~"; "#"; "|"; "<"; ">";
      "\"; "["; "]"; "/" ]%char
  || is_space c.

Definition underscore (c : ascii) : bool := Ascii.eqb c "_".

Definition sanitize_filename (title : string) (max_length : nat) : string :=
  let clean_title := Re.sub [Re.Rep special_chars 1 (Some 1)] "_" title in
  let clean_title := Re.sub [Re.plus underscore] "_" clean_title in
  let clean_title := strip_by underscore clean_title in
  if (max_length <? String.length clean_title)%nat
  then rstrip_by underscore (slice_to max_length clean_title)
  else clean_title.

Definition generate_filename (date title : string) (counter : nat) : string :=
  let clean_title := sanitize_filename title 200 in
  if (0 <? counter)%nat
  then date +:+ "_" +:+ clean_title +:+ "_At" +:+ pretty counter
  else date +:+ "_" +:+ clean_title.

(** [_At\d+$] *)
Definition at_suffix : Re.regex :=
  [ Re.lit "_"; Re.lit "A"; Re.lit "t"; Re.plus is_digit; Re.Eos ].

(** The file name the loop of [check_duplicate_filename] builds once
    [counter] has been incremented. *)
Definition numbered_filename (base_filename extension : string) (counter : nat) : string :=
  match split "_" base_filename 1 with
  | date_part :: title_part :: _ =>
      let title_part := Re.sub at_suffix EmptyString title_part in
      date_part +:+ "_" +:+ title_part +:+ "_At" +:+ pretty counter +:+ "." +:+ extension
  | _ => base_filename +:+ "_At" +:+ pretty counter +:+ "." +:+ extension
  end.

Section Directory.
(** What the downloads directory holds under each file name. *)
Context {File : Type}.

(** [filepath.exists()].  For a name the file system refuses, one
    that is too long for it for instance, [stat] fails with an
    [OSError] that [exists] passes on; [refused] says which names these
    are.  For every other name the file is there or it is not. *)
Definition path_exists (refused : string -> bool) (downloads_dir : gmap string File)
    (filename : string) : Tenacity.outcome bool exception :=
  if refused filename then Tenacity.Raised OSError
  else Tenacity.Returned (bool_decide (is_Some (downloads_dir !! filename))).

(** [while filepath.exists()]: the name returned, or the exception
    [exists] raised.  [fuel] bounds the number of rounds; [None] when it
    runs out. *)
Fixpoint exists_loop (fuel : nat) (refused : string -> bool)
    (downloads_dir : gmap string File) (base_filename extension : string)
    (counter : nat) (filename : string) : option (Tenacity.outcome string exception) :=
  match path_exists refused downloads_dir filename with
  | Tenacity.Raised e => Some (Tenacity.Raised e)
  | Tenacity.Returned false => Some (Tenacity.Returned filename)
  | Tenacity.Returned true =>
      match fuel with
      | O => None
      | S fuel' =>
          let counter := S counter in
          exists_loop fuel' refused downloads_dir base_filename extension counter
            (numbered_filename base_filename extension counter)
      end
  end.

(** One round for each file of the directory, and one more. *)
Definition check_duplicate_filename (refused : string -> bool)
    (downloads_dir : gmap string File) (base_filename extension : string)
    : option (Tenacity.outcome string exception) :=
  exists_loop (S (size downloads_dir)) refused downloads_dir base_filename extension 0
    (base_filename +:+ "." +:+ extension).
End Directory.

(** *** Categories *)

Definition determine_category (title url : string) : string :=
  let title_lower := lower title in
  let url_lower := lower url in
  if contains "monetary policy" title_lower || contains "/mopo/" url_lower then
    "Monetary policy statement"
  else if contains "economic bulletin" title_lower then
    "Economic Bulletin"
  else if contains "financial stability" title_lower then
    "Financial Stability Review"
  else if contains "speech" url_lower || contains "key" url_lower then
    "Speech"
  else if contains "interview" url_lower then
    "Interview"
  else if contains "blog" url_lower then
    "Blog"
  else if contains "statistics" title_lower || contains "/stats/" url_lower then
    "Statistical release"
  else if contains "press" url_lower || contains "/pr/" url_lower then
    "Press release"
  else
    "Report".

(** *** Metadata *)

Record metadata := Metadata {
  dataset_name : string;
  dataset_code : string;
  source_uri : string;
  created_at : string;
  creator : string;
  publisher : string;
  publication_date : string;
  publication_title : string;
  ingest_source : string;
  category : string;
  language : string
}.

(** The dict [generate_metadata] builds from its two instants:
    [pub_date] is [pub_date.isoformat()] and [now] is
    [created_at.isoformat()].  The two entries of [custom_attributes]
    are fields of the record, and the empty [raw_attributes] is left
    out. *)
Definition generate_metadata (pub_date now : string) (date title url filename creator : string)
    : metadata :=
  let category := determine_category title url in
  {| dataset_name := "Central Bank EUR";
     dataset_code := "CB_EUR_ECB";
     source_uri := url;
     created_at := now;
     creator := creator;
     publisher := "European Central Bank";
     publication_date := pub_date;
     publication_title := title;
     ingest_source := "CB_EUR_ECB_LDR";
     category := category;
     language := "English" |}.

(** *** The publication date of the metadata *)

(** The [try] block of [generate_metadata] and the rendering of its
    result: the date at nine o'clock UTC when [strptime] reads it, and
    [now], an instant of the clock as [isoformat] renders it, when it
    raises. *)
Definition pub_date_isoformat (date now : string) : string :=
  match Datetime.strptime date with
  | Some pub_date =>
      let pub_date :=
        {| Datetime.year := Datetime.year pub_date;
           Datetime.month := Datetime.month pub_date;
           Datetime.day := Datetime.day pub_date;
           Datetime.hour := 9%Z; Datetime.minute := 0%Z; Datetime.second := 0%Z |} in
      Datetime.isoformat_utc pub_date
  | None => now
  end.

(** [generate_metadata]: the publication date is computed from the
    date of the record; [fallback_now] and [now] are the two readings of
    the clock. *)
Definition generate_metadata_clock (fallback_now now : string)
    (date title url filename creator : string) : metadata :=
  generate_metadata (pub_date_isoformat date fallback_now) now date title url filename
    creator.

(** *** Files *)

(** A file of the downloads directory. *)
Inductive file :=
| Document (body : string)
| Sidecar (m : metadata).

(** [save_metadata] *)
Definition save_metadata (m : metadata) (json_filename : string)
    (downloads_dir : gmap string file) : gmap string file :=
  <[ json_filename := Sidecar m ]> downloads_dir.

(** *** Downloads *)

(** [retry_if_exception_type((aiohttp.ClientError,
    aiohttp.ServerTimeoutError, OSError))] *)
Definition transport_error (e : exception) : bool :=
  match e with
  | ClientError | ServerTimeoutError | OSError => true
  | OtherError => false
  end.

(** [retry_if_exception_type((Exception,))] *)
Definition any_exception (e : exception) : bool := true.

(** What one request meets. *)
Inductive fetch :=
| Fetched (body : string)                  (* status 200, body written *)
| Interrupted (part : string) (e : exception) (* status 200, [e] while writing *)
| BadStatus (status : Z)                   (* another status *)
| Failure (e : exception).                 (* the request itself raised [e] *)

Definition aiohttp_policy : Tenacity.policy exception :=
  Tenacity.Policy 3 1 2 8 transport_error.

Definition requests_policy : Tenacity.policy exception :=
  Tenacity.Policy 2 1 2 6 any_exception.

(** The body of [download_pdf_with_aiohttp], one attempt. *)
Definition download_pdf_with_aiohttp (net : nat -> fetch) (filename : string)
    (attempt_number : nat) (downloads_dir : gmap string file)
    : Tenacity.outcome bool exception * gmap string file :=
  match net attempt_number with
  | Fetched body => (Tenacity.Returned true, <[ filename := Document body ]> downloads_dir)
  | Interrupted part e => (Tenacity.Raised e, <[ filename := Document part ]> downloads_dir)
  | BadStatus _ => (Tenacity.Raised ClientError, downloads_dir)
  | Failure e => (Tenacity.Raised e, downloads_dir)
  end.

(** The body of [download_pdf_with_requests], one attempt. *)
Definition download_pdf_with_requests (net : nat -> fetch) (filename : string)
    (attempt_number : nat) (downloads_dir : gmap string file)
    : Tenacity.outcome bool exception * gmap string file :=
  match net attempt_number with
  | Fetched body => (Tenacity.Returned true, <[ filename := Document body ]> downloads_dir)
  | Interrupted part e => (Tenacity.Raised e, <[ filename := Document part ]> downloads_dir)
  | BadStatus _ => (Tenacity.Raised OSError, downloads_dir)
  | Failure e => (Tenacity.Raised e, downloads_dir)
  end.

(** A call of [download_pdf]: what it returns, the run of the primary
    transport, and the run of the fallback transport when it was
    called. *)
Record download := Download {
  returned : bool;
  primary_run : Tenacity.run (gmap string file) bool exception;
  fallback_run : option (Tenacity.run (gmap string file) bool exception)
}.

Definition download_pdf (primary fallback : nat -> fetch) (filename : string)
    (downloads_dir : gmap string file) : download :=
  let a := Tenacity.retrying aiohttp_policy
             (download_pdf_with_aiohttp primary filename) downloads_dir in
  match Tenacity.ending_of a with
  | Tenacity.Done _ => Download true a None
  | _ =>
      let b := Tenacity.retrying requests_policy
                 (download_pdf_with_requests fallback filename) (Tenacity.state_of a) in
      match Tenacity.ending_of b with
      | Tenacity.Done _ => Download true a (Some b)
      | _ => Download false a (Some b)
      end
  end.

(** The directory after a call of [download_pdf]. *)
Definition directory_after (d : download) : gmap string file :=
  match fallback_run d with
  | Some b => Tenacity.state_of b
  | None => Tenacity.state_of (primary_run d)
  end.

(** *** Rendering *)

Definition browser_policy : Tenacity.policy exception :=
  Tenacity.Policy 3 1 2 10 any_exception.

(** What printing a page to a file meets. *)
Inductive printing :=
| Printed (body : string)                      (* the file is written *)
| PrintInterrupted (part : string) (e : exception) (* [e] while writing *)
| PrintFailure (e : exception).                (* [page.pdf] raised [e] *)

(** What the browser does for one record. *)
Record browser := Browser {
  new_page : option exception;                     (* [browser.new_page()] raises *)
  navigate : nat -> Tenacity.outcome string exception; (* the creator found, per attempt *)
  print_pdf : nat -> printing;                     (* [page.pdf], per attempt *)
  close_page : option exception                    (* [page.close()] raises *)
}.

(** The body of [generate_pdf_from_page], one attempt. *)
Definition generate_pdf_from_page (br : browser) (filename : string)
    (attempt_number : nat) (downloads_dir : gmap string file)
    : Tenacity.outcome unit exception * gmap string file :=
  match print_pdf br attempt_number with
  | Printed body => (Tenacity.Returned tt, <[ filename := Document body ]> downloads_dir)
  | PrintInterrupted part e => (Tenacity.Raised e, <[ filename := Document part ]> downloads_dir)
  | PrintFailure e => (Tenacity.Raised e, downloads_dir)
  end.

(** [html_to_pdf]: success, the creator, the directory afterwards. *)
Definition html_to_pdf (br : browser) (filename : string)
    (downloads_dir : gmap string file) : bool * string * gmap string file :=
  match new_page br with
  | Some _ => (false, EmptyString, downloads_dir)
  | None =>
      let nav := Tenacity.retrying browser_policy
                   (fun n st => (navigate br n, st)) downloads_dir in
      match Tenacity.ending_of nav with
      | Tenacity.Done creator_name =>
          let pdf := Tenacity.retrying browser_policy
                       (generate_pdf_from_page br filename) downloads_dir in
          match Tenacity.ending_of pdf with
          | Tenacity.Done _ =>
              match close_page br with
              | None => (true, creator_name, Tenacity.state_of pdf)
              | Some _ => (false, EmptyString, Tenacity.state_of pdf)
              end
          | _ => (false, EmptyString, Tenacity.state_of pdf)
          end
      | _ => (false, EmptyString, downloads_dir)
      end
  end.

(** *** The publications file *)

(** The lines of a text file as iteration over it yields them: each
    line closes with a line feed, which also stands for a carriage
    return and for the pair of both; the last line may lack it. *)
Fixpoint readlines (content : string) : list string :=
  match content with
  | EmptyString => []
  | String c rest =>
      if Ascii.eqb c "010" then String "010" EmptyString :: readlines rest
      else if Ascii.eqb c "013" then
        match rest with
        | String "010" rest' => String "010" EmptyString :: readlines rest'
        | _ => String "010" EmptyString :: readlines rest
        end
      else
        match rest with
        | EmptyString => [String c EmptyString]
        | _ =>
            match readlines rest with
            | line :: lines => String c line :: lines
            | [] => [String c EmptyString]
            end
        end
  end.

(** The body of the line loop of [read_publications_file]. *)
Definition read_line (line : string) : option (string * string * string) :=
  let line := strip line in
  if truthy line && contains " | " line then
    match split " | " line 2 with
    | [date; title; url] => Some (date, title, url)
    | _ => None
    end
  else None.

(** [read_publications_file] on the text of the file; a file that
    cannot be opened reads as no publication. *)
Definition read_publications_file (content : option string)
    : list (string * string * string) :=
  match content with
  | Some text => omap read_line (readlines text)
  | None => []
  end.

(** *** Processing *)

(** What the outside world does while one record is processed. *)
Record world := World {
  stat_refuses : string -> bool; (* the names [stat] fails for, see [path_exists] *)
  primary : nat -> fetch;      (* the aiohttp requests *)
  fallback : nat -> fetch;     (* the requests requests *)
  chromium : browser;
  fallback_now_text : string;  (* the clock in the handler of [generate_metadata] *)
  now_text : string            (* the clock at [created_at] *)
}.

(** The download-or-render step of [process_publication]. *)
Definition retrieve (w : world) (url pdf_filename : string)
    (downloads_dir : gmap string file) : bool * string * gmap string file :=
  let is_pdf := endswith ".pdf" (lower url) in
  if is_pdf then
    let d := download_pdf (primary w) (fallback w) pdf_filename downloads_dir in
    (returned d, EmptyString, directory_after d)
  else html_to_pdf (chromium w) pdf_filename downloads_dir.

(** [process_publication]: what it returns, or the exception it
    raises, and the directory afterwards.  An exception of
    [check_duplicate_filename] is not handled here: it ends the call
    before anything is requested or written. *)
Definition process_publication (w : world) (downloads_dir : gmap string file)
    (date title url : string)
    : option (Tenacity.outcome bool exception * gmap string file) :=
  let base_filename := generate_filename date title 0 in
  match check_duplicate_filename (stat_refuses w) downloads_dir base_filename "pdf" with
  | None => None
  | Some (Tenacity.Raised e) => Some (Tenacity.Raised e, downloads_dir)
  | Some (Tenacity.Returned pdf_filename) =>
      match check_duplicate_filename (stat_refuses w) downloads_dir base_filename "json" with
      | None => None
      | Some (Tenacity.Raised e) => Some (Tenacity.Raised e, downloads_dir)
      | Some (Tenacity.Returned json_filename) =>
          let '(success, creator_name, downloads_dir) :=
            retrieve w url pdf_filename downloads_dir in
          if success then
            let metadata :=
              generate_metadata_clock (fallback_now_text w) (now_text w) date title url
                pdf_filename creator_name in
            Some (Tenacity.Returned success,
                  save_metadata metadata json_filename downloads_dir)
          else Some (Tenacity.Returned success, downloads_dir)
      end
  end.

(** The counters of [process_publications_file] and the directory. *)
Record summary := Summary {
  successful : nat;
  failed : nat;
  directory : gmap string file
}.

(** [for i, (date, title, url) in enumerate(publications, 1)], entered
    at index [i]; [worlds i] is the world the [i]-th record meets.  A
    record for which [process_publication] raises is counted as failed
    by the handler of the loop, which goes on with the next record.  The
    pause of one second after each record is left out. *)
Fixpoint publication_loop (worlds : nat -> world) (i : nat)
    (publications : list (string * string * string)) (s : summary) : option summary :=
  match publications with
  | [] => Some s
  | (date, title, url) :: publications' =>
      match process_publication (worlds i) (directory s) date title url with
      | Some (Tenacity.Returned success, downloads_dir) =>
          publication_loop worlds (S i) publications'
            (if success
             then Summary (S (successful s)) (failed s) downloads_dir
             else Summary (successful s) (S (failed s)) downloads_dir)
      | Some (Tenacity.Raised _, downloads_dir) =>
          publication_loop worlds (S i) publications'
            (Summary (successful s) (S (failed s)) downloads_dir)
      | None => None
      end
  end.

Definition process_publications_file (worlds : nat -> world) (content : option string)
    (downloads_dir : gmap string file) : option summary :=
  publication_loop worlds 1 (read_publications_file content) (Summary 0 0 downloads_dir).

(** *** The category table *)

(** [self.category_mapping] *)
Definition category_mapping : gmap string string :=
  list_to_map
    [ ("press release", "Press release");
      ("monetary policy", "Monetary policy statement");
      ("economic bulletin", "Economic Bulletin");
      ("financial stability", "Financial Stability Review");
      ("speech", "Speech");
      ("interview", "Interview");
      ("blog", "Blog");
      ("report", "Report");
      ("statistics", "Statistical release") ].

(** *** The latest publications file *)

(** An entry of the directory of the scripts: its name and the time of
    its last change. *)
Record dir_entry := DirEntry {
  entry_name : string;
  st_mtime : Z
}.

(** The pattern [ecb_publications_*.txt] of [glob]: the star stands
    for any text, the empty one too. *)
Definition publications_pattern (name : string) : bool :=
  startswith "ecb_publications_" name
  && endswith ".txt" (slice_from (String.length "ecb_publications_") name).

(** [max(files, key=...)], from the first file on: a later file
    replaces the best one when its key is greater. *)
Fixpoint max_by {A} (key : A -> Z) (best : A) (files : list A) : A :=
  match files with
  | [] => best
  | x :: files' => max_by key (if (key best <? key x)%Z then x else best) files'
  end.

(** [find_latest_publications_file], on the entries of the directory
    in the order [glob] meets them: the name of the file taken, of
    which the source returns the path. *)
Definition find_latest_publications_file (entries : list dir_entry) : option string :=
  match filter (fun e => publications_pattern (entry_name e) = true) entries with
  | [] => None
  | file :: files => Some (entry_name (max_by st_mtime file files))
  end.

End ECBPDFDownloader.

(** ** The specification's rule table for categories *)

Module CategorySpec.
Import PyStr.

(** One rule: keywords looked up in the title, keywords looked up in the
    url, and the category the rule yields. *)
Record rule := Rule {
  title_keys : list string;
  url_keys : list string;
  category : string
}.

(** The ordered rule list, rules 1 to 8. *)
Definition rules : list rule :=
  [ Rule ["monetary policy"] ["/mopo/"] "Monetary policy statement";
    Rule ["economic bulletin"] [] "Economic Bulletin";
    Rule ["financial stability"] [] "Financial Stability Review";
    Rule [] ["speech"; "key"] "Speech";
    Rule [] ["interview"] "Interview";
    Rule [] ["blog"] "Blog";
    Rule ["statistics"] ["/stats/"] "Statistical release";
    Rule [] ["press"; "/pr/"] "Press release" ].

(** A rule matches when the lower-cased title holds one of its title
    keywords or the lower-cased url holds one of its url keywords. *)
Definition matches (r : rule) (title url : string) : bool :=
  existsb (fun k => contains k (lower title)) (title_keys r) ||
  existsb (fun k => contains k (lower url)) (url_keys r).

(** First match wins; [Report] when no rule matches. *)
Fixpoint classify (rs : list rule) (title url : string) : string :=
  match rs with
  | [] => "Report"
  | r :: rs' => if matches r title url then category r else classify rs' title url
  end.

End CategorySpec.


(** ** The candidate links of extraction

    First as the code meets them, the heading and the content block of
    a date group paired by position and the cap left out, then in the
    words of the specification. *)

Module ExtractionSpec.
Import PyStr ECBScraper.

(** The url of a link: its target, made absolute when it starts at the
    path root. *)
Definition link_url (link : Bs4.tag) : string :=
  let href := default EmptyString (Bs4.get_attr "href" (Bs4.tag_attrs link)) in
  if startswith "/" href then "https://www.ecb.europa.eu" +:+ href else href.

(** The record a link stands for under a heading: none for a link
    inside the collapsed region, and none unless title, url and parsed
    date are all present. *)
Definition candidate (date_text : string) (link : Bs4.tag) : option publication :=
  match Bs4.find_parent "div" "accordion" link with
  | Some _ => None
  | None =>
      let title := Bs4.get_text_strip link in
      match parse_date date_text with
      | Some parsed =>
          if truthy title && truthy (link_url link) && truthy parsed
          then Some (Publication parsed (replace_char "|" "-" title) (link_url link) date_text)
          else None
      | None => None
      end
  end.

(** The candidates of one heading and its content block. *)
Definition pair_candidates (pair : Bs4.tag * Bs4.tag) : list publication :=
  omap (candidate (Bs4.get_text_strip pair.1)) (Bs4.find_all_href "a" pair.2).

(** The candidates of one date group: the [i]-th heading of the group
    paired with its [i]-th content block; a content block beyond the
    last heading is not read. *)
Definition group_candidates (dl : Bs4.tag) : list publication :=
  flat_map pair_candidates (zip (Bs4.find_all "dt" dl) (Bs4.find_all "dd" dl)).

(** All candidate links of a page, in the order of the date groups,
    of the pairs of a group and of the links of a content block. *)
Definition candidate_links (soup : list Bs4.node) : list publication :=
  match Bs4.find_class "div" "dl-wrapper" soup with
  | None => []
  | Some dl_wrapper => flat_map group_candidates (Bs4.find_all "dl" dl_wrapper)
  end.

(** *** The candidate links in the words of the specification

    Every link with an [href] of a content block, under the heading the
    block follows in its date group, outside the collapsed region, with
    a title and a parsed heading date. *)

(** The record of a link under a heading, the url left out of the
    conditions. *)
Definition href_candidate (date_text : string) (link : Bs4.tag) : option publication :=
  match Bs4.find_parent "div" "accordion" link with
  | Some _ => None
  | None =>
      let title := Bs4.get_text_strip link in
      match parse_date date_text with
      | Some parsed =>
          if truthy title
          then Some (Publication parsed (replace_char "|" "-" title) (link_url link) date_text)
          else None
      | None => None
      end
  end.

Definition is_heading (t : Bs4.tag) : bool := String.eqb (Bs4.tag_name t) "dt".

Definition is_block (t : Bs4.tag) : bool := String.eqb (Bs4.tag_name t) "dd".

(** The headings and content blocks of a date group, in document
    order. *)
Definition group_items (dl : Bs4.tag) : list Bs4.tag :=
  filter (fun t => is_heading t || is_block t = true) (Bs4.descendants dl).

(** Each content block with the heading it follows; [heading] is the
    last heading met, if any. *)
Fixpoint following_blocks (heading : option Bs4.tag) (items : list Bs4.tag)
    : list (Bs4.tag * Bs4.tag) :=
  match items with
  | [] => []
  | t :: items' =>
      if is_heading t then following_blocks (Some t) items'
      else
        match heading with
        | Some dt => (dt, t) :: following_blocks heading items'
        | None => following_blocks heading items'
        end
  end.

Definition described_links (soup : list Bs4.node) : list publication :=
  match Bs4.find_class "div" "dl-wrapper" soup with
  | None => []
  | Some dl_wrapper =>
      flat_map
        (fun dl =>
           flat_map
             (fun pair : Bs4.tag * Bs4.tag =>
                omap (href_candidate (Bs4.get_text_strip pair.1))
                     (Bs4.find_all_href "a" pair.2))
             (following_blocks None (group_items dl)))
        (Bs4.find_all "dl" dl_wrapper)
  end.


(** Headings and content blocks alternate: a heading, its content
    block, the next heading, its content block, and so on. *)
Fixpoint alternating (items : list Bs4.tag) : bool :=
  match items with
  | [] => true
  | dt :: items' =>
      match items' with
      | dd :: items'' => is_heading dt && is_block dd && alternating items''
      | [] => false
      end
  end.

(** A page is regular when the headings and content blocks of each of
    its date groups alternate. *)
Definition regular (soup : list Bs4.node) : bool :=
  match Bs4.find_class "div" "dl-wrapper" soup with
  | None => true
  | Some dl_wrapper =>
      forallb (fun dl => alternating (group_items dl)) (Bs4.find_all "dl" dl_wrapper)
  end.

(** [publications] followed by as many of [more] as the limit leaves
    room for. *)
Definition capped (max_publications : Z) (publications more : list publication)
    : list publication :=
  publications ++ take (Z.to_nat max_publications - length publications) more.

End ExtractionSpec.

(** ** What a pattern matches, stated without the matcher *)

Module ReSpec.
Import PyStr.

(** Every character of [s] is in the class. *)
Fixpoint all_in (cls : ascii -> bool) (s : string) : bool :=
  match s with
  | EmptyString => true
  | String c s' => cls c && all_in cls s'
  end.

(** The last character of [s] is not in the class. *)
Fixpoint ends_outside (cls : ascii -> bool) (s : string) : bool :=
  match s with
  | EmptyString => false
  | String c EmptyString => negb (cls c)
  | String _ s' => ends_outside cls s'
  end.

Definition within (hi : option nat) (n : nat) : Prop :=
  match hi with
  | Some h => n <= h
  | None => True
  end.

(** [matched_by r ps rest]: the texts [ps], followed by [rest], are what
    the elements of [r] stand for, one text for each element. *)
Inductive matched_by : Re.regex -> list string -> string -> Prop :=
| matched_nil (rest : string) : matched_by [] [] rest
| matched_rep (cls : ascii -> bool) (lo : nat) (hi : option nat) (r : Re.regex)
    (p : string) (ps : list string) (rest : string) :
    all_in cls p = true -> lo <= String.length p -> within hi (String.length p) ->
    matched_by r ps rest ->
    matched_by (Re.Rep cls lo hi :: r) (p :: ps) rest
| matched_eos (r : Re.regex) (ps : list string) (rest : string) :
    Re.at_end (Re.concat_pieces ps +:+ rest) = true ->
    matched_by r ps rest ->
    matched_by (Re.Eos :: r) (EmptyString :: ps) rest.

(** A quantified class cannot take more than [p] in front of [rest]:
    it has reached its bound, or [rest] does not go on with the class. *)
Definition stops (cls : ascii -> bool) (hi : option nat) (p rest : string) : Prop :=
  hi = Some (String.length p) \/
  match rest with
  | EmptyString => True
  | String c _ => cls c = false
  end.

End ReSpec.

(** ** The two date forms of the specification *)

Module DateSpec.
Import PyStr ReSpec.

(** [t] holds, after [pre], a day of one or two digits, blanks, a word
    [m], blanks, and a year of four digits. *)
Definition day_month_year_at (t pre d m y : string) : Prop :=
  exists w1 w2 rest,
    t = pre +:+ d +:+ w1 +:+ m +:+ w2 +:+ y +:+ rest
    /\ all_in is_digit d = true /\ 1 <= String.length d <= 2
    /\ all_in is_space w1 = true /\ 1 <= String.length w1
    /\ all_in is_word m = true /\ 1 <= String.length m
    /\ all_in is_space w2 = true /\ 1 <= String.length w2
    /\ all_in is_digit y = true /\ String.length y = 4.

(** [t] holds, after [pre], the text [iso] of the form YYYY-MM-DD. *)
Definition iso_at (t pre iso : string) : Prop :=
  exists y m d rest,
    t = pre +:+ iso +:+ rest
    /\ iso = y +:+ "-" +:+ m +:+ "-" +:+ d
    /\ all_in is_digit y = true /\ String.length y = 4
    /\ all_in is_digit m = true /\ String.length m = 2
    /\ all_in is_digit d = true /\ String.length d = 2.

(** No day-month-year form starts before [pre] in [t]. *)
Definition no_earlier_day_month_year (t pre : string) : Prop :=
  forall pre' d m y, day_month_year_at t pre' d m y -> String.length pre <= String.length pre'.

(** No ISO form starts before [pre] in [t]. *)
Definition no_earlier_iso (t pre : string) : Prop :=
  forall pre' iso, iso_at t pre' iso -> String.length pre <= String.length pre'.

(** The first pattern gives no date for [t]: there is no
    day-month-year form, or the word of the leftmost one is not a month
    name. *)
Definition no_month_date (t : string) : Prop :=
  (forall pre d m y, ~ day_month_year_at t pre d m y)
  \/ (exists pre d m y,
        day_month_year_at t pre d m y /\ no_earlier_day_month_year t pre
        /\ ECBScraper.month_names !! m = None).

(** [r] has the form YYYY-MM-DD. *)
Definition iso_form (r : string) : Prop := iso_at r EmptyString r.

End DateSpec.

(** ** The publications file *)

Module FileSpec.
Import PyStr ReSpec ECBScraper.

(** The fields of a line: the line split at every [" | "]. *)
Definition fields (line : string) : list string :=
  split " | " line (String.length line).

(** What the reader takes from a line: with three fields or more, the
    first, the second, and the rest of the line after the second
    separator. *)
Definition accepted (line : string) : option (string * string * string) :=
  match fields (strip line) with
  | date :: title :: url :: more => Some (date, title, join " | " (url :: more))
  | _ => None
  end.

Definition line_break (c : ascii) : bool := Ascii.eqb c "010" || Ascii.eqb c "013".

Definition no_break (c : ascii) : bool := negb (line_break c).

Definition no_pipe (c : ascii) : bool := negb (Ascii.eqb c "|").

(** A record the flat file can hold: an ISO date; a title without
    line break in which no [" | "] starts, be it inside the title or on
    its last two characters; a url without line break that ends in a
    character other than white space. *)
Definition storable (p : publication) : Prop :=
  DateSpec.iso_form (date p)
  /\ contains " | " (title p +:+ " ") = false /\ all_in no_break (title p) = true
  /\ all_in no_break (url p) = true /\ ends_outside is_space (url p) = true.

Definition triple (p : publication) : string * string * string :=
  (date p, title p, url p).

End FileSpec.

(** ** The names a collision is resolved through *)

Module NameSpec.
Import PyStr ECBPDFDownloader.

(** The [n]-th name tried for a base name and an extension: the plain
    name first, the numbered names after it. *)
Definition probe (base_filename extension : string) (n : nat) : string :=
  match n with
  | O => base_filename +:+ "." +:+ extension
  | S _ => numbered_filename base_filename extension n
  end.

(** The text of a numbered name before the number. *)
Definition numbered_prefix (base_filename : string) : string :=
  match split "_" base_filename 1 with
  | date_part :: title_part :: _ =>
      date_part +:+ "_" +:+ Re.sub at_suffix EmptyString title_part +:+ "_At"
  | _ => base_filename +:+ "_At"
  end.

Definition not_underscore (c : ascii) : bool := negb (Ascii.eqb c "_").

End NameSpec.

(** ** The backoff formula of the specification *)

Module RetrySpec.

(** The sleep the specification gives before retry number [k]:
    [min(maxDelay, minDelay * multiplier^(k-1))]. *)
Definition specified_sleep {E} (p : Tenacity.policy E) (k : nat) : Z :=
  Z.min (Tenacity.max_wait p)
        (Tenacity.min_wait p * Tenacity.multiplier p ^ (Z.of_nat k - 1)).

(** The attempts from [k] up to, not including, [n] all raised an
    exception the policy retries on; [out] gives the outcome of each
    attempt. *)
Definition retried {V E} (p : Tenacity.policy E) (out : nat -> Tenacity.outcome V E)
    (k n : nat) : Prop :=
  forall j, k <= j < n -> exists e, out j = Tenacity.Raised e /\ Tenacity.retryable p e = true.

End RetrySpec.

(** ** Sidecars and retrievals *)

Module ProcessSpec.
Import PyStr ECBPDFDownloader.

(** The metadata sidecars of a directory, by file name. *)
Definition sidecars (downloads_dir : gmap string file) : gmap string metadata :=
  omap (fun f => match f with Sidecar m => Some m | Document _ => None end) downloads_dir.

(** Whether the two names of a record are resolved: no name probed
    for the document or for the metadata is refused. *)
Definition names_resolve (w : world) (downloads_dir : gmap string file)
    (date title : string) : bool :=
  match check_duplicate_filename (stat_refuses w) downloads_dir
          (generate_filename date title 0) "pdf",
        check_duplicate_filename (stat_refuses w) downloads_dir
          (generate_filename date title 0) "json" with
  | Some (Tenacity.Returned _), Some (Tenacity.Returned _) => true
  | _, _ => false
  end.

(** Whether the retrieval of [url] succeeds in the world [w]; file
    names and directory play no part in it. *)
Definition retrieval_succeeds (w : world) (url : string) : bool :=
  (retrieve w url EmptyString ∅).1.1.

(** The number of records whose retrieval succeeds, the first record
    meeting the world [worlds i]. *)
Fixpoint succeeded_records (worlds : nat -> world) (i : nat)
    (publications : list (string * string * string)) : nat :=
  match publications with
  | [] => 0
  | (_, _, url) :: publications' =>
      (if retrieval_succeeds (worlds i) url then 1 else 0)
      + succeeded_records worlds (S i) publications'
  end.

End ProcessSpec.

(** ** Duplicates and ranking *)

Module RankSpec.
Import ECBScraper.

(** The order of the keys of a sort. *)
Definition key_le {A} (key : A -> string) (a b : A) : Prop := String.le (key a) (key b).

(** What the duplicate filter keeps: [first_of publications p] says
    that [p] stands in [publications] with no earlier record of its
    url. *)
Definition first_of (publications : list publication) (p : publication) : Prop :=
  exists l1 l2, publications = l1 ++ p :: l2 /\ url p ∉ url <$> l1.

(** [first_at publications i p]: [p] is the record at place [i] of
    [publications], counted from 0, and no record at an earlier place
    has its url. *)
Definition first_at (publications : list publication) (i : nat) (p : publication) : Prop :=
  publications !! i = Some p
  /\ forall j q, j < i -> publications !! j = Some q -> url q <> url p.

(** The order of the ranking on records with their places: a record
    stands before the records of an earlier date and, among the records
    of its own date, before those of a later place. *)
Definition ranked_before (a b : nat * publication) : Prop :=
  String.le (date b.2) (date a.2) /\ (date a.2 = date b.2 -> a.1 < b.1).

End RankSpec.

(** ** Attempts of the two transports *)

Module DownloadSpec.
Import Tenacity ECBPDFDownloader.

(** How an attempt of the primary transport ends, by what the request
    meets. *)
Definition aiohttp_outcome (f : fetch) : outcome bool exception :=
  match f with
  | Fetched _ => Returned true
  | Interrupted _ e => Raised e
  | BadStatus _ => Raised ClientError
  | Failure e => Raised e
  end.

(** The same for the fallback transport. *)
Definition requests_outcome (f : fetch) : outcome bool exception :=
  match f with
  | Fetched _ => Returned true
  | Interrupted _ e => Raised e
  | BadStatus _ => Raised OSError
  | Failure e => Raised e
  end.

End DownloadSpec.

(** ** Clean names *)

Module SanitizeSpec.
Import PyStr ReSpec ECBPDFDownloader.

(** A character [sanitize_filename] keeps as it is. *)
Definition plain (c : ascii) : bool := negb (special_chars c).

(** A character that leaves no trace in the name. *)
Definition dropped (c : ascii) : bool := special_chars c || underscore c.

(** A clean name: no special character, no two underscores in a row,
    no underscore at either end. *)
Definition clean (s : string) : Prop :=
  all_in plain s = true /\ contains "__" s = false
  /\ startswith "_" s = false /\ endswith "_" s = false.

End SanitizeSpec.

(** ** Dates of the calendar *)

Module CalendarSpec.
Import PyStr Datetime.
Local Open Scope Z_scope.

(** A date of the calendar. *)
Definition calendar_date (y m d : Z) : Prop :=
  1 <= y /\ 1 <= m <= 12 /\ 1 <= d <= days_in_month y m.

(** The year as [isoformat] writes it is four digits that read as the
    year. *)
Definition year_text_ok (y : Z) : bool :=
  match pad 4 y with
  | String a (String b (String c (String e EmptyString))) =>
      is_digit a && is_digit b && is_digit c && is_digit e && (int (pad 4 y) =? y)
  | _ => false
  end.

(** The pattern after the year, and the text [isoformat] writes after
    the year. *)
Definition month_day_groups : list (list alternative) :=
  [literal "-"; directive_m; literal "-"; directive_d].

Definition month_day_text (m d : Z) : string :=
  "-" +:+ pad 2 m +:+ "-" +:+ pad 2 d.

Definition month_day (m d : Z) : bool :=
  (1 <=? m) && (m <=? 12) && (1 <=? d) && (d <=? 31).

(** The pattern reads month and day back when the month is one of the
    twelve and the day is from 1 to 31, and fails or leaves text over
    otherwise. *)
Definition month_day_text_ok (m d : Z) : bool :=
  match match_groups month_day_groups (month_day_text m d) with
  | Some ([_; mm; _; dd], rest) =>
      if month_day m d
      then negb (truthy rest) && (int mm =? m) && (int dd =? d)
      else truthy rest
  | Some _ => false
  | None => negb (month_day m d)
  end.

End CalendarSpec.

(** ** What retrieval leaves in the directory *)

Module DirectorySpec.
Import ECBPDFDownloader.

(** [s] is [dir] with a document under [name]. *)
Definition written (name : string) (dir s : gmap string file) : Prop :=
  exists body, s = <[ name := Document body ]> dir.

(** [s] is [dir], or [dir] with a document under [name]. *)
Definition touched (name : string) (dir s : gmap string file) : Prop :=
  s = dir \/ written name dir s.

(** The sum of the sleeps of a run, in seconds. *)
Definition total (sleeps : list Z) : Z := foldr Z.add 0%Z sleeps.

End DirectorySpec.

(** ** Sample inputs *)

Module Samples.
Import Tenacity ECBPDFDownloader.

(** The no-break space U+00A0, and the letter U+00E4. *)
Definition nbsp : string := String "160" EmptyString.

Definition a_umlaut : string := String "228" EmptyString.

Definition sample_link (href text : string) : Bs4.node :=
  Bs4.Elem "a" [] [("href", href)] [Bs4.Text text].

(** A page with two date groups and four links, one of them in a
    collapsed region. *)
Definition sample_page : list Bs4.node :=
  [ Bs4.Elem "html" [] []
      [ Bs4.Elem "div" ["dl-wrapper"] []
          [ Bs4.Elem "dl" [] []
              [ Bs4.Elem "dt" [] [] [Bs4.Text " 15 March 2024 "];
                Bs4.Elem "dd" [] []
                  [ sample_link "/press/pr/a.en.html" "Decision | statement";
                    Bs4.Elem "div" ["accordion"] []
                      [sample_link "/press/pr/a.de.html" "Deutsch"];
                    sample_link "https://example.org/b.pdf" "Annex" ] ];
            Bs4.Elem "dl" [] []
              [ Bs4.Elem "dt" [] [] [Bs4.Text "2024-03-14"];
                Bs4.Elem "dd" [] [] [sample_link "/press/key/c.en.html" "Speech"] ] ] ] ].


(** A page whose link text runs over two lines. *)
Definition wrapped_title_page : list Bs4.node :=
  [ Bs4.Elem "div" ["dl-wrapper"] []
      [ Bs4.Elem "dl" [] []
          [ Bs4.Elem "dt" [] [] [Bs4.Text "15 March 2024"];
            Bs4.Elem "dd" [] []
              [ sample_link "https://example.org/a"
                  (String "E" (String "C" (String "B" (String "010" "decision")))) ] ] ] ].


(** The number of bytes of a text in UTF-8: one for a character below
    U+0080, two for the others. *)
Fixpoint utf8_length (s : string) : nat :=
  match s with
  | EmptyString => 0
  | String c s' => (if (PyStr.code c <? 128)%N then 1 else 2) + utf8_length s'
  end.

(** A file system that takes no name of more than 255 bytes. *)
Definition name_too_long (name : string) : bool := 255 <? utf8_length name.

(** [n] times the character [c]. *)
Fixpoint run_of (n : nat) (c : ascii) : string :=
  match n with
  | O => EmptyString
  | S n' => String c (run_of n' c)
  end.

(** A base name of 261 characters. *)
Definition long_base_filename : string := "2024-05-01_" +:+ run_of 250 "a".

(** A title of 130 letters beyond ASCII, U+00E9 each, which
    [sanitize_filename] keeps as it is: 260 bytes. *)
Definition long_title : string := run_of 130 (ascii_of_N 233).

(** A world in which the primary transport fetches the document at its
    second attempt; the file system takes every name. *)
Definition sample_world : world :=
  {| stat_refuses := fun _ => false;
     primary := fun k => if decide (k = 2) then Fetched "%PDF" else BadStatus 503;
     fallback := fun _ => Failure OSError;
     chromium := Browser None (fun _ => Returned EmptyString) (fun _ => Printed "%PDF") None;
     fallback_now_text := "2024-05-02T09:59:59+00:00";
     now_text := "2024-05-02T10:00:00+00:00" |}.

(** A world in which every request is cut short while the document is
    written. *)
Definition interrupted_world : world :=
  {| stat_refuses := fun _ => false;
     primary := fun _ => Interrupted "%PD" ClientError;
     fallback := fun _ => Interrupted "%PD" OSError;
     chromium := Browser None (fun _ => Returned EmptyString) (fun _ => Printed "%PDF") None;
     fallback_now_text := "2024-05-02T09:59:59+00:00";
     now_text := "2024-05-02T10:00:00+00:00" |}.

(** The world of [sample_world] with a file system that takes no name
    of more than 255 bytes. *)
Definition short_names_world : world :=
  {| stat_refuses := name_too_long;
     primary := primary sample_world;
     fallback := fallback sample_world;
     chromium := chromium sample_world;
     fallback_now_text := fallback_now_text sample_world;
     now_text := now_text sample_world |}.

End Samples.
(** * Properties *)

(** ** Strings *)

Section StringFacts.
Import PyStr.

Lemma app_nil_l_s (s : string) : EmptyString +:+ s = s.
Proof. reflexivity. Qed.

Lemma app_cons_s (c : ascii) (s t : string) : String c s +:+ t = String c (s +:+ t).
Proof. reflexivity. Qed.

Lemma app_nil_r_s (s : string) : s +:+ EmptyString = s.
Proof. induction s as [|c s IH]; [done|]. by rewrite app_cons_s, IH. Qed.

Lemma app_assoc_s (a b c : string) : (a +:+ b) +:+ c = a +:+ (b +:+ c).
Proof. induction a as [|x a IH]; [done|]. by rewrite !app_cons_s, IH. Qed.

Lemma length_app_s (a b : string) :
  String.length (a +:+ b) = String.length a + String.length b.
Proof. induction a as [|x a IH]; [done|]. rewrite app_cons_s. simpl. by rewrite IH. Qed.

Lemma app_inv_tail_s (a b t : string) : a +:+ t = b +:+ t -> a = b.
Proof.
  revert b. induction a as [|x a IH]; intros [|y b] H; [done| | |].
  - apply (f_equal String.length) in H.
    rewrite app_nil_l_s, app_cons_s in H. simpl in H. rewrite length_app_s in H. lia.
  - apply (f_equal String.length) in H.
    rewrite app_nil_l_s, app_cons_s in H. simpl in H. rewrite length_app_s in H. lia.
  - rewrite !app_cons_s in H. injection H as -> H. f_equal. by apply IH.
Qed.

Lemma startswith_cons (a b : ascii) (p s : string) :
  startswith (String a p) (String b s) = Ascii.eqb a b && startswith p s.
Proof. reflexivity. Qed.

Lemma startswith_app (p r : string) : startswith p (p +:+ r) = true.
Proof.
  induction p as [|c p IH]; [done|]. rewrite app_cons_s. simpl.
  by rewrite Ascii.eqb_refl, IH.
Qed.

Lemma startswith_spec (p s : string) :
  startswith p s = true <-> exists r, s = p +:+ r.
Proof.
  split.
  - revert s. induction p as [|c p IH]; intros s H.
    + by exists s.
    + destruct s as [|d s]; [done|]. simpl in H.
      apply andb_true_iff in H as [Hc Hp]. apply Ascii.eqb_eq in Hc as ->.
      destruct (IH _ Hp) as [r ->]. by exists r.
  - intros [r ->]. apply startswith_app.
Qed.

Lemma contains_spec (needle s : string) :
  contains needle s = true <-> exists a b, s = a +:+ needle +:+ b.
Proof.
  split.
  - induction s as [|c s IH]; simpl; intros H.
    + rewrite orb_false_r in H. apply startswith_spec in H as [r ->].
      by exists EmptyString, r.
    + apply orb_true_iff in H as [H|H].
      * apply startswith_spec in H as [r ->]. by exists EmptyString, r.
      * destruct (IH H) as (a & b & ->). by exists (String c a), b.
  - intros (a & b & ->). induction a as [|c a IH].
    + rewrite app_nil_l_s. destruct (needle +:+ b) eqn:E; simpl;
        rewrite <- E, startswith_app; done.
    + rewrite app_cons_s. simpl. rewrite IH. apply orb_true_r.
Qed.

Lemma lower_app (a b : string) : lower (a +:+ b) = lower a +:+ lower b.
Proof. induction a as [|c a IH]; [done|]. rewrite !app_cons_s. simpl. by rewrite IH, app_cons_s. Qed.

Lemma lower_char_idemp (c : ascii) : lower_char (lower_char c) = lower_char c.
Proof. by destruct c as [[] [] [] [] [] [] [] []]. Qed.

Lemma lower_idemp (s : string) : lower (lower s) = lower s.
Proof. induction s as [|c s IH]; [done|]. simpl. by rewrite lower_char_idemp, IH. Qed.

(** The character classes, by code: the white space, the number of
    word characters, and the characters [lower] changes, each of which
    goes 32 places on. *)
Example is_space_codes :
  filter (fun n => is_space (ascii_of_N n) = true) (N.of_nat <$> seq 0 256)
  = [9; 10; 11; 12; 13; 28; 29; 30; 31; 32; 133; 160]%N.
Proof. vm_compute. reflexivity. Qed.

Example is_word_codes :
  length (filter (fun n => is_word (ascii_of_N n) = true) (N.of_nat <$> seq 0 256)) = 134
  /\ filter (fun n => is_word (ascii_of_N n) = true) (N.of_nat <$> seq 0 192)
     = (N.of_nat <$> seq 48 10) ++ (N.of_nat <$> seq 65 26) ++ [95%N]
       ++ (N.of_nat <$> seq 97 26) ++ [170; 178; 179; 181; 185; 186; 188; 189; 190]%N
  /\ filter (fun n => negb (is_word (ascii_of_N n)) = true) (N.of_nat <$> seq 192 64)
     = [215; 247]%N.
Proof. split_and!; vm_compute; reflexivity. Qed.

Example lower_char_codes :
  filter (fun n => negb (N.eqb (code (lower_char (ascii_of_N n))) n) = true)
    (N.of_nat <$> seq 0 256)
  = (N.of_nat <$> seq 65 26) ++ (N.of_nat <$> seq 192 23) ++ (N.of_nat <$> seq 216 7)
  /\ forallb (fun n => N.eqb (code (lower_char (ascii_of_N n)))
                         (if is_cased_upper (ascii_of_N n) then n + 32 else n)%N)
       (N.of_nat <$> seq 0 256) = true.
Proof. split; vm_compute; reflexivity. Qed.

End StringFacts.
(** ** The matcher *)

Section ReFacts.
Import PyStr ReSpec.

Lemma slice_to_from (n : nat) (s : string) : slice_to n s +:+ slice_from n s = s.
Proof.
  revert n. induction s as [|c s IH]; intros [|n]; simpl; try done.
  by rewrite app_cons_s, IH.
Qed.

Lemma slice_to_app (p r : string) : slice_to (String.length p) (p +:+ r) = p.
Proof.
  induction p as [|c p IH].
  - rewrite app_nil_l_s. by destruct r.
  - rewrite app_cons_s. simpl. by rewrite IH.
Qed.

Lemma slice_from_app (p r : string) : slice_from (String.length p) (p +:+ r) = r.
Proof. induction p as [|c p IH]; [done|]. rewrite app_cons_s. simpl. by rewrite IH. Qed.

Lemma all_in_app (cls : ascii -> bool) (a b : string) :
  all_in cls (a +:+ b) = all_in cls a && all_in cls b.
Proof.
  induction a as [|c a IH]; [done|]. rewrite app_cons_s. simpl.
  by rewrite IH, andb_assoc.
Qed.

Lemma all_in_head (cls : ascii -> bool) (w : string) :
  all_in cls w = true -> 1 <= String.length w ->
  exists c w', w = String c w' /\ cls c = true.
Proof.
  destruct w as [|c w]; simpl; [lia|]. intros [H _]%andb_true_iff _. by exists c, w.
Qed.

Lemma span_prefix (cls : ascii -> bool) (hi : option nat) (n k : nat) (s : string) :
  within hi n -> n + k <= Re.span cls hi n s ->
  all_in cls (slice_to k s) = true
  /\ String.length (slice_to k s) = k
  /\ within hi (n + k).
Proof.
  revert n k. induction s as [|c s IH]; intros n k Hn Hk; simpl in Hk.
  - assert (k = 0) as -> by lia. by rewrite Nat.add_0_r.
  - destruct k as [|k]; [by rewrite Nat.add_0_r|].
    destruct (cls c) eqn:Hc; simpl in Hk; [|lia].
    destruct (Re.below hi n) eqn:Hb; [|lia].
    destruct (IH (S n) k) as (H1 & H2 & H3).
    + destruct hi as [h|]; simpl in *; [|done]. apply Nat.ltb_lt in Hb. lia.
    + lia.
    + simpl. rewrite Hc, H1, H2. split_and!; [done|done|].
      by replace (n + S k) with (S n + k) by lia.
Qed.

Lemma span_exact_from (cls : ascii -> bool) (hi : option nat) (n : nat) (p rest : string) :
  all_in cls p = true -> within hi (n + String.length p) ->
  (hi = Some (n + String.length p) \/
   match rest with EmptyString => True | String c _ => cls c = false end) ->
  Re.span cls hi n (p +:+ rest) = n + String.length p.
Proof.
  revert n. induction p as [|c p IH]; intros n Hall Hhi Hstop.
  - rewrite app_nil_l_s. simpl in *. rewrite Nat.add_0_r in *.
    destruct rest as [|c rest]; simpl; [done|].
    destruct Hstop as [-> | ->]; simpl; [|done].
    by rewrite Nat.ltb_irrefl, andb_false_r.
  - rewrite app_cons_s. simpl in *. apply andb_true_iff in Hall as [Hc Hall].
    rewrite Hc. assert (Re.below hi n = true) as ->.
    { destruct hi as [h|]; simpl in *; [|done]. apply Nat.ltb_lt. lia. }
    simpl. rewrite IH; [lia|done| |].
    + by replace (S n + String.length p) with (n + S (String.length p)) by lia.
    + by replace (S n + String.length p) with (n + S (String.length p)) by lia.
Qed.

Lemma span_exact (cls : ascii -> bool) (hi : option nat) (p rest : string) :
  all_in cls p = true -> within hi (String.length p) -> stops cls hi p rest ->
  Re.span cls hi 0 (p +:+ rest) = String.length p.
Proof. intros. by rewrite span_exact_from. Qed.

Lemma try_down_some {B} (f : nat -> option B) (lo n : nat) (x : B) :
  Re.try_down f lo n = Some x -> exists k, lo <= k <= n /\ f k = Some x.
Proof.
  induction n as [|n IH]; simpl.
  - destruct (Nat.ltb 0 lo) eqn:E; [done|]. apply Nat.ltb_ge in E.
    destruct (f 0) eqn:F; [|done]. intros [= ->]. exists 0. split; [lia|done].
  - destruct (Nat.ltb (S n) lo) eqn:E; [done|]. apply Nat.ltb_ge in E.
    destruct (f (S n)) eqn:F.
    + intros [= ->]. exists (S n). split; [lia|done].
    + intros H. destruct (IH H) as (k & Hk & Hf). exists k. split; [lia|done].
Qed.

Lemma try_down_first {B} (f : nat -> option B) (lo n : nat) (x : B) :
  lo <= n -> f n = Some x -> Re.try_down f lo n = Some x.
Proof.
  intros Hlo Hf. destruct n as [|n]; simpl.
  - assert (Nat.ltb 0 lo = false) as -> by (apply Nat.ltb_ge; lia). by rewrite Hf.
  - assert (Nat.ltb (S n) lo = false) as -> by (apply Nat.ltb_ge; lia). by rewrite Hf.
Qed.

(** What the matcher returns is a match. *)
Lemma match_here_sound (r : Re.regex) (s : string) (ps : list string) (rest : string) :
  Re.match_here r s = Some (ps, rest) ->
  s = Re.concat_pieces ps +:+ rest /\ matched_by r ps rest.
Proof.
  revert s ps rest. induction r as [|[cls lo hi|] r IH]; intros s ps rest; simpl.
  - intros [= <- <-]. split; [done|constructor].
  - intros (k & Hk & Hf)%try_down_some.
    destruct (Re.match_here r (slice_from k s)) as [[ps' rest']|] eqn:E; [|done].
    injection Hf as <- <-. destruct (IH _ _ _ E) as [Hs Hm].
    destruct (span_prefix cls hi 0 k s) as (H1 & H2 & H3).
    { by destruct hi; simpl; [lia|]. }
    { simpl. lia. }
    split.
    + simpl. rewrite app_assoc_s, <- Hs. by rewrite slice_to_from.
    + constructor; [done|lia| |done]. by rewrite H2.
  - destruct (Re.at_end s) eqn:Hend; [|done].
    destruct (Re.match_here r s) as [[ps' rest']|] eqn:E; [|done].
    intros [= <- <-]. destruct (IH _ _ _ E) as [Hs Hm].
    split; [done|]. constructor; [by rewrite <- Hs|done].
Qed.

(** A quantified class that cannot take more than [p] takes [p]. *)
Lemma match_here_rep (cls : ascii -> bool) (lo : nat) (hi : option nat) (r : Re.regex)
    (p rest0 : string) (ps : list string) (rest : string) :
  all_in cls p = true -> lo <= String.length p -> within hi (String.length p) ->
  stops cls hi p rest0 ->
  Re.match_here r rest0 = Some (ps, rest) ->
  Re.match_here (Re.Rep cls lo hi :: r) (p +:+ rest0) = Some (p :: ps, rest).
Proof.
  intros Hall Hlo Hhi Hstop Hr. simpl. rewrite span_exact by done.
  apply try_down_first; [done|]. by rewrite slice_from_app, Hr, slice_to_app.
Qed.

Lemma search_here (r : Re.regex) (s : string) (ps : list string) (rest : string) :
  Re.match_here r s = Some (ps, rest) ->
  Re.search r s = Some (Re.Matched EmptyString ps rest).
Proof. intros H. destruct s; simpl; by rewrite H. Qed.

(** The matcher finds a match that starts after [pre] when it finds
    none that starts inside [pre]. *)
Lemma search_after (r : Re.regex) (pre s : string) (ps : list string) (rest : string) :
  (forall a b, pre = a +:+ b -> b <> EmptyString -> Re.match_here r (b +:+ s) = None) ->
  Re.match_here r s = Some (ps, rest) ->
  Re.search r (pre +:+ s) = Some (Re.Matched pre ps rest).
Proof.
  induction pre as [|c pre IH]; intros Hnone Hs.
  - by apply search_here.
  - rewrite app_cons_s. simpl.
    rewrite <- app_cons_s, (Hnone EmptyString (String c pre)) by done.
    rewrite IH; [done| |done].
    intros a b -> Hb. by apply (Hnone (String c a) b).
Qed.

Lemma search_none (r : Re.regex) (s : string) :
  (forall a b, s = a +:+ b -> Re.match_here r b = None) -> Re.search r s = None.
Proof.
  induction s as [|c s IH]; intros Hnone; simpl.
  - by rewrite (Hnone EmptyString EmptyString).
  - rewrite (Hnone EmptyString (String c s)) by done.
    rewrite IH; [done|]. intros a b ->. by apply (Hnone (String c a) b).
Qed.

(** What the search returns is a match, between the text before it and
    the text after it. *)
Lemma search_sound (r : Re.regex) (s : string) (m : Re.matched) :
  Re.search r s = Some m ->
  s = Re.before m +:+ Re.concat_pieces (Re.pieces m) +:+ Re.after m
  /\ matched_by r (Re.pieces m) (Re.after m).
Proof.
  revert m. induction s as [|c s IH]; intros m; simpl.
  - destruct (Re.match_here r EmptyString) as [[ps rest]|] eqn:E; [|done].
    intros [= <-]. simpl. by apply match_here_sound.
  - destruct (Re.match_here r (String c s)) as [[ps rest]|] eqn:E.
    + intros [= <-]. simpl. by apply match_here_sound.
    + destruct (Re.search r s) as [m'|]; [|done]. intros [= <-]. simpl.
      destruct (IH m' eq_refl) as [Hs Hm]. split; [|done].
      by rewrite app_cons_s, <- Hs.
Qed.

(** The search finds a match no later than any place where the matcher
    succeeds. *)
Lemma search_complete (r : Re.regex) (pre s : string) (ps : list string) (rest : string) :
  Re.match_here r s = Some (ps, rest) ->
  exists m, Re.search r (pre +:+ s) = Some m
            /\ String.length (Re.before m) <= String.length pre.
Proof.
  intros Hs. induction pre as [|c pre IH].
  - rewrite app_nil_l_s, (search_here _ _ _ _ Hs). eexists. split; [done|]. simpl. lia.
  - rewrite app_cons_s. simpl.
    destruct (Re.match_here r (String c (pre +:+ s))) as [[ps' rest']|].
    + eexists. split; [done|]. simpl. lia.
    + destruct IH as (m & -> & Hm). eexists. split; [done|]. simpl. lia.
Qed.

End ReFacts.

(** One step of reading a match back: the first element of the pattern
    is a quantified class, [p] is the text it stands for. *)
Ltac matched_rep H p Hp Hlo Hhi H' :=
  inversion H as [|? ? ? ? p ? ? Hp Hlo Hhi H'|]; subst; clear H.
(** ** Splitting and stripping *)

Section SplitFacts.
Import PyStr ReSpec.

Lemma partition_unfold (sep s : string) :
  partition sep s
  = if startswith sep s then Some (EmptyString, slice_from (String.length sep) s)
    else match s with
         | EmptyString => None
         | String c s' =>
             match partition sep s' with
             | Some (a, b) => Some (String c a, b)
             | None => None
             end
         end.
Proof. by destruct s. Qed.

Lemma partition_sound (sep s a b : string) :
  partition sep s = Some (a, b) -> s = a +:+ sep +:+ b.
Proof.
  revert a b. induction s as [|c s IH]; intros a b; rewrite partition_unfold.
  - destruct sep; [|done]. by intros [= <- <-].
  - destruct (startswith sep (String c s)) eqn:E.
    + intros [= <- <-]. apply startswith_spec in E as [r Hr].
      rewrite Hr. by rewrite app_nil_l_s, slice_from_app.
    + destruct (partition sep s) as [[a' b']|]; [|done].
      intros [= <- <-]. by rewrite (IH a' b' eq_refl), app_cons_s.
Qed.

Lemma partition_shorter (sep s a b : string) :
  partition sep s = Some (a, b) ->
  String.length s = String.length a + String.length sep + String.length b.
Proof. intros ->%partition_sound. rewrite !length_app_s. lia. Qed.

(** The separator is found right after [a] when it starts at no place
    inside [a]. *)
Lemma partition_first (sep a b : string) :
  (forall a1 a2, a = a1 +:+ a2 -> a2 <> EmptyString ->
                 startswith sep (a2 +:+ sep +:+ b) = false) ->
  partition sep (a +:+ sep +:+ b) = Some (a, b).
Proof.
  induction a as [|c a IH]; intros Hfree; rewrite partition_unfold.
  - by rewrite app_nil_l_s, startswith_app, slice_from_app.
  - rewrite (Hfree EmptyString (String c a)) by done.
    rewrite app_cons_s, IH; [done|].
    intros a1 a2 -> Ha2. by apply (Hfree (String c a1) a2).
Qed.

Lemma partition_none (sep s : string) :
  partition sep s = None <-> contains sep s = false.
Proof.
  induction s as [|c s IH]; rewrite partition_unfold; simpl.
  - destruct (startswith sep EmptyString); by split.
  - destruct (startswith sep (String c s)); simpl; [by split|].
    rewrite <- IH. destruct (partition sep s) as [[??]|]; by split.
Qed.

Lemma join_cons (sep x : string) (l : list string) :
  l <> [] -> join sep (x :: l) = x +:+ sep +:+ join sep l.
Proof. by destruct l. Qed.

Lemma split_nonempty (sep s : string) (n : nat) : split sep s n <> [].
Proof. destruct n; simpl; [done|]. by destruct (partition sep s) as [[??]|]. Qed.

(** Joining the fields of a split gives the text back. *)
Lemma join_split (sep s : string) (n : nat) : join sep (split sep s n) = s.
Proof.
  revert s. induction n as [|n IH]; intros s; simpl; [done|].
  destruct (partition sep s) as [[a b]|] eqn:E; [|done].
  rewrite join_cons by apply split_nonempty.
  by rewrite IH, (partition_sound _ _ _ _ E).
Qed.

(** With room for every separator, no field of a split holds the
    separator. *)
Lemma partition_before_free (sep s a b : string) :
  sep <> EmptyString -> partition sep s = Some (a, b) -> contains sep a = false.
Proof.
  intros Hsep. revert a b. induction s as [|c s IH]; intros a b; rewrite partition_unfold.
  - destruct (startswith sep EmptyString) eqn:E; [|done]. intros [= <- <-].
    destruct sep; [done|]. done.
  - destruct (startswith sep (String c s)) eqn:E.
    + intros [= <- <-]. destruct sep; [done|]. done.
    + destruct (partition sep s) as [[a' b']|] eqn:Ep; [|done].
      intros [= <- <-]. simpl. rewrite (IH a' b' eq_refl), orb_false_r.
      destruct (startswith sep (String c a')) eqn:E'; [|done].
      apply startswith_spec in E' as [r Hr].
      assert (startswith sep (String c s) = true); [|congruence].
      apply startswith_spec. exists (r +:+ sep +:+ b').
      rewrite (partition_sound _ _ _ _ Ep), <- app_cons_s, Hr.
      by rewrite !app_assoc_s.
Qed.

Lemma split_full_free (sep s : string) (n : nat) :
  sep <> EmptyString -> String.length s <= n ->
  Forall (fun f => contains sep f = false) (split sep s n).
Proof.
  intros Hsep. revert s. induction n as [|n IH]; intros s Hn; simpl.
  - destruct s; [|simpl in Hn; lia]. constructor; [|done].
    destruct sep; [done|]. done.
  - destruct (partition sep s) as [[a b]|] eqn:E.
    + constructor; [by eapply partition_before_free|].
      apply IH. apply partition_shorter in E. destruct sep; [done|]. simpl in E. lia.
    + constructor; [|done]. by apply partition_none.
Qed.

(** Stripping. *)
Lemma rstrip_by_all (cls : ascii -> bool) (w : string) :
  all_in cls w = true -> rstrip_by cls w = EmptyString.
Proof.
  induction w as [|c w IH]; simpl; [done|].
  intros [Hc Hw]%andb_true_iff. by rewrite IH, Hc.
Qed.

Lemma rstrip_by_app (cls : ascii -> bool) (s w : string) :
  all_in cls w = true -> rstrip_by cls (s +:+ w) = rstrip_by cls s.
Proof.
  intros Hw. induction s as [|c s IH].
  - by rewrite app_nil_l_s, rstrip_by_all.
  - rewrite app_cons_s. simpl. by rewrite IH.
Qed.

Lemma rstrip_by_id (cls : ascii -> bool) (s : string) :
  ends_outside cls s = true -> rstrip_by cls s = s.
Proof.
  induction s as [|c s IH]; [done|]. destruct s as [|d s].
  - simpl. by intros ->%negb_true_iff.
  - intros H. change (rstrip_by cls (String c (String d s)))
      with (match rstrip_by cls (String d s) with
            | EmptyString => if cls c then EmptyString else String c EmptyString
            | r => String c r
            end).
    by rewrite IH.
Qed.

Lemma ends_outside_app (cls : ascii -> bool) (a b : string) :
  ends_outside cls b = true -> ends_outside cls (a +:+ b) = true.
Proof.
  intros Hb. induction a as [|c a IH]; [done|]. rewrite app_cons_s.
  by destruct (a +:+ b).
Qed.

Lemma all_in_impl (cls cls' : ascii -> bool) (s : string) :
  (forall c, cls c = true -> cls' c = true) -> all_in cls s = true -> all_in cls' s = true.
Proof.
  intros Himpl. induction s as [|c s IH]; simpl; [done|].
  intros [Hc Hs]%andb_true_iff. by rewrite (Himpl _ Hc), IH.
Qed.

End SplitFacts.
(** ** Category classification *)

Section Category.
Import PyStr ECBPDFDownloader.

Lemma classify_report_iff (rs : list CategorySpec.rule) (title url : string) :
  Forall (fun r => CategorySpec.category r <> "Report") rs ->
  CategorySpec.classify rs title url = "Report" <->
  Forall (fun r => CategorySpec.matches r title url = false) rs.
Proof.
  induction 1 as [|r rs Hr _ IH]; simpl.
  - split; [by constructor|done].
  - destruct (CategorySpec.matches r title url) eqn:E.
    + split; [done|]. intros H. apply Forall_cons in H as [H _]. congruence.
    + rewrite IH. split; [by constructor|]. intros H. by apply Forall_cons in H as [_ H].
Qed.

Lemma rules_never_report :
  Forall (fun r => CategorySpec.category r <> "Report") CategorySpec.rules.
Proof. repeat constructor; discriminate. Qed.

Lemma determine_category_classify (title url : string) :
  determine_category title url = CategorySpec.classify CategorySpec.rules title url.
Proof.
  unfold determine_category, CategorySpec.classify, CategorySpec.rules,
    CategorySpec.matches. simpl.
  rewrite !orb_false_r.
  repeat match goal with
         | |- context [contains ?k ?s] => destruct (contains k s); simpl; try reflexivity
         end.
Qed.

(** C4. [determine_category] is the ordered rule list of the
    specification, rules 1 to 8, read on the lower-cased title and url
    with the first matching rule winning; it yields [Report] exactly
    when no rule matches; a url that holds [/mopo/], in any letter
    case, is a monetary policy statement whatever the title; and the
    letter case of title and url does not matter. *)
Theorem determine_category_rule_list (title url : string) :
  determine_category title url = CategorySpec.classify CategorySpec.rules title url
  /\ (determine_category title url = "Report" <->
      Forall (fun r => CategorySpec.matches r title url = false) CategorySpec.rules)
  /\ (forall a m b, url = a +:+ m +:+ b -> lower m = "/mopo/" ->
      determine_category title url = "Monetary policy statement")
  /\ (forall title' url', lower title' = lower title -> lower url' = lower url ->
      determine_category title' url' = determine_category title url).
Proof.
  split; [apply determine_category_classify|]. split; [|split].
  - rewrite determine_category_classify.
    apply classify_report_iff, rules_never_report.
  - intros a m b -> Hm. unfold determine_category.
    assert (contains "/mopo/" (lower (a +:+ m +:+ b)) = true) as ->.
    { apply contains_spec. exists (lower a), (lower b). by rewrite !lower_app, Hm. }
    by rewrite orb_true_r.
  - intros title' url' Ht Hu. unfold determine_category. by rewrite Ht, Hu.
Qed.

Lemma determine_category_rule_list_witness :
  determine_category "Quarterly note" "https://www.ecb.europa.eu/MoPo/decisions/x.html"
  = "Monetary policy statement".
Proof.
  destruct (determine_category_rule_list "Quarterly note"
              "https://www.ecb.europa.eu/MoPo/decisions/x.html") as (_ & _ & H & _).
  apply (H "https://www.ecb.europa.eu" "/MoPo/" "decisions/x.html"); reflexivity.
Defined.

End Category.
(** ** Duplicate removal and ranking *)

Section DedupRank.
Import ECBScraper RankSpec.

Section Sorting.
Context {A : Type} (key : A -> string).

Lemma leb_false_le (s t : string) : String.leb s t = false -> String.le t s.
Proof.
  intros H. destruct (String.leb_total s t) as [E|E]; [congruence|].
  unfold String.le. by rewrite E.
Qed.

Lemma sort_insert_perm (x : A) (l : list A) : sort_insert key x l ≡ₚ x :: l.
Proof.
  induction l as [|y l IH]; simpl; [done|].
  destruct (String.leb (key x) (key y)); [done|].
  rewrite IH. apply perm_swap.
Qed.

Lemma list_sort_perm (l : list A) : list_sort key l ≡ₚ l.
Proof.
  induction l as [|x l IH]; simpl; [done|].
  by rewrite sort_insert_perm, IH.
Qed.

Lemma sort_insert_sorted (x : A) (l : list A) :
  StronglySorted (key_le key) l -> StronglySorted (key_le key) (sort_insert key x l).
Proof.
  induction l as [|y l IH]; simpl; intros Hs.
  - repeat constructor.
  - apply StronglySorted_cons in Hs as [Hy Hl].
    destruct (String.leb (key x) (key y)) eqn:E.
    + apply StronglySorted_cons. split; [|by apply StronglySorted_cons].
      assert ((key_le key) x y) as Hxy by (unfold key_le, String.le; by rewrite E).
      constructor; [done|].
      eapply Forall_impl; [exact Hy|]. intros z Hz. unfold key_le in *. by etrans.
    + apply StronglySorted_cons. split; [|by apply IH].
      rewrite sort_insert_perm. constructor; [|done].
      by apply leb_false_le.
Qed.

Lemma list_sort_sorted (l : list A) : StronglySorted (key_le key) (list_sort key l).
Proof.
  induction l as [|x l IH]; simpl; [constructor|]. by apply sort_insert_sorted.
Qed.

(** An element never passes one with its own key, so the elements of
    each key keep their order. *)
Lemma sort_insert_stable (d : string) (x : A) (l : list A) :
  filter (fun a => key a = d) (sort_insert key x l)
  = filter (fun a => key a = d) (x :: l).
Proof.
  induction l as [|y l IH]; simpl; [done|].
  destruct (String.leb (key x) (key y)) eqn:E; [done|].
  rewrite (filter_cons _ y), IH, !(filter_cons _ x), !(filter_cons _ y).
  destruct (decide (key x = d)) as [Hx|Hx]; [|done].
  destruct (decide (key y = d)) as [Hy|Hy]; [|done].
  exfalso. assert (String.le (key x) (key y)) as H by (rewrite Hx, Hy; done).
  unfold String.le in H. by rewrite E in H.
Qed.

Lemma list_sort_stable (d : string) (l : list A) :
  filter (fun a => key a = d) (list_sort key l) = filter (fun a => key a = d) l.
Proof.
  induction l as [|x l IH]; simpl; [done|].
  by rewrite sort_insert_stable, !(filter_cons _ x), IH.
Qed.

Lemma strongly_sorted_reverse (R : A -> A -> Prop) (l : list A) :
  StronglySorted R l -> StronglySorted (flip R) (reverse l).
Proof.
  induction 1 as [|x l Hl IH Hx]; [constructor|].
  rewrite reverse_cons. apply StronglySorted_app. split_and!.
  - intros a b Ha Hb. apply list_elem_of_singleton in Hb as ->.
    rewrite elem_of_reverse in Ha. rewrite Forall_forall in Hx. unfold flip. by apply Hx.
  - done.
  - repeat constructor.
Qed.

Lemma list_sort_reverse_perm (l : list A) : list_sort_reverse key l ≡ₚ l.
Proof.
  unfold list_sort_reverse. by rewrite reverse_Permutation, list_sort_perm, reverse_Permutation.
Qed.

Lemma list_sort_reverse_sorted (l : list A) :
  StronglySorted (flip (key_le key)) (list_sort_reverse key l).
Proof. apply strongly_sorted_reverse, list_sort_sorted. Qed.

Lemma list_sort_reverse_stable (d : string) (l : list A) :
  filter (fun a => key a = d) (list_sort_reverse key l) = filter (fun a => key a = d) l.
Proof.
  unfold list_sort_reverse.
  by rewrite filter_reverse, list_sort_stable, filter_reverse, reverse_involutive.
Qed.
End Sorting.

(** Sorting the images of a list is sorting the list by the keys of
    the images. *)
Lemma sort_insert_fmap {A B} (f : B -> A) (key : A -> string) (x : B) (l : list B) :
  sort_insert key (f x) (f <$> l) = f <$> sort_insert (fun b => key (f b)) x l.
Proof.
  induction l as [|y l IH]; [done|]. cbn [sort_insert fmap list_fmap].
  destruct (String.leb (key (f x)) (key (f y))); [done|].
  cbn [fmap list_fmap]. f_equal. exact IH.
Qed.

Lemma list_sort_fmap {A B} (f : B -> A) (key : A -> string) (l : list B) :
  list_sort key (f <$> l) = f <$> list_sort (fun b => key (f b)) l.
Proof.
  induction l as [|x l IH]; [done|]. cbn [list_sort fmap list_fmap].
  fold (f <$> l). by rewrite IH, sort_insert_fmap.
Qed.

Lemma list_sort_reverse_fmap {A B} (f : B -> A) (key : A -> string) (l : list B) :
  list_sort_reverse key (f <$> l) = f <$> list_sort_reverse (fun b => key (f b)) l.
Proof.
  unfold list_sort_reverse. by rewrite <- fmap_reverse, list_sort_fmap, fmap_reverse.
Qed.

Lemma strongly_sorted_filter {A} (R : A -> A -> Prop) (P : A -> Prop)
    `{!forall x, Decision (P x)} (l : list A) :
  StronglySorted R l -> StronglySorted R (filter P l).
Proof.
  induction 1 as [|x l Hl IH Hx]; [constructor|].
  rewrite filter_cons. destruct (decide (P x)); [|done].
  constructor; [done|]. apply Forall_forall. intros y [_ Hy]%list_elem_of_filter.
  rewrite Forall_forall in Hx. by apply Hx.
Qed.

(** *** Places

    The records of a list are told apart by their places, also when a
    record stands in the list twice. *)

(** A list sorted by date, latest first, in which the records of each
    date stand in the order of their places, is ranked. *)
Lemma ranked_sorted (l : list (nat * publication)) :
  StronglySorted (flip (key_le (fun a : nat * publication => date a.2))) l ->
  (forall d, StronglySorted (fun a b : nat * publication => a.1 < b.1)
               (filter (fun a : nat * publication => date a.2 = d) l)) ->
  StronglySorted ranked_before l.
Proof.
  induction l as [|a l IH]; intros Hs Hd; [constructor|].
  apply StronglySorted_cons in Hs as [Ha Hl]. constructor.
  - apply IH; [done|]. intros d. specialize (Hd d). rewrite filter_cons in Hd.
    destruct (decide (date a.2 = d)); [|done]. by apply StronglySorted_cons in Hd as [_ ?].
  - apply Forall_forall. intros b Hb. split.
    + rewrite Forall_forall in Ha. exact (Ha b Hb).
    + intros Heq. specialize (Hd (date a.2)). rewrite filter_cons, decide_True in Hd by done.
      apply StronglySorted_cons in Hd as [Hd _]. rewrite Forall_forall in Hd.
      apply Hd. apply list_elem_of_filter. by split.
Qed.

(** The duplicate filter, by places: the loop adds the records that
    stand at the places of [publications] whose url is not yet seen and
    is the url of no earlier place, in the order of the places. *)
Lemma unique_loop_places (publications unique_pubs : list publication)
    (seen_urls : gset string) :
  exists kept : list (nat * publication),
    unique_loop publications unique_pubs seen_urls = unique_pubs ++ kept.*2
    /\ StronglySorted (fun a b : nat * publication => a.1 < b.1) kept
    /\ forall i p,
         (i, p) ∈ kept <->
         publications !! i = Some p /\ (url p ∉ seen_urls)
         /\ forall j q, j < i -> publications !! j = Some q -> url q <> url p.
Proof.
  revert unique_pubs seen_urls.
  induction publications as [|pub pubs IH]; intros acc seen.
  - exists []. split_and!; [by rewrite app_nil_r|constructor|].
    intros i p. split; [by intros ?%elem_of_nil|]. by intros [? _].
  - simpl. destruct (decide (url pub ∈ seen)) as [Hin|Hin].
    + destruct (IH acc seen) as (kept & -> & Hs & Hmem).
      exists ((fun a : nat * publication => (S a.1, a.2)) <$> kept). split_and!.
      * f_equal. rewrite <- list_fmap_compose. by apply list_fmap_ext.
      * clear Hmem. induction Hs as [|a l Hl IHl Ha]; [constructor|].
        rewrite fmap_cons. constructor; [done|].
        rewrite Forall_fmap. eapply Forall_impl; [exact Ha|].
        intros b Hb. simpl in *. lia.
      * intros i p. rewrite list_elem_of_fmap. split.
        { intros ([i' p'] & [= -> ->] & H). apply Hmem in H as (Hi & Hp & Hfirst).
          split_and!; [done|done|].
          intros [|j] q Hj Hq; simplify_eq/=; [congruence|].
          apply (Hfirst j); [lia|done]. }
        { intros (Hi & Hp & Hfirst). destruct i as [|i]; simplify_eq/=; [done|].
          exists (i, p). split; [done|]. apply Hmem. split_and!; [done|done|].
          intros j q Hj Hq. apply (Hfirst (S j)); [lia|done]. }
    + destruct (IH (acc ++ [pub]) (seen ∪ {[url pub]})) as (kept & -> & Hs & Hmem).
      exists ((0, pub) :: ((fun a : nat * publication => (S a.1, a.2)) <$> kept)). split_and!.
      * rewrite <- app_assoc. simpl. do 2 f_equal.
        rewrite <- list_fmap_compose. by apply list_fmap_ext.
      * constructor.
        { clear Hmem. induction Hs as [|a l Hl IHl Ha]; [constructor|].
          rewrite fmap_cons. constructor; [done|].
          rewrite Forall_fmap. eapply Forall_impl; [exact Ha|].
          intros b Hb. simpl in *. lia. }
        { rewrite Forall_fmap. apply Forall_forall. intros b _. simpl. lia. }
      * intros i p. rewrite elem_of_cons, list_elem_of_fmap. split.
        { intros [[= -> ->]|([i' p'] & [= -> ->] & H)].
          - split_and!; [done|done|]. intros j q Hj. lia.
          - apply Hmem in H as (Hi & Hp & Hfirst).
            rewrite not_elem_of_union, not_elem_of_singleton in Hp.
            destruct Hp as [Hp Hne]. split_and!; [done|done|].
            intros [|j] q Hj Hq; simplify_eq/=; [congruence|].
            apply (Hfirst j); [lia|done]. }
        { intros (Hi & Hp & Hfirst). destruct i as [|i]; simplify_eq/=; [by left|right].
          exists (i, p). split; [done|]. apply Hmem. split_and!; [done| |].
          - rewrite not_elem_of_union, not_elem_of_singleton. split; [done|].
            intros Heq. apply (Hfirst 0 pub); [lia|done|done].
          - intros j q Hj Hq. apply (Hfirst (S j)); [lia|done]. }
Qed.

Lemma unique_loop_spec (publications unique_pubs : list publication)
    (seen_urls : gset string) :
  (forall u, u ∈ seen_urls <-> u ∈ url <$> unique_pubs) ->
  NoDup (url <$> unique_pubs) ->
  exists kept,
    unique_loop publications unique_pubs seen_urls = unique_pubs ++ kept
    /\ kept `sublist_of` publications
    /\ NoDup (url <$> (unique_pubs ++ kept))
    /\ (forall p, p ∈ kept <-> first_of publications p /\ url p ∉ url <$> unique_pubs).
Proof.
  revert unique_pubs seen_urls.
  induction publications as [|pub pubs IH]; intros acc seen Hseen Hnd; simpl.
  - exists []. rewrite app_nil_r. split_and!; [done|done|done|].
    intros p. split; [by intros ?%elem_of_nil|].
    intros [(l1 & l2 & H & _) _]. by destruct l1.
  - destruct (decide (url pub ∈ seen)) as [Hin|Hin].
    + destruct (IH acc seen Hseen Hnd) as (kept & -> & Hsub & Hnd' & Hkept).
      exists kept. split_and!; [done|by apply sublist_cons|done|].
      intros p. rewrite Hkept. split.
      * intros [(l1 & l2 & -> & Hl1) Hacc]. split; [|done].
        exists (pub :: l1), l2. split; [done|].
        rewrite fmap_cons, not_elem_of_cons. split; [|done].
        intros Heq. apply Hacc. rewrite Heq. by apply Hseen.
      * intros [(l1 & l2 & Heq & Hl1) Hacc]. split; [|done].
        destruct l1 as [|q l1]; simplify_eq/=.
        { exfalso. apply Hacc. by apply Hseen. }
        exists l1, l2. split; [done|]. by apply not_elem_of_cons in Hl1 as [_ ?].
    + assert (url pub ∉ url <$> acc) as Hfresh by (by rewrite <- Hseen).
      destruct (IH (acc ++ [pub]) (seen ∪ {[url pub]})) as (kept & -> & Hsub & Hnd' & Hkept).
      { intros u. rewrite fmap_app, elem_of_app, elem_of_union, elem_of_singleton, Hseen.
        simpl. by rewrite list_elem_of_singleton. }
      { rewrite fmap_app. apply NoDup_app. split_and!; [done| |apply NoDup_singleton].
        simpl. intros u Hu ->%list_elem_of_singleton. done. }
      exists (pub :: kept). rewrite <- app_assoc in *. simpl in *.
      split_and!; [done|by apply sublist_skip|done|].
      intros p. rewrite elem_of_cons, Hkept. split.
      * intros [->|[(l1 & l2 & -> & Hl1) Hacc]].
        { split; [|done]. exists [], pubs. split; [done|]. apply not_elem_of_nil. }
        rewrite fmap_app, elem_of_app in Hacc. simpl in Hacc.
        rewrite list_elem_of_singleton in Hacc.
        split; [|tauto]. exists (pub :: l1), l2. split; [done|].
        rewrite fmap_cons, not_elem_of_cons. tauto.
      * intros [(l1 & l2 & Heq & Hl1) Hacc].
        destruct l1 as [|q l1]; simplify_eq/=; [by left|right].
        apply not_elem_of_cons in Hl1 as [Hne Hl1].
        split; [by exists l1, l2|].
        rewrite fmap_app, elem_of_app. simpl. rewrite list_elem_of_singleton. tauto.
Qed.

(** C2. The duplicate filter of [run] keeps, in extraction order, the
    records that are the first of their url, and nothing else; the sort
    that follows only reorders them, by date from the most recent to
    the oldest, and leaves the records of one date in their extraction
    order.  By places, which tell apart the records of a link that is
    extracted twice: the filter keeps the records at the places whose
    url stands at no earlier place, in the order of the places, and in
    the ranked list a record stands before the records of an earlier
    date and before the records of its own date that were kept from
    later places. *)
Theorem dedup_and_rank_first_then_stable (publications : list publication) :
  let unique_pubs := unique_loop publications [] ∅ in
  let ranked := dedup_and_rank publications in
  unique_pubs `sublist_of` publications
  /\ NoDup (url <$> unique_pubs)
  /\ (forall p, p ∈ unique_pubs <-> first_of publications p)
  /\ ranked ≡ₚ unique_pubs
  /\ StronglySorted (fun a b => String.le (date b) (date a)) ranked
  /\ (forall d, filter (fun p => date p = d) ranked
                = filter (fun p => date p = d) unique_pubs)
  /\ exists kept ranked_at : list (nat * publication),
       unique_pubs = kept.*2
       /\ StronglySorted (fun a b : nat * publication => a.1 < b.1) kept
       /\ (forall i p, (i, p) ∈ kept <-> first_at publications i p)
       /\ ranked = ranked_at.*2
       /\ ranked_at ≡ₚ kept
       /\ StronglySorted ranked_before ranked_at.
Proof.
  intros unique_pubs ranked. subst unique_pubs ranked. unfold dedup_and_rank.
  destruct (unique_loop_places publications [] ∅) as (places & Hplaces & Hsorted & Hmem).
  destruct (unique_loop_spec publications [] ∅) as (kept & Hk & Hsub & Hnd & Hkept).
  { intros u. rewrite elem_of_empty. simpl. by rewrite elem_of_nil. }
  { constructor. }
  rewrite Hk in Hplaces |- *. simpl in *. split_and!; [done|done| | | | |].
  - intros p. rewrite Hkept. simpl. rewrite elem_of_nil. tauto.
  - apply list_sort_reverse_perm.
  - apply list_sort_reverse_sorted.
  - intros d. apply list_sort_reverse_stable.
  - exists places, (list_sort_reverse (fun a : nat * publication => date a.2) places).
    split_and!.
    + exact Hplaces.
    + exact Hsorted.
    + intros i p. rewrite Hmem. unfold first_at. split.
      * intros (? & _ & ?). by split.
      * intros [? ?]. split_and!; [done|apply not_elem_of_empty|done].
    + rewrite Hplaces. apply (list_sort_reverse_fmap snd date).
    + apply list_sort_reverse_perm.
    + apply ranked_sorted; [apply list_sort_reverse_sorted|].
      intros d. rewrite list_sort_reverse_stable. by apply strongly_sorted_filter.
Qed.

(** The lists of the theorem are the only ones of their kind: two
    lists of places in rising order with the same members are one list,
    and so are two ranked lists with the same members. *)
Lemma places_unique (l1 l2 : list (nat * publication)) :
  StronglySorted (fun a b : nat * publication => a.1 < b.1) l1 ->
  StronglySorted (fun a b : nat * publication => a.1 < b.1) l2 ->
  l1 ≡ₚ l2 -> l1 = l2.
Proof.
  apply StronglySorted_unique_strong. intros a b _ _ Hab Hba. lia.
Qed.

Lemma ranked_unique (l1 l2 : list (nat * publication)) :
  StronglySorted ranked_before l1 -> StronglySorted ranked_before l2 ->
  l1 ≡ₚ l2 -> l1 = l2.
Proof.
  apply StronglySorted_unique_strong. intros a b _ _ [Hab Hab'] [Hba Hba'].
  assert (date a.2 = date b.2) as Heq by (by apply (anti_symm String.le)).
  specialize (Hab' Heq). specialize (Hba' (eq_sym Heq)). lia.
Qed.

(** A link extracted twice: the record kept is the one of the first
    place, and it stays ahead of the record of its date that was
    extracted after it. *)
Example dedup_repeated_link :
  let p := Publication "2024-03-15" "a" "A" "x" in
  let q := Publication "2024-03-15" "b" "B" "x" in
  dedup_and_rank [p; q; p] = [p; q].
Proof. vm_compute. reflexivity. Qed.

(** The two examples of the specification. *)
Example dedup_urls_A_B_A_C :
  url <$> dedup_and_rank
    [ Publication "2024-01-01" "a" "A" "x"; Publication "2024-01-01" "b" "B" "x";
      Publication "2024-01-01" "c" "A" "x"; Publication "2024-01-01" "d" "C" "x" ]
  = ["A"; "B"; "C"].
Proof. vm_compute. reflexivity. Qed.

Example rank_three_dates :
  date <$> dedup_and_rank
    [ Publication "2024-01-01" "a" "A" "x"; Publication "2024-03-01" "b" "B" "x";
      Publication "2024-02-01" "c" "C" "x" ]
  = ["2024-03-01"; "2024-02-01"; "2024-01-01"].
Proof. vm_compute. reflexivity. Qed.

End DedupRank.
(** ** Date parsing *)

Section Dates.
Import PyStr ReSpec DateSpec ECBScraper.

Lemma space_not_digit (c : ascii) : is_space c = true -> is_digit c = false.
Proof. by destruct c as [[] [] [] [] [] [] [] []]. Qed.

Lemma space_not_word (c : ascii) : is_space c = true -> is_word c = false.
Proof. by destruct c as [[] [] [] [] [] [] [] []]. Qed.

Lemma word_not_space (c : ascii) : is_word c = true -> is_space c = false.
Proof. by destruct c as [[] [] [] [] [] [] [] []]. Qed.

Lemma digit_not_space (c : ascii) : is_digit c = true -> is_space c = false.
Proof. by destruct c as [[] [] [] [] [] [] [] []]. Qed.

(** [cls'] holds of no character a text of class [cls] starts with. *)
Lemma stops_before (cls cls' : ascii -> bool) (hi : option nat) (p w rest : string) :
  (forall c, cls c = true -> cls' c = false) ->
  all_in cls w = true -> 1 <= String.length w ->
  stops cls' hi p (w +:+ rest).
Proof.
  intros Hdisj Hw Hlen. destruct (all_in_head _ _ Hw Hlen) as (c & w' & -> & Hc).
  right. rewrite app_cons_s. by apply Hdisj.
Qed.

Lemma day_month_year_here (d w1 m w2 y rest : string) :
  all_in is_digit d = true -> 1 <= String.length d <= 2 ->
  all_in is_space w1 = true -> 1 <= String.length w1 ->
  all_in is_word m = true -> 1 <= String.length m ->
  all_in is_space w2 = true -> 1 <= String.length w2 ->
  all_in is_digit y = true -> String.length y = 4 ->
  Re.match_here day_month_year (d +:+ w1 +:+ m +:+ w2 +:+ y +:+ rest)
  = Some ([d; w1; m; w2; y], rest).
Proof.
  intros Hd Hdl Hw1 Hw1l Hm Hml Hw2 Hw2l Hy Hyl. unfold day_month_year.
  apply match_here_rep; [done|lia|simpl; lia| |].
  { by apply (stops_before is_space); [apply space_not_digit|..]. }
  apply match_here_rep; [done|lia|done| |].
  { by apply (stops_before is_word); [apply word_not_space|..]. }
  apply match_here_rep; [done|lia|done| |].
  { by apply (stops_before is_space); [apply space_not_word|..]. }
  apply match_here_rep; [done|lia|done| |].
  { apply (stops_before is_digit); [apply digit_not_space|done|lia]. }
  apply match_here_rep; [done|lia|simpl; lia| |done].
  left. by rewrite Hyl.
Qed.

Lemma day_month_year_matched (ps : list string) (rest : string) :
  matched_by day_month_year ps rest ->
  exists d w1 m w2 y,
    ps = [d; w1; m; w2; y]
    /\ all_in is_digit d = true /\ 1 <= String.length d <= 2
    /\ all_in is_space w1 = true /\ 1 <= String.length w1
    /\ all_in is_word m = true /\ 1 <= String.length m
    /\ all_in is_space w2 = true /\ 1 <= String.length w2
    /\ all_in is_digit y = true /\ String.length y = 4.
Proof.
  unfold day_month_year, Re.plus, Re.exactly. intros H.
  matched_rep H d Hd Hd1 Hd2 H1. matched_rep H1 w1 Hw1 Hw1l Hw1h H2.
  matched_rep H2 m Hm Hml Hmh H3. matched_rep H3 w2 Hw2 Hw2l Hw2h H4.
  matched_rep H4 y Hy Hy1 Hy2 H5.
  inversion H5; subst. simpl in *.
  exists d, w1, m, w2, y. split_and!; try done; lia.
Qed.

Lemma one_char (c : ascii) (p : string) :
  all_in (Ascii.eqb c) p = true -> String.length p = 1 -> p = String c EmptyString.
Proof.
  destruct p as [|x [|??]]; simpl; try done.
  rewrite andb_true_r. by intros ->%Ascii.eqb_eq.
Qed.

Lemma iso_date_here (y m d rest : string) :
  all_in is_digit y = true -> String.length y = 4 ->
  all_in is_digit m = true -> String.length m = 2 ->
  all_in is_digit d = true -> String.length d = 2 ->
  Re.match_here iso_date (y +:+ "-" +:+ m +:+ "-" +:+ d +:+ rest)
  = Some ([y; "-"; m; "-"; d], rest).
Proof.
  intros Hy Hyl Hm Hml Hd Hdl. unfold iso_date, Re.exactly, Re.lit.
  apply match_here_rep; [done|lia|simpl; lia|left; by rewrite Hyl|].
  apply (match_here_rep _ _ _ _ "-"); [done|simpl; lia|simpl; lia|by left|].
  apply match_here_rep; [done|lia|simpl; lia|left; by rewrite Hml|].
  apply (match_here_rep _ _ _ _ "-"); [done|simpl; lia|simpl; lia|by left|].
  apply match_here_rep; [done|lia|simpl; lia|left; by rewrite Hdl|done].
Qed.

Lemma iso_date_matched (ps : list string) (rest : string) :
  matched_by iso_date ps rest ->
  exists y m d,
    ps = [y; "-"; m; "-"; d]
    /\ all_in is_digit y = true /\ String.length y = 4
    /\ all_in is_digit m = true /\ String.length m = 2
    /\ all_in is_digit d = true /\ String.length d = 2.
Proof.
  unfold iso_date, Re.lit, Re.exactly. intros H.
  matched_rep H y Hy Hy1 Hy2 H1. matched_rep H1 s1 Hs1 Hs11 Hs12 H2.
  matched_rep H2 m Hm Hm1 Hm2 H3. matched_rep H3 s2 Hs2 Hs21 Hs22 H4.
  matched_rep H4 d Hd Hd1 Hd2 H5.
  inversion H5; subst. simpl in *.
  rewrite (one_char "-" s1), (one_char "-" s2) by (done || lia).
  exists y, m, d. split_and!; try done; lia.
Qed.

(** The search with the first pattern. *)
Lemma search_day_month_year_sound (t : string) (mt : Re.matched) :
  Re.search day_month_year t = Some mt ->
  exists d w1 m w2 y,
    Re.pieces mt = [d; w1; m; w2; y] /\ day_month_year_at t (Re.before mt) d m y.
Proof.
  intros [Ht Hm]%search_sound.
  destruct (day_month_year_matched _ _ Hm) as (d & w1 & m & w2 & y & Hps & Hshape).
  exists d, w1, m, w2, y. split; [done|].
  exists w1, w2, (Re.after mt). split; [|done].
  rewrite Ht, Hps. simpl. by rewrite app_nil_r_s, !app_assoc_s.
Qed.

Lemma search_day_month_year_leftmost (t pre d m y : string) :
  day_month_year_at t pre d m y -> no_earlier_day_month_year t pre ->
  exists w1 w2 rest,
    Re.search day_month_year t = Some (Re.Matched pre [d; w1; m; w2; y] rest).
Proof.
  intros (w1 & w2 & rest & -> & Hshape) Hleft. exists w1, w2, rest.
  apply search_after.
  - intros a b -> Hb.
    destruct (Re.match_here _ _) as [[ps rest']|] eqn:E; [exfalso|done].
    apply match_here_sound in E as [Ht Hm].
    destruct (day_month_year_matched _ _ Hm) as (d' & w1' & m' & w2' & y' & -> & Hshape').
    assert (day_month_year_at
              ((a +:+ b) +:+ d +:+ w1 +:+ m +:+ w2 +:+ y +:+ rest) a d' m' y') as Hat.
    { exists w1', w2', rest'. split; [|done].
      rewrite app_assoc_s, Ht. simpl. by rewrite app_nil_r_s, !app_assoc_s. }
    apply Hleft in Hat. rewrite length_app_s in Hat.
    destruct b; [done|]. simpl in Hat. lia.
  - by apply day_month_year_here; intuition.
Qed.

Lemma search_day_month_year_none (t : string) :
  (forall pre d m y, ~ day_month_year_at t pre d m y) ->
  Re.search day_month_year t = None.
Proof.
  intros Hno. destruct (Re.search day_month_year t) as [mt|] eqn:E; [|done].
  destruct (search_day_month_year_sound _ _ E) as (d & w1 & m & w2 & y & _ & Hat).
  by destruct (Hno _ _ _ _ Hat).
Qed.

(** The search with the second pattern. *)
Lemma search_iso_sound (t : string) (mt : Re.matched) :
  Re.search iso_date t = Some mt -> iso_at t (Re.before mt) (Re.group0 mt).
Proof.
  intros [Ht Hm]%search_sound.
  destruct (iso_date_matched _ _ Hm) as (y & m & d & Hps & Hshape).
  exists y, m, d, (Re.after mt). unfold Re.group0. rewrite Hps in *. simpl in *.
  rewrite app_nil_r_s. split; [|done]. by rewrite Ht, app_nil_r_s.
Qed.

Lemma search_iso_leftmost (t pre iso : string) :
  iso_at t pre iso -> no_earlier_iso t pre ->
  exists mt, Re.search iso_date t = Some mt /\ Re.group0 mt = iso.
Proof.
  intros (y & m & d & rest & -> & -> & Hshape) Hleft.
  exists (Re.Matched pre [y; "-"; m; "-"; d] rest). split.
  - rewrite !app_assoc_s. apply search_after.
    + intros a b -> Hb.
      destruct (Re.match_here _ _) as [[ps rest']|] eqn:E; [exfalso|done].
      apply match_here_sound in E as [Ht Hm].
      destruct (iso_date_matched _ _ Hm) as (y' & m' & d' & -> & Hshape').
      assert (iso_at ((a +:+ b) +:+ (y +:+ "-" +:+ m +:+ "-" +:+ d) +:+ rest) a
                (y' +:+ "-" +:+ m' +:+ "-" +:+ d')) as Hat.
      { exists y', m', d', rest'. split; [|done].
        rewrite !app_assoc_s, Ht. simpl.
        by rewrite app_nil_r_s, !app_assoc_s. }
      apply Hleft in Hat. rewrite length_app_s in Hat.
      destruct b; [done|]. simpl in Hat. lia.
    + by apply iso_date_here; intuition.
  - unfold Re.group0. simpl. by rewrite app_nil_r_s.
Qed.

Lemma search_iso_none (t : string) :
  (forall pre iso, ~ iso_at t pre iso) -> Re.search iso_date t = None.
Proof.
  intros Hno. destruct (Re.search iso_date t) as [mt|] eqn:E; [|done].
  by destruct (Hno _ _ (search_iso_sound _ _ E)).
Qed.

(** What the two searches return tells which case a text is in. *)
Lemma search_day_month_year_cases (t : string) :
  match Re.search day_month_year t with
  | Some mt =>
      exists d w1 m w2 y,
        Re.pieces mt = [d; w1; m; w2; y]
        /\ day_month_year_at t (Re.before mt) d m y
        /\ no_earlier_day_month_year t (Re.before mt)
  | None => forall pre d m y, ~ day_month_year_at t pre d m y
  end.
Proof.
  assert (forall pre d m y, day_month_year_at t pre d m y ->
            exists mt, Re.search day_month_year t = Some mt
                       /\ String.length (Re.before mt) <= String.length pre) as Hfound.
  { intros pre d m y (w1 & w2 & rest & -> & Hshape).
    eapply search_complete. by apply day_month_year_here; intuition. }
  destruct (Re.search day_month_year t) as [mt|] eqn:E.
  - destruct (search_day_month_year_sound _ _ E) as (d & w1 & m & w2 & y & Hps & Hat).
    exists d, w1, m, w2, y. split_and!; [done|done|].
    intros pre' d' m' y' Hat'. destruct (Hfound _ _ _ _ Hat') as (mt' & [= <-] & Hle). done.
  - intros pre d m y Hat. by destruct (Hfound _ _ _ _ Hat) as (mt' & [=] & _).
Qed.

Lemma search_iso_cases (t : string) :
  match Re.search iso_date t with
  | Some mt => iso_at t (Re.before mt) (Re.group0 mt) /\ no_earlier_iso t (Re.before mt)
  | None => forall pre iso, ~ iso_at t pre iso
  end.
Proof.
  assert (forall pre iso, iso_at t pre iso ->
            exists mt, Re.search iso_date t = Some mt
                       /\ String.length (Re.before mt) <= String.length pre) as Hfound.
  { intros pre iso (y & m & d & rest & -> & -> & Hshape). rewrite !app_assoc_s.
    eapply search_complete. by apply iso_date_here; intuition. }
  destruct (Re.search iso_date t) as [mt|] eqn:E.
  - split; [by apply search_iso_sound|].
    intros pre' iso' Hat'. by destruct (Hfound _ _ Hat') as (mt' & [= <-] & Hle).
  - intros pre iso Hat. by destruct (Hfound _ _ Hat) as (mt' & [=] & _).
Qed.

(** The month table. *)
Lemma month_names_values (m month_num : string) :
  month_names !! m = Some month_num ->
  truthy month_num = true
  /\ all_in is_digit month_num = true /\ String.length month_num = 2.
Proof.
  unfold month_names. intros H%elem_of_list_to_map_2.
  repeat (apply elem_of_cons in H as [[= -> ->]|H]; [by vm_compute|]).
  by apply elem_of_nil in H.
Qed.

Lemma strip_by_nil (cls : ascii -> bool) : strip_by cls EmptyString = EmptyString.
Proof. done. Qed.

Lemma day_month_year_at_truthy (s pre d m y : string) :
  day_month_year_at (strip s) pre d m y -> truthy s = true.
Proof.
  destruct s; [|done]. intros (w1 & w2 & rest & Ht & _ & Hd & _).
  apply (f_equal String.length) in Ht. rewrite !length_app_s in Ht. simpl in Ht. lia.
Qed.

Lemma iso_at_truthy (s pre iso : string) : iso_at (strip s) pre iso -> truthy s = true.
Proof.
  destruct s; [|done]. intros (y & m & d & rest & Ht & -> & _ & Hy & _).
  apply (f_equal String.length) in Ht. rewrite !length_app_s in Ht. simpl in Ht. lia.
Qed.

(** When the first pattern gives no date, the second decides. *)
Lemma parse_date_second (date_text : string) :
  truthy date_text = true -> no_month_date (strip date_text) ->
  parse_date date_text
  = match Re.search iso_date (strip date_text) with
    | Some mt => Some (Re.group0 mt)
    | None => None
    end.
Proof.
  intros Htruthy Hno. unfold parse_date. rewrite Htruthy. simpl.
  destruct Hno as [Hno|(pre & d & m & y & Hat & Hleft & Hmonth)].
  - by rewrite search_day_month_year_none.
  - destruct (search_day_month_year_leftmost _ _ _ _ _ Hat Hleft) as (w1 & w2 & rest & ->).
    unfold Re.piece. simpl. by rewrite Hmonth.
Qed.

Lemma zfill2_day (d : string) :
  all_in is_digit d = true -> 1 <= String.length d <= 2 ->
  all_in is_digit (zfill2 d) = true /\ String.length (zfill2 d) = 2.
Proof.
  intros Hd Hl. unfold zfill2. destruct d as [|a [|b [|c d]]]; simpl in *; try lia; by split.
Qed.

Lemma iso_form_intro (y m d : string) :
  all_in is_digit y = true -> String.length y = 4 ->
  all_in is_digit m = true -> String.length m = 2 ->
  all_in is_digit d = true -> String.length d = 2 ->
  iso_form (y +:+ "-" +:+ m +:+ "-" +:+ d).
Proof.
  intros. exists y, m, d, EmptyString. by rewrite app_nil_r_s.
Qed.

(** Every date returned has the form YYYY-MM-DD. *)
Lemma parse_date_iso_form (date_text r : string) :
  parse_date date_text = Some r -> iso_form r.
Proof.
  unfold parse_date. destruct (truthy date_text); simpl; [|done].
  assert (match Re.search iso_date (strip date_text) with
          | Some mt => Some (Re.group0 mt)
          | None => None
          end = Some r -> iso_form r) as Hsecond.
  { destruct (Re.search iso_date (strip date_text)) as [mt|] eqn:E; [|done].
    intros [= <-]. apply search_iso_sound in E.
    destruct E as (y & m & d & rest & _ & -> & Hshape).
    apply iso_form_intro; intuition. }
  destruct (Re.search day_month_year (strip date_text)) as [mt|] eqn:E; [|done].
  destruct (search_day_month_year_sound _ _ E)
    as (d & w1 & m & w2 & y & Hps & (w1' & w2' & rest & _ & Hshape)).
  unfold Re.piece. rewrite Hps. simpl.
  destruct (month_names !! m) as [month_num|] eqn:Hmonth; [|done].
  destruct (month_names_values _ _ Hmonth) as (-> & Hmd & Hml).
  intros [= <-]. destruct (zfill2_day d) as [Hzd Hzl]; [intuition..|].
  apply iso_form_intro; intuition.
Qed.

(** C3, as the code has it.  [parse_date] never fails, and on the
    stripped text it returns: (1) for the leftmost form of a day of one or
    two digits, a word and a year of four digits, when the word is one of
    the twelve month names, the date YYYY-MM-DD with the day padded to two
    digits; (2) otherwise, when the text holds a form YYYY-MM-DD, the
    leftmost such form as it stands; (3) otherwise nothing.  Every text is
    in one of the three cases, and every date returned has the form
    YYYY-MM-DD. *)
Theorem parse_date_forms (date_text : string) :
  (forall pre d m y month_num,
     day_month_year_at (strip date_text) pre d m y ->
     no_earlier_day_month_year (strip date_text) pre ->
     month_names !! m = Some month_num ->
     parse_date date_text = Some (y +:+ "-" +:+ month_num +:+ "-" +:+ zfill2 d))
  /\ (forall pre iso,
        no_month_date (strip date_text) ->
        iso_at (strip date_text) pre iso -> no_earlier_iso (strip date_text) pre ->
        parse_date date_text = Some iso)
  /\ (no_month_date (strip date_text) ->
      (forall pre iso, ~ iso_at (strip date_text) pre iso) ->
      parse_date date_text = None)
  /\ ((exists pre d m y month_num,
         day_month_year_at (strip date_text) pre d m y
         /\ no_earlier_day_month_year (strip date_text) pre
         /\ month_names !! m = Some month_num)
      \/ (no_month_date (strip date_text)
          /\ ((exists pre iso,
                 iso_at (strip date_text) pre iso /\ no_earlier_iso (strip date_text) pre)
              \/ (forall pre iso, ~ iso_at (strip date_text) pre iso))))
  /\ (forall r, parse_date date_text = Some r -> iso_form r).
Proof.
  split_and!.
  - intros pre d m y month_num Hat Hleft Hmonth.
    unfold parse_date. rewrite (day_month_year_at_truthy _ _ _ _ _ Hat). simpl.
    destruct (search_day_month_year_leftmost _ _ _ _ _ Hat Hleft) as (w1 & w2 & rest & ->).
    unfold Re.piece. simpl. rewrite Hmonth.
    by destruct (month_names_values _ _ Hmonth) as (-> & _).
  - intros pre iso Hno Hat Hleft.
    rewrite parse_date_second by (done || by eapply iso_at_truthy).
    by destruct (search_iso_leftmost _ _ _ Hat Hleft) as (mt & -> & ->).
  - intros Hno Hnone. destruct (truthy date_text) eqn:Htruthy.
    + rewrite parse_date_second by done. by rewrite search_iso_none.
    + unfold parse_date. by rewrite Htruthy.
  - assert ((exists pre iso,
               iso_at (strip date_text) pre iso /\ no_earlier_iso (strip date_text) pre)
            \/ (forall pre iso, ~ iso_at (strip date_text) pre iso)) as Hiso.
    { pose proof (search_iso_cases (strip date_text)) as H.
      destruct (Re.search iso_date (strip date_text)) as [mt|]; [left|by right].
      by exists (Re.before mt), (Re.group0 mt). }
    pose proof (search_day_month_year_cases (strip date_text)) as H.
    destruct (Re.search day_month_year (strip date_text)) as [mt|].
    + destruct H as (d & w1 & m & w2 & y & _ & Hat & Hleft).
      destruct (month_names !! m) as [month_num|] eqn:Hmonth.
      * left. by exists (Re.before mt), d, m, y, month_num.
      * right. split; [|done]. right. by exists (Re.before mt), d, m, y.
    + right. split; [by left|done].
  - intros r. unfold parse_date. destruct (truthy date_text); simpl; [|done].
    assert (match Re.search iso_date (strip date_text) with
            | Some mt => Some (Re.group0 mt)
            | None => None
            end = Some r -> iso_form r) as Hsecond.
    { destruct (Re.search iso_date (strip date_text)) as [mt|] eqn:E; [|done].
      intros [= <-]. apply search_iso_sound in E.
      destruct E as (y & m & d & rest & _ & -> & Hshape).
      apply iso_form_intro; intuition. }
    destruct (Re.search day_month_year (strip date_text)) as [mt|] eqn:E; [|done].
    destruct (search_day_month_year_sound _ _ E)
      as (d & w1 & m & w2 & y & Hps & (w1' & w2' & rest & _ & Hshape)).
    unfold Re.piece. rewrite Hps. simpl.
    destruct (month_names !! m) as [month_num|] eqn:Hmonth; [|done].
    destruct (month_names_values _ _ Hmonth) as (-> & Hmd & Hml).
    intros [= <-]. destruct (zfill2_day d) as [Hzd Hzl]; [intuition..|].
    apply iso_form_intro; intuition.
Qed.

(** The three examples of the specification. *)
Example parse_date_day_month_year : parse_date "15 March 2024" = Some "2024-03-15".
Proof. vm_compute. reflexivity. Qed.

Example parse_date_iso : parse_date "2024-03-15" = Some "2024-03-15".
Proof. vm_compute. reflexivity. Qed.

Example parse_date_not_a_date : parse_date "not a date" = None.
Proof. vm_compute. reflexivity. Qed.

(** White space and words beyond ASCII: the no-break space separates
    and is stripped like a blank, and a word with the letter U+00E4 is a
    word, here the word of the leftmost form. *)
Example parse_date_no_break_space :
  parse_date (Samples.nbsp +:+ "15" +:+ Samples.nbsp +:+ "March" +:+ Samples.nbsp +:+ "2024")
  = Some "2024-03-15".
Proof. vm_compute. reflexivity. Qed.

Example parse_date_umlaut_word :
  parse_date ("1 M" +:+ Samples.a_umlaut +:+ "r 2024 15 March 2024") = None.
Proof. vm_compute. reflexivity. Qed.

Lemma day_month_year_at_start (d w1 m w2 y rest : string) :
  all_in is_digit d = true -> 1 <= String.length d <= 2 ->
  all_in is_space w1 = true -> 1 <= String.length w1 ->
  all_in is_word m = true -> 1 <= String.length m ->
  all_in is_space w2 = true -> 1 <= String.length w2 ->
  all_in is_digit y = true -> String.length y = 4 ->
  day_month_year_at (d +:+ w1 +:+ m +:+ w2 +:+ y +:+ rest) EmptyString d m y.
Proof. intros. exists w1, w2, rest. split_and!; done || lia. Qed.

Lemma parse_date_forms_witness :
  parse_date " 5 June 2024" = Some "2024-06-05"
  /\ parse_date "1 Foo 2024 on 2023-01-31" = Some "2023-01-31"
  /\ parse_date "1 Foo 2024" = None.
Proof.
  split_and!.
  - destruct (parse_date_forms " 5 June 2024") as (H & _).
    apply (H EmptyString "5" "June" "2024" "06").
    + apply (day_month_year_at_start "5" " " "June" " " "2024" EmptyString);
        (reflexivity || (simpl; lia)).
    + intros pre' d m y _. simpl. lia.
    + vm_compute. reflexivity.
  - destruct (parse_date_forms "1 Foo 2024 on 2023-01-31") as (_ & H & _).
    apply (H "1 Foo 2024 on ").
    + right. exists EmptyString, "1", "Foo", "2024". split_and!.
      * apply (day_month_year_at_start "1" " " "Foo" " " "2024" " on 2023-01-31");
          (reflexivity || (simpl; lia)).
      * intros pre' d m y _. simpl. lia.
      * vm_compute. reflexivity.
    + by exists "2023", "01", "31", EmptyString.
    + pose proof (search_iso_cases "1 Foo 2024 on 2023-01-31") as Hc.
      assert (Re.search iso_date "1 Foo 2024 on 2023-01-31"
              = Some (Re.Matched "1 Foo 2024 on " ["2023"; "-"; "01"; "-"; "31"] EmptyString))
        as E by (vm_compute; reflexivity).
      rewrite E in Hc. exact (proj2 Hc).
  - destruct (parse_date_forms "1 Foo 2024") as (_ & _ & H & _).
    apply H.
    + right. exists EmptyString, "1", "Foo", "2024". split_and!.
      * apply (day_month_year_at_start "1" " " "Foo" " " "2024" EmptyString);
          (reflexivity || (simpl; lia)).
      * intros pre' d m y _. simpl. lia.
      * vm_compute. reflexivity.
    + pose proof (search_iso_cases "1 Foo 2024") as Hc.
      assert (Re.search iso_date "1 Foo 2024" = None) as E by (vm_compute; reflexivity).
      rewrite E in Hc. exact Hc.
Defined.

(** A text that holds a day, a month name of the table and a year, and
    for which [parse_date] returns nothing: an earlier form with a word
    that is no month name is the one the search finds. *)
Lemma parse_date_later_month_unused :
  day_month_year_at "1 Foo 2024 15 March 2024" "1 Foo 2024 " "15" "March" "2024"
  /\ month_names !! "March" = Some "03"
  /\ parse_date "1 Foo 2024 15 March 2024" = None.
Proof.
  split_and!.
  - exists " ", " ", EmptyString. split_and!; (reflexivity || (simpl; lia)).
  - vm_compute. reflexivity.
  - vm_compute. reflexivity.
Qed.

End Dates.
(** ** The extraction cap *)

Section ExtractionCap.
Import PyStr ECBScraper ExtractionSpec Samples.

Lemma capped_nil (m : Z) (pubs : list publication) : capped m pubs [] = pubs.
Proof. unfold capped. by rewrite take_nil, app_nil_r. Qed.

Lemma capped_reached (m : Z) (pubs more : list publication) :
  limit_reached m pubs = true -> capped m pubs more = pubs.
Proof.
  unfold limit_reached, capped. intros H%Z.leb_le.
  replace (Z.to_nat m - length pubs) with 0 by lia. by rewrite take_0, app_nil_r.
Qed.

Lemma capped_capped (m : Z) (pubs a b : list publication) :
  capped m (capped m pubs a) b = capped m pubs (a ++ b).
Proof.
  unfold capped. rewrite <- app_assoc. f_equal.
  rewrite take_app. f_equal. f_equal.
  rewrite length_app, length_take. lia.
Qed.


Lemma visit_link_candidate (date_text : string) (link : Bs4.tag)
    (pubs : list publication) :
  visit_link date_text link pubs = pubs ++ option_list (candidate date_text link).
Proof.
  unfold visit_link, candidate, link_url.
  destruct (Bs4.find_parent _ _ _); [by rewrite app_nil_r|].
  set (u := if startswith _ _ then _ else _).
  destruct (truthy (Bs4.get_text_strip link)), (truthy u),
    (parse_date date_text) as [d|]; simpl; try (by rewrite app_nil_r).
  destruct (truthy d); simpl; [done|by rewrite app_nil_r].
Qed.

Lemma link_loop_capped (m : Z) (date_text : string) (links : list Bs4.tag)
    (pubs : list publication) :
  link_loop m date_text links pubs = capped m pubs (omap (candidate date_text) links).
Proof.
  revert pubs. induction links as [|link links IH]; intros pubs; simpl.
  - by rewrite capped_nil.
  - destruct (limit_reached m pubs) eqn:E; [by rewrite capped_reached|].
    rewrite IH, visit_link_candidate.
    assert (pubs ++ option_list (candidate date_text link)
            = capped m pubs (option_list (candidate date_text link))) as ->.
    { unfold capped. f_equal. symmetry. apply take_ge.
      unfold limit_reached in E. apply Z.leb_gt in E.
      destruct (candidate date_text link); simpl; lia. }
    rewrite capped_capped. by destruct (candidate date_text link).
Qed.

Lemma dt_loop_capped (m : Z) (dds : list Bs4.tag) (i : nat) (dts : list Bs4.tag)
    (pubs : list publication) :
  dt_loop m dds i dts pubs
  = capped m pubs (flat_map pair_candidates (zip dts (drop i dds))).
Proof.
  revert i pubs. induction dts as [|dt dts IH]; intros i pubs; simpl.
  - by rewrite capped_nil.
  - destruct (limit_reached m pubs) eqn:E; [by rewrite capped_reached|].
    rewrite IH. destruct (dds !! i) as [dd|] eqn:Hi.
    + rewrite (drop_S _ _ _ Hi). simpl.
      rewrite link_loop_capped, capped_capped. done.
    + apply lookup_ge_None in Hi.
      rewrite !drop_ge by lia. by destruct dts.
Qed.

Lemma dl_loop_capped (m : Z) (dls : list Bs4.tag) (pubs : list publication) :
  dl_loop m dls pubs = capped m pubs (flat_map group_candidates dls).
Proof.
  revert pubs. induction dls as [|dl dls IH]; intros pubs; simpl.
  - by rewrite capped_nil.
  - destruct (limit_reached m pubs) eqn:E; [by rewrite capped_reached|].
    rewrite IH, dt_loop_capped, capped_capped. by rewrite drop_0.
Qed.

Lemma extract_take (m : Z) (soup : list Bs4.node) :
  extract_publications_from_html m soup = take (Z.to_nat m) (candidate_links soup).
Proof.
  unfold extract_publications_from_html, candidate_links.
  destruct (Bs4.find_class _ _ _); [|by rewrite take_nil].
  rewrite dl_loop_capped. unfold capped. simpl. f_equal. lia.
Qed.




(** *** Position and sequence

    The code pairs the [i]-th heading of a date group with its [i]-th
    content block.  Where headings and content blocks alternate, that is
    the heading the content block follows. *)













(** The sample page is regular, and its three candidate links are the
    links of the specification. *)
Example sample_page_regular :
  regular sample_page = true
  /\ candidate_links sample_page = described_links sample_page
  /\ length (candidate_links sample_page) = 3.
Proof. split_and!; vm_compute; reflexivity. Qed.

End ExtractionCap.
(** ** The publications file *)

Section PublicationsFile.
Import PyStr ReSpec FileSpec ECBScraper ECBPDFDownloader.

Lemma lstrip_by_all (cls : ascii -> bool) (w : string) :
  all_in cls w = true -> lstrip_by cls w = EmptyString.
Proof.
  induction w as [|c w IH]; simpl; [done|].
  intros [Hc Hw]%andb_true_iff. by rewrite Hc, IH.
Qed.

(** White space at the end of a line does not count. *)
Lemma strip_by_app (cls : ascii -> bool) (s w : string) :
  all_in cls w = true -> strip_by cls (s +:+ w) = strip_by cls s.
Proof.
  intros Hw. unfold strip_by. induction s as [|c s IH].
  - by rewrite app_nil_l_s, lstrip_by_all.
  - rewrite app_cons_s. simpl. destruct (cls c); [done|].
    by rewrite <- app_cons_s, rstrip_by_app.
Qed.

Lemma read_line_newline (line : string) :
  read_line (line +:+ String "010" EmptyString) = read_line line.
Proof. unfold read_line, strip. by rewrite strip_by_app. Qed.

Lemma short_line_no_separator (l : string) :
  String.length l < 3 -> contains " | " l = false.
Proof.
  destruct l as [|a [|b [|c l]]]; simpl; intros H; try lia;
    by rewrite ?andb_false_r.
Qed.

(** The guard of the reader decides nothing the split does not. *)
Lemma read_line_split (line : string) :
  read_line line
  = match split " | " (strip line) 2 with
    | [date; title; url] => Some (date, title, url)
    | _ => None
    end.
Proof.
  unfold read_line. destruct (truthy (strip line) && contains " | " (strip line)) eqn:E; [done|].
  assert (contains " | " (strip line) = false) as Hc.
  { destruct (strip line); [done|]. by rewrite andb_true_l in E. }
  apply partition_none in Hc. simpl. by rewrite Hc.
Qed.

Lemma split_two_or_more (l : string) (n : nat) :
  2 <= n ->
  match split " | " l 2 with
  | [date; title; url] => Some (date, title, url)
  | _ => None
  end
  = match split " | " l n with
    | date :: title :: url :: more => Some (date, title, join " | " (url :: more))
    | _ => None
    end.
Proof.
  intros Hn. destruct n as [|[|n]]; [lia|lia|]. simpl.
  destruct (partition " | " l) as [[a b]|]; [|done].
  destruct (partition " | " b) as [[c d]|]; [|done].
  pose proof (join_split " | " d n) as Hj.
  destruct (split " | " d n) as [|f more] eqn:E; [by apply split_nonempty in E|].
  do 2 f_equal. symmetry. exact Hj.
Qed.

Lemma read_line_accepted (line : string) : read_line line = accepted line.
Proof.
  rewrite read_line_split. unfold accepted, fields.
  destruct (decide (2 <= String.length (strip line))) as [H|H].
  - by apply split_two_or_more.
  - assert (partition " | " (strip line) = None) as Hp.
    { apply partition_none, short_line_no_separator. lia. }
    simpl. rewrite Hp.
    destruct (String.length (strip line)) as [|n]; simpl; [done|]. by rewrite Hp.
Qed.

(** C8, as the code has it.  The reader takes a record from a line
    exactly when the stripped line has three fields or more between
    [" | "] separators: the date is the first field, the title the
    second, and the url all that follows the second separator, further
    separators included.  Empty lines and lines of one or two fields are
    skipped. *)
Theorem read_publications_file_fields (text : string) :
  read_publications_file (Some text) = omap accepted (readlines text)
  /\ (forall line,
        read_line line = accepted line
        /\ Forall (fun f => contains " | " f = false) (fields (strip line))
        /\ join " | " (fields (strip line)) = strip line
        /\ (read_line line = None <-> length (fields (strip line)) < 3)).
Proof.
  split.
  - simpl. apply list_omap_ext, Forall2_same_length_lookup_2; [done|].
    intros i x y Hx Hy. simplify_eq. apply read_line_accepted.
  - intros line. split_and!.
    + apply read_line_accepted.
    + by apply split_full_free.
    + apply join_split.
    + rewrite read_line_accepted. unfold accepted.
      destruct (fields (strip line)) as [|f1 [|f2 [|f3 more]]]; simpl;
        split; intros; try done; lia.
Qed.

(** A line of four fields is read as a record, with a url that holds a
    separator. *)
Lemma four_fields_accepted :
  length (fields "2024-05-01 | Report | https://example.org/x | y") = 4
  /\ read_publications_file (Some "2024-05-01 | Report | https://example.org/x | y")
     = [("2024-05-01", "Report", "https://example.org/x | y")].
Proof. split; vm_compute; reflexivity. Qed.

(** A line whose third field is a no-break space: stripping takes
    it off, and the two fields left make no record. *)
Example no_break_space_field_skipped :
  read_line ("a | b | " +:+ Samples.nbsp) = None
  /\ read_line ("a | b | c" +:+ Samples.nbsp) = Some ("a", "b", "c").
Proof. split; vm_compute; reflexivity. Qed.

(** *** Writing and reading back *)

Lemma not_break_eqb (c : ascii) :
  no_break c = true -> Ascii.eqb c "010" = false /\ Ascii.eqb c "013" = false.
Proof.
  unfold no_break, line_break. intros H%negb_true_iff.
  by apply orb_false_iff in H.
Qed.

Lemma readlines_line (l rest : string) :
  all_in no_break l = true ->
  readlines (l +:+ String "010" rest) = (l +:+ String "010" EmptyString) :: readlines rest.
Proof.
  induction l as [|c l IH]; intros Hl; [done|].
  simpl in Hl. apply andb_true_iff in Hl as [Hc Hl].
  destruct (not_break_eqb c Hc) as [H10 H13].
  rewrite !app_cons_s. simpl. rewrite H10, H13.
  specialize (IH Hl). destruct (l +:+ String "010" rest) as [|d s] eqn:E.
  - destruct l; discriminate E.
  - by rewrite IH.
Qed.

Lemma readlines_last (l : string) :
  all_in no_break l = true -> l <> EmptyString -> readlines l = [l].
Proof.
  induction l as [|c l IH]; intros Hl Hne; [done|].
  simpl in Hl. apply andb_true_iff in Hl as [Hc Hl].
  destruct (not_break_eqb c Hc) as [H10 H13].
  simpl. rewrite H10, H13. destruct l as [|d l]; [done|].
  by rewrite IH.
Qed.

Lemma omap_cons {A B} (f : A -> option B) (x : A) (l : list A) :
  omap f (x :: l) = match f x with Some y => y :: omap f l | None => omap f l end.
Proof. reflexivity. Qed.

Lemma read_joined_lines (lines : list string) :
  Forall (fun l => all_in no_break l = true /\ l <> EmptyString) lines ->
  omap read_line (readlines (join (String "010" EmptyString) lines))
  = omap read_line lines.
Proof.
  induction 1 as [|l lines [Hl Hne] Hlines IH]; [done|].
  destruct lines as [|l2 lines].
  - simpl. by rewrite readlines_last.
  - rewrite join_cons by done.
    change (String "010" EmptyString +:+ join (String "010" EmptyString) (l2 :: lines))
      with (String "010" (join (String "010" EmptyString) (l2 :: lines))).
    rewrite readlines_line by done.
    by rewrite omap_cons, read_line_newline, IH.
Qed.

Lemma partition_no_pipe (a b : string) :
  all_in no_pipe a = true -> partition " | " (a +:+ " | " +:+ b) = Some (a, b).
Proof.
  intros Ha. apply partition_first. intros a1 a2 -> Ha2.
  rewrite all_in_app in Ha. apply andb_true_iff in Ha as [_ Ha].
  destruct a2 as [|c a2]; [done|]. rewrite app_cons_s, startswith_cons.
  destruct a2 as [|d a2].
  - rewrite app_nil_l_s, app_cons_s, startswith_cons.
    replace (Ascii.eqb "|" " ") with false by reflexivity.
    by rewrite andb_false_r.
  - rewrite app_cons_s, startswith_cons. simpl in Ha.
    apply andb_true_iff in Ha as [_ Ha].
    apply andb_true_iff in Ha as [Hd _]. unfold no_pipe in Hd.
    apply negb_true_iff in Hd. rewrite Ascii.eqb_sym in Hd.
    by rewrite Hd, andb_false_r.
Qed.

(** The same for a title in which no separator starts. *)
Lemma startswith_separator (a b b' : string) :
  a <> EmptyString ->
  startswith " | " (a +:+ " | " +:+ b) = true ->
  startswith " | " (a +:+ " " +:+ b') = true.
Proof.
  destruct a as [|c [|d [|e a]]]; [done|..]; intros _;
    rewrite ?app_cons_s, ?app_nil_l_s, ?startswith_cons.
  - replace (Ascii.eqb "|" " ") with false by reflexivity. by rewrite andb_false_r.
  - done.
  - done.
Qed.

Lemma partition_no_separator (a b : string) :
  contains " | " (a +:+ " ") = false -> partition " | " (a +:+ " | " +:+ b) = Some (a, b).
Proof.
  intros Ha. apply partition_first. intros a1 a2 -> Ha2.
  destruct (startswith " | " (a2 +:+ " | " +:+ b)) eqn:E; [exfalso|done].
  apply (startswith_separator _ _ EmptyString) in E; [|done].
  rewrite app_nil_r_s in E. apply startswith_spec in E as [r Hr].
  assert (contains " | " ((a1 +:+ a2) +:+ " ") = true); [|congruence].
  apply contains_spec. exists a1, r. by rewrite app_assoc_s, Hr.
Qed.

Lemma digit_no_pipe (c : ascii) : is_digit c = true -> no_pipe c = true.
Proof. by destruct c as [[] [] [] [] [] [] [] []]. Qed.

Lemma digit_no_break (c : ascii) : is_digit c = true -> no_break c = true.
Proof. by destruct c as [[] [] [] [] [] [] [] []]. Qed.

Lemma iso_form_chars (s : string) :
  DateSpec.iso_form s ->
  all_in no_pipe s = true /\ all_in no_break s = true
  /\ exists c s', s = String c s' /\ is_space c = false.
Proof.
  intros (y & m & d & rest & _ & -> & Hy & Hyl & Hm & _ & Hd & _).
  rewrite !all_in_app.
  rewrite (all_in_impl _ _ y digit_no_pipe), (all_in_impl _ _ m digit_no_pipe),
    (all_in_impl _ _ d digit_no_pipe) by done.
  rewrite (all_in_impl _ _ y digit_no_break), (all_in_impl _ _ m digit_no_break),
    (all_in_impl _ _ d digit_no_break) by done.
  split_and!; [reflexivity|reflexivity|].
  destruct (all_in_head _ _ Hy) as (c & y' & -> & Hc); [lia|].
  exists c, (y' +:+ "-" +:+ m +:+ "-" +:+ d). split; [done|].
  by apply digit_not_space.
Qed.

Lemma save_line_read (p : publication) :
  storable p ->
  all_in no_break (save_line p) = true /\ save_line p <> EmptyString
  /\ read_line (save_line p) = Some (triple p).
Proof.
  intros (Hdate & Htp & Htb & Hub & Hue).
  destruct (iso_form_chars _ Hdate) as (Hdp & Hdb & c & d' & Hd & Hc).
  unfold save_line. split_and!.
  - rewrite !all_in_app, Hdb, Htb, Hub. done.
  - rewrite Hd. done.
  - rewrite read_line_split.
    assert (strip (date p +:+ " | " +:+ title p +:+ " | " +:+ url p)
            = date p +:+ " | " +:+ title p +:+ " | " +:+ url p) as ->.
    { unfold strip, strip_by. rewrite Hd at 1. rewrite app_cons_s. simpl. rewrite Hc.
      rewrite <- app_cons_s, <- Hd. apply rstrip_by_id.
      by repeat apply ends_outside_app. }
    simpl. rewrite partition_no_pipe by done. by rewrite partition_no_separator.
Qed.

Lemma no_pipe_no_separator (a : string) :
  all_in no_pipe a = true -> contains " | " (a +:+ " ") = false.
Proof.
  intros Ha. destruct (contains " | " (a +:+ " ")) eqn:E; [exfalso|done].
  apply contains_spec in E as (x & y & E).
  apply (f_equal (all_in no_pipe)) in E.
  rewrite !all_in_app, Ha in E.
  change (all_in no_pipe " | ") with false in E.
  by rewrite andb_false_r in E.
Qed.

Lemma replace_pipe_no_pipe (t : string) : all_in no_pipe (replace_char "|" "-" t) = true.
Proof.
  induction t as [|c t IH]; [done|]. simpl. rewrite IH, andb_true_r.
  unfold no_pipe. destruct (Ascii.eqb c "|") eqn:E; [done|]. by rewrite E.
Qed.

(** C10, as the code has it.  For records the flat file can hold, the
    dates in ISO form, the titles without line break and with no
    [" | "] inside or on their last two characters, the urls without
    line break and ending in a character other than white space, what
    [save_to_file] writes is read back by [read_publications_file] as the
    same triples in the same order; the url may hold [" | "].  For the
    empty list no file is written and nothing is read.  The titles of
    extraction, in which every pipe is replaced, meet the condition on
    [" | "]. *)
Theorem save_then_read (publications : list publication) :
  Forall storable publications ->
  read_publications_file (save_to_file publications) = triple <$> publications
  /\ (forall t, contains " | " (replace_char "|" "-" t +:+ " ") = false).
Proof.
  intros Hall. split; [|intros t; apply no_pipe_no_separator, replace_pipe_no_pipe].
  assert (omap read_line (map save_line publications) = triple <$> publications) as Hread.
  { induction Hall as [|q qs Hq _ IH]; [done|].
    rewrite fmap_cons. cbn [map]. rewrite omap_cons.
    destruct (save_line_read q Hq) as (_ & _ & ->).
    rewrite fmap_cons. f_equal. exact IH. }
  destruct publications as [|p ps]; [done|].
  unfold save_to_file, read_publications_file.
  rewrite read_joined_lines; [done|].
  apply Forall_fmap. eapply Forall_impl; [exact Hall|].
  intros q Hq. simpl. by destruct (save_line_read q Hq) as (? & ? & _).
Qed.

Lemma save_then_read_witness :
  read_publications_file
    (save_to_file
       [ Publication "2024-03-15" "Decision - statement" "https://example.org/a | b"
           "15 March 2024";
         Publication "2024-03-14" "Speech" "https://example.org/c" "2024-03-14" ])
  = [ ("2024-03-15", "Decision - statement", "https://example.org/a | b");
      ("2024-03-14", "Speech", "https://example.org/c") ].
Proof.
  apply (save_then_read
           [ Publication "2024-03-15" "Decision - statement" "https://example.org/a | b"
               "15 March 2024";
             Publication "2024-03-14" "Speech" "https://example.org/c" "2024-03-14" ]).
  repeat constructor; try reflexivity.
  - by exists "2024", "03", "15", EmptyString.
  - by exists "2024", "03", "14", EmptyString.
Defined.

(** A record with an ISO date and a title without [" | "] that is not
    read back: the title holds a line break, and neither half of the
    broken line has three fields. *)
Lemma line_break_not_read_back :
  let p := Publication "2024-03-15" (String "E" (String "C" (String "B"
             (String "010" "decision")))) "https://example.org/a" "15 March 2024" in
  DateSpec.iso_form (date p)
  /\ contains " | " (title p) = false
  /\ read_publications_file (save_to_file [p]) = [].
Proof.
  split_and!.
  - by exists "2024", "03", "15", EmptyString.
  - vm_compute. reflexivity.
  - vm_compute. reflexivity.
Qed.

(** Extraction returns that record for a page whose link text runs
    over two lines. *)
Example wrapped_title_extracted :
  ECBScraper.extract_publications_from_html 100 Samples.wrapped_title_page
  = [ Publication "2024-03-15" (String "E" (String "C" (String "B"
        (String "010" "decision")))) "https://example.org/a" "15 March 2024" ].
Proof. vm_compute. reflexivity. Qed.

End PublicationsFile.
(** ** Collision-free file names *)

Section Names.
Import Tenacity PyStr ReSpec NameSpec ECBPDFDownloader.
Context {File : Type} (refused : string -> bool).

Lemma numbered_filename_prefix (base ext : string) (n : nat) :
  numbered_filename base ext n = numbered_prefix base +:+ pretty n +:+ "." +:+ ext.
Proof.
  unfold numbered_filename, numbered_prefix.
  destruct (split "_" base 1) as [|d [|t l]]; by rewrite ?app_assoc_s.
Qed.

Lemma numbered_filename_inj (base ext : string) (n m : nat) :
  numbered_filename base ext n = numbered_filename base ext m -> n = m.
Proof.
  rewrite !numbered_filename_prefix. intros H.
  apply (inj (String.app _)) in H. rewrite <- !app_assoc_s in H.
  apply app_inv_tail_s in H. apply app_inv_tail_s in H. by apply (inj pretty) in H.
Qed.

(** The loop ends at the first name of the sequence that is refused
    or free, when its fuel reaches that far. *)
Lemma exists_loop_first_stop (dir : gmap string File) (base ext : string)
    (fuel counter n : nat) :
  counter <= n <= counter + fuel ->
  (forall k, counter <= k < n ->
     refused (probe base ext k) = false /\ is_Some (dir !! probe base ext k)) ->
  refused (probe base ext n) = true \/ dir !! probe base ext n = None ->
  exists_loop fuel refused dir base ext counter (probe base ext counter)
  = Some (if refused (probe base ext n) then Raised OSError
          else Returned (probe base ext n)).
Proof.
  assert (forall fuel' name,
            refused name = true \/ dir !! name = None ->
            exists_loop fuel' refused dir base ext n name
            = Some (if refused name then Raised OSError else Returned name)) as Hstop.
  { intros fuel' name Hname. destruct fuel'; simpl; unfold path_exists;
      (destruct (refused name) eqn:E; [done|]);
      (destruct Hname as [?|Hfree]; [done|]);
      by rewrite Hfree, bool_decide_eq_false_2 by (by intros [? ?]). }
  revert counter. induction fuel as [|fuel IH]; intros counter Hn Hbelow Hend.
  - assert (counter = n) as -> by lia. by apply Hstop.
  - destruct (decide (counter = n)) as [->|Hne]; [by apply Hstop|].
    destruct (Hbelow counter) as [Hacc Hthere]; [lia|].
    cbn [exists_loop]. unfold path_exists at 1.
    rewrite Hacc, bool_decide_eq_true_2 by done.
    apply (IH (S counter)); [lia| |done]. intros k Hk. apply Hbelow. lia.
Qed.

(** Among the first numbered names, one more than the directory has
    files, one is free. *)
Lemma numbered_name_free (dir : gmap string File) (base ext : string) :
  exists k, 1 <= k <= S (size dir) /\ dir !! probe base ext k = None.
Proof.
  set (names := numbered_filename base ext <$> seq 1 (S (size dir))).
  destruct (decide (Forall (fun name => is_Some (dir !! name)) names)) as [Hall|Hnot].
  - exfalso.
    assert (NoDup names) as Hnd.
    { apply NoDup_fmap_2_strong; [|apply NoDup_seq].
      intros ?? _ _. apply numbered_filename_inj. }
    assert (list_to_set names ⊆ dom dir) as Hsub.
    { intros name Hname%elem_of_list_to_set. apply elem_of_dom.
      rewrite Forall_forall in Hall. by apply Hall. }
    apply subseteq_size in Hsub.
    rewrite size_list_to_set, size_dom in Hsub by done.
    unfold names in Hsub. rewrite length_fmap, length_seq in Hsub. lia.
  - apply not_Forall_Exists in Hnot; [|apply _].
    apply Exists_exists in Hnot as (name & Hin & Hfree).
    apply list_elem_of_fmap in Hin as (k & -> & Hk%elem_of_seq).
    exists k. split; [lia|]. destruct k; [lia|]. simpl.
    by apply eq_None_not_Some.
Qed.

(** The least number with a decidable property, below a number that
    has it. *)
Lemma least_below (P : nat -> Prop) `{!forall n, Decision (P n)} (k : nat) :
  P k -> exists n, n <= k /\ P n /\ forall j, j < n -> ~ P j.
Proof.
  induction k as [k IH] using lt_wf_ind. intros Hk.
  destruct (decide (Forall (fun j => ~ P j) (seq 0 k))) as [Hall|Hnot].
  - exists k. split_and!; [done|done|]. intros j Hj.
    rewrite Forall_forall in Hall. apply Hall, elem_of_seq. lia.
  - apply not_Forall_Exists in Hnot; [|apply _].
    apply Exists_exists in Hnot as (j & Hj%elem_of_seq & HPj).
    apply dec_stable in HPj.
    destruct (IH j) as (n & ? & ? & ?); [lia|done|].
    exists n. split_and!; [lia|done|done].
Qed.

(** The first name at which the loop ends, below a free name. *)
Lemma first_stop_below (dir : gmap string File) (base ext : string) (k : nat) :
  dir !! probe base ext k = None ->
  exists n, n <= k
            /\ (refused (probe base ext n) = true \/ dir !! probe base ext n = None)
            /\ forall j, j < n ->
                 refused (probe base ext j) = false /\ is_Some (dir !! probe base ext j).
Proof.
  intros Hk.
  destruct (least_below
              (fun n => refused (probe base ext n) = true \/ dir !! probe base ext n = None)
              k) as (n & Hn & Hend & Hbelow); [by right|].
  exists n. split_and!; [done|done|]. intros j Hj. specialize (Hbelow j Hj). split.
  - apply not_true_iff_false. tauto.
  - apply not_eq_None_Some. tauto.
Qed.

(** Stripping the counter suffix. *)
Lemma sub_go_skip_all (r : Re.regex) (repl s : string) (k : nat) :
  String.length s <= k -> Re.sub_go r repl k s = EmptyString.
Proof.
  revert k. induction s as [|c s IH]; intros k Hk.
  - by destruct k.
  - destruct k as [|k]; simpl in Hk; [lia|]. simpl. apply IH. lia.
Qed.

Lemma sub_go_unmatched (r : Re.regex) (repl t s : string) :
  (forall a b, t = a +:+ b -> b <> EmptyString -> Re.match_here r (b +:+ s) = None) ->
  Re.sub_go r repl 0 (t +:+ s) = t +:+ Re.sub_go r repl 0 s.
Proof.
  induction t as [|c t IH]; intros Hnone; [done|].
  rewrite !app_cons_s. simpl.
  rewrite <- app_cons_s, (Hnone EmptyString (String c t)) by done.
  rewrite IH; [done|]. intros a b -> Hb. by apply (Hnone (String c a) b).
Qed.

Lemma digit_not_underscore (c : ascii) : is_digit c = true -> not_underscore c = true.
Proof. by destruct c as [[] [] [] [] [] [] [] []]. Qed.

Lemma at_end_not_underscore (s : string) :
  Re.at_end s = true -> all_in not_underscore s = true.
Proof.
  destruct s as [|c [|d s]]; simpl; try done. by intros ->%Ascii.eqb_eq.
Qed.

Lemma at_suffix_matched (ps : list string) (rest : string) :
  matched_by at_suffix ps rest ->
  exists ds, ps = ["_"; "A"; "t"; ds; EmptyString]
             /\ all_in is_digit ds = true /\ Re.at_end rest = true.
Proof.
  unfold at_suffix, Re.lit, Re.plus. intros H.
  matched_rep H p1 Hp1 Hl1 Hh1 H1. matched_rep H1 p2 Hp2 Hl2 Hh2 H2.
  matched_rep H2 p3 Hp3 Hl3 Hh3 H3. matched_rep H3 ds Hds Hdsl Hdsh H4.
  inversion H4 as [| |? ps5 ? Hend H5]; subst. clear H4.
  inversion H5; subst. simpl in *.
  rewrite (one_char "_" p1), (one_char "A" p2), (one_char "t" p3) by (done || lia).
  by exists ds.
Qed.

Lemma at_suffix_here (ds : string) :
  all_in is_digit ds = true -> 1 <= String.length ds ->
  Re.match_here at_suffix ("_At" +:+ ds)
  = Some (["_"; "A"; "t"; ds; EmptyString], EmptyString).
Proof.
  intros Hds Hl. unfold at_suffix, Re.lit, Re.plus.
  apply (match_here_rep _ _ _ _ "_" ("At" +:+ ds)); [done|simpl; lia|simpl; lia|by left|].
  apply (match_here_rep _ _ _ _ "A" ("t" +:+ ds)); [done|simpl; lia|simpl; lia|by left|].
  apply (match_here_rep _ _ _ _ "t" ds); [done|simpl; lia|simpl; lia|by left|].
  rewrite <- (app_nil_r_s ds) at 1.
  apply match_here_rep; [done|lia|done|by right|done].
Qed.

(** A counter suffix at the end of the title is what the substitution
    removes, and all it removes. *)
Lemma at_suffix_stripped (t ds : string) :
  all_in is_digit ds = true -> 1 <= String.length ds ->
  Re.sub at_suffix EmptyString (t +:+ "_At" +:+ ds) = t.
Proof.
  intros Hds Hl. unfold Re.sub. rewrite sub_go_unmatched.
  - assert (Re.sub_go at_suffix EmptyString 0 ("_At" +:+ ds) = EmptyString) as ->;
      [|by rewrite app_nil_r_s].
    change ("_At" +:+ ds) with (String "_" ("At" +:+ ds)).
    cbn [Re.sub_go].
    change (String "_" ("At" +:+ ds)) with ("_At" +:+ ds).
    rewrite at_suffix_here by done.
    assert (String.length (Re.concat_pieces ["_"; "A"; "t"; ds; EmptyString])
            = S (2 + String.length ds)) as ->.
    { cbn [Re.concat_pieces]. rewrite !length_app_s. simpl. lia. }
    rewrite app_nil_l_s. apply sub_go_skip_all. rewrite length_app_s. simpl. lia.
  - intros a b -> Hb.
    destruct (Re.match_here _ _) as [[ps rest]|] eqn:E; [exfalso|done].
    apply match_here_sound in E as [Ht Hm].
    destruct (at_suffix_matched _ _ Hm) as (dd & -> & Hdd & Hend).
    assert (Re.concat_pieces ["_"; "A"; "t"; dd; EmptyString] +:+ rest
            = String "_" (String "A" (String "t" (dd +:+ rest)))) as Hc.
    { cbn [Re.concat_pieces]. by rewrite app_nil_l_s, app_nil_r_s, !app_assoc_s. }
    rewrite Hc in Ht. clear Hc.
    destruct b as [|c b]; [done|]. rewrite app_cons_s in Ht.
    injection Ht as _ Ht.
    apply (f_equal (all_in not_underscore)) in Ht.
    rewrite all_in_app, (all_in_app _ "_At" ds) in Ht.
    change (all_in not_underscore "_At") with false in Ht.
    change (all_in not_underscore (String "A" (String "t" (dd +:+ rest))))
      with (all_in not_underscore (dd +:+ rest)) in Ht.
    rewrite all_in_app, (all_in_impl _ _ dd digit_not_underscore) in Ht by done.
    rewrite (at_end_not_underscore rest) in Ht by done.
    by rewrite andb_false_r in Ht.
Qed.

Lemma probe_underscore (date_part title_part ext : string) (n : nat) :
  all_in not_underscore date_part = true ->
  probe (date_part +:+ "_" +:+ title_part) ext (S n)
  = date_part +:+ "_" +:+ Re.sub at_suffix EmptyString title_part +:+ "_At"
    +:+ pretty (S n) +:+ "." +:+ ext.
Proof.
  intros Hd. unfold probe, numbered_filename. simpl.
  rewrite partition_first; [done|].
  intros a1 a2 -> Ha2. rewrite all_in_app in Hd. apply andb_true_iff in Hd as [_ Hd].
  destruct a2 as [|c a2]; [done|]. rewrite app_cons_s, startswith_cons.
  simpl in Hd. apply andb_true_iff in Hd as [Hc _].
  unfold not_underscore in Hc. apply negb_true_iff in Hc.
  by rewrite Ascii.eqb_sym, Hc.
Qed.

(** The loop ends within its fuel, on the first name that is refused
    or free. *)
Lemma check_duplicate_filename_least (dir : gmap string File) (base ext : string) :
  exists n,
    n <= S (size dir)
    /\ (forall k, k < n ->
          refused (probe base ext k) = false /\ is_Some (dir !! probe base ext k))
    /\ ((refused (probe base ext n) = false /\ dir !! probe base ext n = None
         /\ check_duplicate_filename refused dir base ext
            = Some (Returned (probe base ext n)))
        \/ (refused (probe base ext n) = true
            /\ check_duplicate_filename refused dir base ext = Some (Raised OSError))).
Proof.
  destruct (numbered_name_free dir base ext) as (k & Hk & Hfree).
  destruct (first_stop_below dir base ext k Hfree) as (n & Hn & Hend & Hbelow).
  exists n. split_and!; [lia|done|].
  assert (check_duplicate_filename refused dir base ext
          = Some (if refused (probe base ext n) then Raised OSError
                  else Returned (probe base ext n))) as Hc.
  { unfold check_duplicate_filename.
    apply (exists_loop_first_stop dir base ext (S (size dir)) 0 n); [lia| |done].
    intros j Hj. apply Hbelow. lia. }
  destruct (refused (probe base ext n)) eqn:Hr; [by right|left].
  destruct Hend as [?|Hnone]; [done|]. by split_and!.
Qed.

Lemma first_free_unique (dir : gmap string File) (base ext : string) (n m : nat) :
  dir !! probe base ext n = None ->
  (forall k, k < n -> is_Some (dir !! probe base ext k)) ->
  dir !! probe base ext m = None ->
  (forall k, k < m -> is_Some (dir !! probe base ext k)) ->
  n = m.
Proof.
  intros Hn Hbn Hm Hbm. destruct (Nat.lt_trichotomy n m) as [H|[H|H]]; [|done|].
  - destruct (Hbm n H) as [f Hf]. congruence.
  - destruct (Hbn m H) as [f Hf]. congruence.
Qed.

(** A name that is returned is the first free name, and no name up to
    it is refused. *)
Lemma check_duplicate_filename_returned (dir : gmap string File) (base ext name : string) :
  check_duplicate_filename refused dir base ext = Some (Returned name) ->
  exists n,
    name = probe base ext n /\ dir !! name = None
    /\ (forall k, k <= n -> refused (probe base ext k) = false)
    /\ (forall k, k < n -> is_Some (dir !! probe base ext k)).
Proof.
  intros Hname.
  destruct (check_duplicate_filename_least dir base ext)
    as (n & _ & Hbelow & [(Hacc & Hfree & Hc)|(_ & Hc)]); [|congruence].
  rewrite Hc in Hname. injection Hname as <-. exists n. split_and!; [done|done| |].
  - intros k Hk. destruct (decide (k = n)) as [->|Hne]; [done|]. apply Hbelow. lia.
  - intros k Hk. by apply Hbelow.
Qed.

(** With no name of the sequence refused, the first free name is
    returned. *)
Lemma check_duplicate_filename_accepted (dir : gmap string File) (base ext : string) :
  (forall k, refused (probe base ext k) = false) ->
  exists n,
    check_duplicate_filename refused dir base ext = Some (Returned (probe base ext n))
    /\ n <= S (size dir)
    /\ dir !! probe base ext n = None
    /\ forall k, k < n -> is_Some (dir !! probe base ext k).
Proof.
  intros Hacc.
  destruct (check_duplicate_filename_least dir base ext)
    as (n & Hn & Hbelow & [(_ & Hfree & Hc)|(Hr & _)]); [|by rewrite Hacc in Hr].
  exists n. split_and!; [done|done|done|]. intros k Hk. by apply Hbelow.
Qed.

(** C5, as the code has it.  [check_duplicate_filename] ends, at the
    first name that is refused by the file system or free, in the
    sequence that starts with the plain name [base.ext] and goes on with
    the numbered names for 1, 2, 3 and so on: it returns that name when
    it is free, and raises the [OSError] of [exists] when it is refused.
    So, with no name of the sequence refused, it returns the first free
    name; it returns the plain name when that is accepted and free; and
    it never returns the name of a file of the directory.  For a base
    name of a date part without underscore and a title part, the
    numbered names are [date_title_At{n}.ext], the title without the
    counter suffix it may end in.  With the two files of the example in
    the directory, it returns the name numbered 2. *)
Theorem check_duplicate_filename_first_free (dir : gmap string File)
    (base_filename extension : string) :
  (exists n,
     n <= S (size dir)
     /\ (forall k, k < n ->
           refused (probe base_filename extension k) = false
           /\ is_Some (dir !! probe base_filename extension k))
     /\ ((refused (probe base_filename extension n) = false
          /\ dir !! probe base_filename extension n = None
          /\ check_duplicate_filename refused dir base_filename extension
             = Some (Returned (probe base_filename extension n)))
         \/ (refused (probe base_filename extension n) = true
             /\ check_duplicate_filename refused dir base_filename extension
                = Some (Raised OSError))))
  /\ ((forall k, refused (probe base_filename extension k) = false) ->
      exists n,
        check_duplicate_filename refused dir base_filename extension
          = Some (Returned (probe base_filename extension n))
        /\ dir !! probe base_filename extension n = None
        /\ forall k, k < n -> is_Some (dir !! probe base_filename extension k))
  /\ (forall name,
        check_duplicate_filename refused dir base_filename extension
          = Some (Returned name) ->
        dir !! name = None)
  /\ (refused (base_filename +:+ "." +:+ extension) = false ->
      dir !! (base_filename +:+ "." +:+ extension) = None ->
      check_duplicate_filename refused dir base_filename extension
        = Some (Returned (base_filename +:+ "." +:+ extension)))
  /\ (forall date_part title_part n,
        all_in not_underscore date_part = true ->
        base_filename = date_part +:+ "_" +:+ title_part ->
        probe base_filename extension (S n)
        = date_part +:+ "_" +:+ Re.sub at_suffix EmptyString title_part +:+ "_At"
          +:+ pretty (S n) +:+ "." +:+ extension)
  /\ (forall title digits,
        all_in is_digit digits = true -> 1 <= String.length digits ->
        Re.sub at_suffix EmptyString (title +:+ "_At" +:+ digits) = title)
  /\ (base_filename = "2024-01-01_Title" -> extension = "pdf" ->
      (forall k, k <= 2 -> refused (probe base_filename extension k) = false) ->
      is_Some (dir !! "2024-01-01_Title.pdf") ->
      is_Some (dir !! "2024-01-01_Title_At1.pdf") ->
      dir !! "2024-01-01_Title_At2.pdf" = None ->
      check_duplicate_filename refused dir base_filename extension
        = Some (Returned "2024-01-01_Title_At2.pdf")).
Proof.
  pose proof (check_duplicate_filename_least dir base_filename extension) as Hleast.
  split_and!.
  - exact Hleast.
  - intros Hacc.
    destruct (check_duplicate_filename_accepted dir base_filename extension Hacc)
      as (n & ? & _ & ? & ?). by exists n.
  - intros name Hname.
    by destruct (check_duplicate_filename_returned dir base_filename extension name Hname)
      as (n & _ & ? & _).
  - intros Hacc Hfree.
    destruct Hleast as (n & _ & Hbelow & Hend).
    destruct n as [|n].
    + destruct Hend as [(_ & _ & Hc)|(Hr & _)]; [exact Hc|]. simpl in Hr. congruence.
    + destruct (Hbelow 0) as [_ [f Hf]]; [lia|]. simpl in Hf. congruence.
  - intros date_part title_part k Hd ->. by apply probe_underscore.
  - intros title digits. apply at_suffix_stripped.
  - intros -> -> Hacc H0 H1 H2.
    destruct Hleast as (n & _ & Hbelow & Hend).
    assert (n = 2) as ->.
    { destruct (Nat.lt_trichotomy n 2) as [Hlt|[?|Hgt]]; [exfalso|done|exfalso].
      - destruct Hend as [(_ & Hfree & _)|(Hr & _)].
        + destruct n as [|[|n]]; [|  |lia].
          * destruct H0 as [f Hf]. change (probe "2024-01-01_Title" "pdf" 0)
              with "2024-01-01_Title.pdf" in Hfree. congruence.
          * destruct H1 as [f Hf]. change (probe "2024-01-01_Title" "pdf" 1)
              with "2024-01-01_Title_At1.pdf" in Hfree. congruence.
        + rewrite Hacc in Hr by lia. done.
      - destruct (Hbelow 2) as [_ [f Hf]]; [lia|].
        change (probe "2024-01-01_Title" "pdf" 2) with "2024-01-01_Title_At2.pdf" in Hf.
        congruence. }
    destruct Hend as [(_ & _ & Hc)|(Hr & _)]; [exact Hc|].
    rewrite Hacc in Hr by lia. done.
Qed.

End Names.

Lemma check_duplicate_filename_first_free_witness :
  ECBPDFDownloader.check_duplicate_filename (fun _ => false)
    (list_to_map [("2024-01-01_Title.pdf", tt); ("2024-01-01_Title_At1.pdf", tt)]
       : gmap string unit)
    "2024-01-01_Title" "pdf"
  = Some (Tenacity.Returned "2024-01-01_Title_At2.pdf").
Proof.
  destruct (check_duplicate_filename_first_free (fun _ => false)
              (list_to_map [("2024-01-01_Title.pdf", tt); ("2024-01-01_Title_At1.pdf", tt)]
                 : gmap string unit)
              "2024-01-01_Title" "pdf") as (_ & _ & _ & _ & _ & _ & H).
  apply H; try reflexivity; vm_compute; eauto.
Defined.

(** A base name for which no name is returned: the plain name is not
    in the directory, and it is longer than the file system takes, so
    that [exists] raises. *)
Lemma long_name_not_returned :
  (∅ : gmap string unit) !! (Samples.long_base_filename +:+ "." +:+ "pdf") = None
  /\ ECBPDFDownloader.check_duplicate_filename Samples.name_too_long
       (∅ : gmap string unit) Samples.long_base_filename "pdf"
     = Some (Tenacity.Raised ECBPDFDownloader.OSError).
Proof. split; vm_compute; reflexivity. Qed.
(** ** Retries *)

Section RetryFacts.
Import Tenacity RetrySpec.
Context {St V E : Type}.
Implicit Types (p : policy E) (op : nat -> St -> outcome V E * St).

(** What a run of the loop is, for an operation whose outcome depends
    on the attempt number alone. *)
Lemma attempt_loop_spec p op (out : nat -> outcome V E) (left k : nat) (st : St)
    (sleeps : list Z) :
  (forall j s, (op j s).1 = out j) ->
  let r := attempt_loop p op left k st sleeps in
  k <= attempts_of r <= k + left
  /\ sleeps_of r = sleeps ++ (wait p <$> seq k (attempts_of r - k))
  /\ retried p out k (attempts_of r)
  /\ match ending_of r with
     | Done v => out (attempts_of r) = Returned v
     | Reraised e => out (attempts_of r) = Raised e /\ retryable p e = false
     | RetryError e =>
         out (attempts_of r) = Raised e /\ retryable p e = true
         /\ attempts_of r = k + left
     end.
Proof.
  intros Hout. revert k st sleeps.
  induction left as [|left IH]; intros k st sleeps; simpl.
  - pose proof (Hout k st) as Hk. destruct (op k st) as [[v|e] st']; simpl in *.
    + rewrite Nat.sub_diag, app_nil_r. split_and!; [lia|lia|done| |done].
      intros j Hj. lia.
    + destruct (retryable p e) eqn:Hr; simpl;
        rewrite Nat.sub_diag, app_nil_r; split_and!; try done; try lia;
        intros j Hj; lia.
  - pose proof (Hout k st) as Hk. destruct (op k st) as [[v|e] st']; simpl in *.
    + rewrite Nat.sub_diag, app_nil_r. split_and!; [lia|lia|done| |done].
      intros j Hj. lia.
    + destruct (retryable p e) eqn:Hr; simpl.
      * destruct (IH (S k) st' (sleeps ++ [wait p k])) as (Ha & Hs & Hretried & Hend).
        split_and!; [lia|lia| | |].
        -- rewrite Hs, <- app_assoc. f_equal.
           replace (attempts_of (attempt_loop p op left (S k) st' (sleeps ++ [wait p k])) - k)
             with (S (attempts_of (attempt_loop p op left (S k) st' (sleeps ++ [wait p k]))
                      - S k)) by lia.
           done.
        -- intros j Hj. destruct (decide (j = k)) as [->|Hne]; [by exists e|].
           apply Hretried. lia.
        -- destruct (ending_of _); [done|done|].
           destruct Hend as (? & ? & Hlast). split_and!; [done|done|lia].
      * rewrite Nat.sub_diag, app_nil_r. split_and!; try done; try lia.
        intros j Hj. lia.
Qed.

(** The state a run ends in keeps what every attempt keeps. *)
Lemma attempt_loop_state p op (left k : nat) (st : St) (sleeps : list Z)
    (P : St -> Prop) :
  (forall j s, P s -> P (op j s).2) -> P st ->
  P (state_of (attempt_loop p op left k st sleeps)).
Proof.
  intros Hop. revert k st sleeps.
  induction left as [|left IH]; intros k st sleeps Hst; simpl.
  - pose proof (Hop k st Hst) as Hk. destruct (op k st) as [[v|e] st']; simpl in *; [done|].
    by destruct (retryable p e).
  - pose proof (Hop k st Hst) as Hk. destruct (op k st) as [[v|e] st']; simpl in *; [done|].
    destruct (retryable p e); simpl; [|done]. by apply IH.
Qed.

(** How a run ends depends on the outcomes alone. *)
Lemma attempt_loop_ending {St'} p op (op' : nat -> St' -> outcome V E * St')
    (left k : nat) (st : St) (st' : St') (sleeps sleeps' : list Z) :
  (forall j s s', (op j s).1 = (op' j s').1) ->
  ending_of (attempt_loop p op left k st sleeps)
  = ending_of (attempt_loop p op' left k st' sleeps').
Proof.
  intros Hop. revert k st st' sleeps sleeps'.
  induction left as [|left IH]; intros k st st' sleeps sleeps'; simpl;
    pose proof (Hop k st st') as Hk;
    destruct (op k st) as [[v|e] s1], (op' k st') as [[v'|e'] s1'];
    simpl in *; simplify_eq; try done.
  - by destruct (retryable p e').
  - destruct (retryable p e'); simpl; [|done]. apply IH.
Qed.

Lemma wait_first_two p (k : nat) :
  multiplier p = 1%Z -> min_wait p = 2%Z -> 1 <= k <= 2 -> wait p k = 2%Z.
Proof.
  intros Hm Hmin Hk. unfold wait. rewrite Hm, Hmin.
  assert (k = 1 \/ k = 2) as [-> | ->] by lia; simpl; lia.
Qed.

Lemma retrying_sleeps p op (st : St) :
  sleeps_of (retrying p op st) = wait p <$> seq 1 (attempts_of (retrying p op st) - 1).
Proof.
  unfold retrying.
  assert (forall left k (s : St) sleeps,
            sleeps_of (attempt_loop p op left k s sleeps)
            = sleeps ++ (wait p <$> seq k (attempts_of (attempt_loop p op left k s sleeps) - k))
            /\ k <= attempts_of (attempt_loop p op left k s sleeps) <= k + left) as H.
  { induction left as [|left IH]; intros k s sleeps; simpl.
    - destruct (op k s) as [[v|e] s']; [|destruct (retryable p e)]; simpl;
        rewrite Nat.sub_diag, app_nil_r; split; done || lia.
    - destruct (op k s) as [[v|e] s']; [|destruct (retryable p e)]; simpl;
        try (rewrite Nat.sub_diag, app_nil_r; split; done || lia).
      destruct (IH (S k) s' (sleeps ++ [wait p k])) as [Hs Ha].
      split; [|lia]. rewrite Hs, <- app_assoc. f_equal.
      replace (attempts_of (attempt_loop p op left (S k) s' (sleeps ++ [wait p k])) - k)
        with (S (attempts_of (attempt_loop p op left (S k) s' (sleeps ++ [wait p k]))
                 - S k)) by lia.
      done. }
  by destruct (H (max_attempt_number p - 1) 1 st []) as [-> _].
Qed.

Lemma retrying_attempts p op (st : St) :
  1 <= attempts_of (retrying p op st) <= 1 + (max_attempt_number p - 1).
Proof.
  unfold retrying. generalize (max_attempt_number p - 1) as left.
  generalize 1 as k. generalize (@nil Z) as sleeps. revert st.
  intros st sleeps k left. revert st sleeps k.
  induction left as [|left IH]; intros st sleeps k; simpl.
  - destruct (op k st) as [[v|e] s']; [|destruct (retryable p e)]; simpl; lia.
  - destruct (op k st) as [[v|e] s']; [|destruct (retryable p e)]; simpl; try lia.
    specialize (IH s' (sleeps ++ [wait p k]) (S k)). lia.
Qed.

End RetryFacts.

Section Backoff.
Import Tenacity RetrySpec ECBPDFDownloader.

(** C9, as the code has it.  A retried operation sleeps once after each
    failed attempt that another attempt follows, and the sleep after
    attempt [k] is [multiplier * 2^(k-1)] seconds kept between [min]
    and [max].  With multiplier 1, a minimum of 2 seconds and no more
    than three attempts, as for the primary direct-fetch transport,
    every sleep is the minimum. *)
Theorem retry_sleeps {St V E} (p : policy E) (op : nat -> St -> outcome V E * St)
    (st : St) :
  sleeps_of (retrying p op st) = wait p <$> seq 1 (attempts_of (retrying p op st) - 1)
  /\ (forall k,
        wait p k
        = Z.max (Z.max 0 (min_wait p))
                (Z.min (multiplier p * 2 ^ (Z.of_nat k - 1)) (max_wait p)))
  /\ (multiplier p = 1%Z -> min_wait p = 2%Z -> max_attempt_number p <= 3 ->
      Forall (fun s => s = min_wait p) (sleeps_of (retrying p op st)))
  /\ (forall (fetch_op : nat -> gmap string file -> outcome bool exception * gmap string file)
             (dir : gmap string file),
        Forall (fun s => s = 2%Z) (sleeps_of (retrying aiohttp_policy fetch_op dir))).
Proof.
  assert (forall St' V' E' (q : policy E') (op' : nat -> St' -> outcome V' E' * St') st',
            multiplier q = 1%Z -> min_wait q = 2%Z -> max_attempt_number q <= 3 ->
            Forall (fun s => s = 2%Z) (sleeps_of (retrying q op' st'))) as Hmin.
  { intros St' V' E' q op' st' Hm Hmin Hmax. rewrite retrying_sleeps.
    pose proof (retrying_attempts q op' st') as Ha.
    apply Forall_fmap, Forall_forall. intros k Hk%elem_of_seq. simpl.
    apply wait_first_two; [done|done|lia]. }
  split_and!.
  - apply retrying_sleeps.
  - done.
  - intros Hm Hm2 Hmax. rewrite Hm2. by apply Hmin.
  - intros fetch_op dir. by apply Hmin.
Qed.

Lemma retry_sleeps_witness :
  Forall (fun s => s = 2%Z)
    (sleeps_of (retrying requests_policy
                  (download_pdf_with_requests (fun _ => BadStatus 503) "a.pdf") ∅)).
Proof.
  destruct (retry_sleeps requests_policy
              (download_pdf_with_requests (fun _ => BadStatus 503) "a.pdf") ∅)
    as (_ & _ & H & _).
  apply H; [reflexivity|reflexivity|simpl; lia].
Defined.

(** A call site where the second sleep is not what the formula of the
    specification gives: the page height is measured with a minimum of
    1 second, and after the second failure the sleep is 2 seconds. *)
Lemma page_height_second_sleep :
  sleeps_of (retrying (ECBScraper.get_page_height_policy (E := unit))
               (fun _ st => (Raised tt : outcome unit unit, st)) tt)
  = [1%Z; 2%Z]
  /\ specified_sleep (ECBScraper.get_page_height_policy (E := unit)) 2 = 1%Z.
Proof. split; vm_compute; reflexivity. Qed.

End Backoff.
(** ** Direct fetch with fallback *)

Section Download.
Import Tenacity ECBPDFDownloader DownloadSpec.

Lemma download_pdf_with_aiohttp_outcome (net : nat -> fetch) (filename : string)
    (k : nat) (dir : gmap string file) :
  (download_pdf_with_aiohttp net filename k dir).1 = aiohttp_outcome (net k).
Proof. unfold download_pdf_with_aiohttp. by destruct (net k). Qed.

Lemma download_pdf_with_requests_outcome (net : nat -> fetch) (filename : string)
    (k : nat) (dir : gmap string file) :
  (download_pdf_with_requests net filename k dir).1 = requests_outcome (net k).
Proof. unfold download_pdf_with_requests. by destruct (net k). Qed.

(** A run of the primary transport that does not succeed has used its
    three attempts on transport errors, or has met another error. *)
Lemma aiohttp_failed (primary : nat -> fetch) (filename : string)
    (dir : gmap string file) :
  let a := retrying aiohttp_policy (download_pdf_with_aiohttp primary filename) dir in
  succeeded a = false ->
  (attempts_of a = 3
   /\ forall k, 1 <= k <= 3 ->
        exists e, aiohttp_outcome (primary k) = Raised e /\ transport_error e = true)
  \/ (exists e, ending_of a = Reraised e /\ transport_error e = false
                /\ aiohttp_outcome (primary (attempts_of a)) = Raised e
                /\ 1 <= attempts_of a <= 3
                /\ forall k, 1 <= k < attempts_of a ->
                     exists e', aiohttp_outcome (primary k) = Raised e'
                                /\ transport_error e' = true).
Proof.
  intros a. subst a. unfold succeeded, retrying.
  destruct (attempt_loop_spec aiohttp_policy (download_pdf_with_aiohttp primary filename)
              (fun k => aiohttp_outcome (primary k)) (3 - 1) 1 dir [])
    as (Ha & _ & Hretried & Hend).
  { intros j s. apply download_pdf_with_aiohttp_outcome. }
  simpl in *. destruct (ending_of _) as [v|e|e]; [done| |]; intros _.
  - right. destruct Hend as [Hout Hr]. exists e. split_and!; [done|done|done|lia|lia|].
    intros k Hk. by apply Hretried.
  - left. destruct Hend as (Hout & Hr & Hn). split; [done|].
    intros k Hk. destruct (decide (k = 3)) as [->|Hne].
    + exists e. rewrite <- Hn. done.
    + apply Hretried. lia.
Qed.

(** A run of the fallback transport that does not succeed has used
    its two attempts. *)
Lemma requests_failed (fallback : nat -> fetch) (filename : string)
    (dir : gmap string file) :
  let b := retrying requests_policy (download_pdf_with_requests fallback filename) dir in
  succeeded b = false ->
  attempts_of b = 2
  /\ (exists e, ending_of b = RetryError e)
  /\ forall k, 1 <= k <= 2 -> exists e, requests_outcome (fallback k) = Raised e.
Proof.
  intros b. subst b. unfold succeeded, retrying.
  destruct (attempt_loop_spec requests_policy (download_pdf_with_requests fallback filename)
              (fun k => requests_outcome (fallback k)) (2 - 1) 1 dir [])
    as (Ha & _ & Hretried & Hend).
  { intros j s. apply download_pdf_with_requests_outcome. }
  simpl in *. destruct (ending_of _) as [v|e|e]; [done| |]; intros _.
  - by destruct Hend as [_ ?].
  - destruct Hend as (Hout & Hr & Hn). split_and!; [done|by exists e|].
    intros k Hk. destruct (decide (k = 2)) as [->|Hne].
    + exists e. by rewrite <- Hn.
    + destruct (Hretried k) as (e' & He' & _); [lia|]. by exists e'.
Qed.

Lemma download_pdf_cases (primary fallback : nat -> fetch) (filename : string)
    (dir : gmap string file) :
  let a := retrying aiohttp_policy (download_pdf_with_aiohttp primary filename) dir in
  let b := retrying requests_policy (download_pdf_with_requests fallback filename)
             (state_of a) in
  download_pdf primary fallback filename dir
  = if succeeded a then Download true a None else Download (succeeded b) a (Some b).
Proof.
  intros a b. unfold download_pdf, succeeded. fold a. fold b.
  destruct (ending_of a); [done|..]; by destruct (ending_of b).
Qed.

(** C6, as the code has it.  [download_pdf] always returns a truth
    value.  It calls the fallback transport exactly when the primary
    transport has not succeeded, which is when its three attempts all
    raised transport errors, or when an attempt raised an error of
    another class, which ends the primary transport at once.  It returns
    true when one of the two transports succeeds, and false exactly when
    the primary transport has not succeeded and the fallback transport
    has failed in both of its two attempts. *)
Theorem download_pdf_fallback (primary fallback : nat -> fetch) (filename : string)
    (dir : gmap string file) :
  let d := download_pdf primary fallback filename dir in
  let a := primary_run d in
  a = retrying aiohttp_policy (download_pdf_with_aiohttp primary filename) dir
  /\ (fallback_run d = None <-> succeeded a = true)
  /\ (forall b, fallback_run d = Some b ->
        b = retrying requests_policy (download_pdf_with_requests fallback filename)
              (state_of a)
        /\ ((attempts_of a = 3
             /\ forall k, 1 <= k <= 3 ->
                  exists e, aiohttp_outcome (primary k) = Raised e
                            /\ transport_error e = true)
            \/ (exists e, ending_of a = Reraised e /\ transport_error e = false
                          /\ aiohttp_outcome (primary (attempts_of a)) = Raised e
                          /\ 1 <= attempts_of a <= 3
                          /\ forall k, 1 <= k < attempts_of a ->
                               exists e', aiohttp_outcome (primary k) = Raised e'
                                          /\ transport_error e' = true)))
  /\ (returned d = true <->
      succeeded a = true \/ exists b, fallback_run d = Some b /\ succeeded b = true)
  /\ (returned d = false <->
      succeeded a = false
      /\ exists b, fallback_run d = Some b /\ succeeded b = false /\ attempts_of b = 2
                   /\ forall k, 1 <= k <= 2 ->
                        exists e, requests_outcome (fallback k) = Raised e).
Proof.
  intros d a. subst d a. rewrite download_pdf_cases.
  pose proof (aiohttp_failed primary filename dir) as Hprimary.
  set (a := retrying aiohttp_policy (download_pdf_with_aiohttp primary filename) dir) in *.
  pose proof (requests_failed fallback filename (state_of a)) as Hfallback.
  set (b := retrying requests_policy (download_pdf_with_requests fallback filename)
              (state_of a)) in *.
  simpl in Hprimary, Hfallback.
  destruct (succeeded a) eqn:Sa; simpl; rewrite ?Sa.
  - split_and!; [done|done|by intros ? [=]| |].
    + split; [by left|done].
    + split; [done|]. by intros [? _].
  - split_and!; [done|by split| | |].
    + intros ? [= <-]. split; [done|]. by apply Hprimary.
    + split.
      * intros Hb. right. by exists b.
      * by intros [?|(b' & [= <-] & ?)].
    + split.
      * intros Hb. split; [done|]. exists b.
        destruct (Hfallback Hb) as (? & _ & ?). by split_and!.
      * by intros [_ (b' & [= <-] & ? & _)].
Qed.

Lemma download_pdf_fallback_witness :
  returned (download_pdf (fun _ => BadStatus 503)
              (fun k => if decide (k = 2) then Fetched "%PDF" else Failure OSError)
              "a.pdf" ∅)
  = true.
Proof.
  destruct (download_pdf_fallback (fun _ => BadStatus 503)
              (fun k => if decide (k = 2) then Fetched "%PDF" else Failure OSError)
              "a.pdf" ∅) as (_ & _ & _ & H & _).
  apply H. right. eexists. split; reflexivity.
Defined.

(** A download whose fallback transport is called after a single
    attempt of the primary transport, and one that returns false with
    two of the three primary attempts unused: the first primary attempt
    raises an error that is no transport error. *)
Lemma fallback_after_one_attempt :
  let d := download_pdf (fun _ => Failure OtherError) (fun _ => Fetched "%PDF")
             "a.pdf" ∅ in
  let d' := download_pdf (fun _ => Failure OtherError) (fun _ => BadStatus 404)
              "a.pdf" ∅ in
  is_Some (fallback_run d) /\ attempts_of (primary_run d) = 1 /\ returned d = true
  /\ attempts_of (primary_run d') = 1 /\ returned d' = false.
Proof. vm_compute. split_and!; eauto. Qed.

End Download.
(** ** Processing the records *)

Section Process.
Import Tenacity PyStr ProcessSpec DownloadSpec ECBPDFDownloader Samples.

Lemma sidecars_insert_document (dir : gmap string file) (name body : string) :
  sidecars dir !! name = None ->
  sidecars (<[ name := Document body ]> dir) = sidecars dir.
Proof. intros H. unfold sidecars in *. by rewrite omap_insert_None, delete_id. Qed.

Lemma sidecars_insert_sidecar (dir : gmap string file) (name : string) (m : metadata) :
  sidecars (<[ name := Sidecar m ]> dir) = <[ name := m ]> (sidecars dir).
Proof. unfold sidecars. by rewrite (omap_insert_Some _ _ _ _ m). Qed.

Lemma sidecars_fresh (dir : gmap string file) (name : string) :
  dir !! name = None -> sidecars dir !! name = None.
Proof. intros H. unfold sidecars. by rewrite lookup_omap, H. Qed.

(** Retrieval writes documents under the name it is given, and nothing
    else. *)
Lemma fetch_attempts_keep_sidecars (p : policy exception) (V : Type)
    (op : nat -> gmap string file -> outcome V exception * gmap string file)
    (dir st : gmap string file) (name : string) :
  (forall k s, (op k s).2 = s \/ exists body, (op k s).2 = <[ name := Document body ]> s) ->
  sidecars dir !! name = None ->
  sidecars st = sidecars dir ->
  sidecars (state_of (retrying p op st)) = sidecars dir.
Proof.
  intros Hop Hfresh Hst. unfold retrying.
  apply (attempt_loop_state p op _ _ _ _ (fun s => sidecars s = sidecars dir)); [|done].
  intros k s Hs. destruct (Hop k s) as [->|[body ->]]; [done|].
  rewrite sidecars_insert_document; [done|]. by rewrite Hs.
Qed.

Lemma download_pdf_with_aiohttp_state (net : nat -> fetch) (name : string) (k : nat)
    (s : gmap string file) :
  (download_pdf_with_aiohttp net name k s).2 = s
  \/ exists body, (download_pdf_with_aiohttp net name k s).2 = <[ name := Document body ]> s.
Proof. unfold download_pdf_with_aiohttp. destruct (net k); simpl; eauto. Qed.

Lemma download_pdf_with_requests_state (net : nat -> fetch) (name : string) (k : nat)
    (s : gmap string file) :
  (download_pdf_with_requests net name k s).2 = s
  \/ exists body, (download_pdf_with_requests net name k s).2 = <[ name := Document body ]> s.
Proof. unfold download_pdf_with_requests. destruct (net k); simpl; eauto. Qed.

Lemma generate_pdf_from_page_state (br : browser) (name : string) (k : nat)
    (s : gmap string file) :
  (generate_pdf_from_page br name k s).2 = s
  \/ exists body, (generate_pdf_from_page br name k s).2 = <[ name := Document body ]> s.
Proof. unfold generate_pdf_from_page. destruct (print_pdf br k); simpl; eauto. Qed.

Lemma retrieve_keeps_sidecars (w : world) (url name : string) (dir : gmap string file) :
  sidecars dir !! name = None ->
  sidecars (retrieve w url name dir).2 = sidecars dir.
Proof.
  intros Hfresh. unfold retrieve. destruct (endswith ".pdf" (lower url)).
  - simpl. rewrite download_pdf_cases. simpl.
    set (a := retrying aiohttp_policy _ dir).
    assert (sidecars (state_of a) = sidecars dir) as Ha.
    { apply fetch_attempts_keep_sidecars with (name := name); [|done|done].
      apply download_pdf_with_aiohttp_state. }
    destruct (succeeded a); unfold directory_after; simpl; [done|].
    apply fetch_attempts_keep_sidecars with (name := name); [|done|done].
    apply download_pdf_with_requests_state.
  - unfold html_to_pdf. destruct (new_page (chromium w)); [done|].
    destruct (ending_of (retrying browser_policy _ dir)); [|done..].
    assert (sidecars (state_of (retrying browser_policy
                                  (generate_pdf_from_page (chromium w) name) dir))
            = sidecars dir) as Hp.
    { apply fetch_attempts_keep_sidecars with (name := name); [|done|done].
      apply generate_pdf_from_page_state. }
    destruct (ending_of (retrying browser_policy (generate_pdf_from_page _ _) dir));
      [|done..].
    by destruct (close_page (chromium w)).
Qed.

(** Whether a retrieval succeeds is for the world to decide. *)
Lemma retrying_ending {St St' V} (p : policy exception)
    (op : nat -> St -> outcome V exception * St)
    (op' : nat -> St' -> outcome V exception * St') (st : St) (st' : St') :
  (forall j s s', (op j s).1 = (op' j s').1) ->
  ending_of (retrying p op st) = ending_of (retrying p op' st').
Proof. intros H. unfold retrying. by apply attempt_loop_ending. Qed.

Lemma retrieve_success (w : world) (url name : string) (dir : gmap string file) :
  (retrieve w url name dir).1.1 = retrieval_succeeds w url.
Proof.
  unfold retrieval_succeeds, retrieve. destruct (endswith ".pdf" (lower url)).
  - simpl. rewrite !download_pdf_cases. simpl. unfold succeeded.
    rewrite (retrying_ending aiohttp_policy
               (download_pdf_with_aiohttp (primary w) name)
               (download_pdf_with_aiohttp (primary w) EmptyString) dir (∅ : gmap string file)).
    2:{ intros. by rewrite !download_pdf_with_aiohttp_outcome. }
    destruct (ending_of (retrying aiohttp_policy _ ∅)); [done|..]; simpl;
      by rewrite (retrying_ending requests_policy
                    (download_pdf_with_requests (fallback w) name)
                    (download_pdf_with_requests (fallback w) EmptyString) _
                    (state_of (retrying aiohttp_policy
                                 (download_pdf_with_aiohttp (primary w) EmptyString) ∅)))
        by (intros; by rewrite !download_pdf_with_requests_outcome).
  - unfold html_to_pdf. destruct (new_page (chromium w)); [done|].
    rewrite (retrying_ending browser_policy
               (fun n st => (navigate (chromium w) n, st))
               (fun n st => (navigate (chromium w) n, st)) dir (∅ : gmap string file)) by done.
    destruct (ending_of (retrying browser_policy _ ∅)); [|done..].
    rewrite (retrying_ending browser_policy
               (generate_pdf_from_page (chromium w) name)
               (generate_pdf_from_page (chromium w) EmptyString) dir (∅ : gmap string file)).
    2:{ intros. unfold generate_pdf_from_page. by destruct (print_pdf _ _). }
    destruct (ending_of (retrying browser_policy (generate_pdf_from_page _ _) ∅));
      [|done..].
    by destruct (close_page (chromium w)).
Qed.

(** The names of a record. *)
Lemma names_resolve_cases (w : world) (dir : gmap string file) (date title : string) :
  let base := generate_filename date title 0 in
  (exists pdf json,
     check_duplicate_filename (stat_refuses w) dir base "pdf" = Some (Returned pdf)
     /\ check_duplicate_filename (stat_refuses w) dir base "json" = Some (Returned json)
     /\ dir !! pdf = None /\ dir !! json = None
     /\ names_resolve w dir date title = true)
  \/ (names_resolve w dir date title = false
      /\ forall url, process_publication w dir date title url = Some (Raised OSError, dir)).
Proof.
  intros base. unfold names_resolve, process_publication. fold base.
  destruct (check_duplicate_filename_least (stat_refuses w) dir base "pdf")
    as (n & _ & _ & [(_ & Hfn & ->)|(_ & ->)]); [|by right].
  destruct (check_duplicate_filename_least (stat_refuses w) dir base "json")
    as (k & _ & _ & [(_ & Hfk & ->)|(_ & ->)]); [|by right].
  left. by eexists _, _.
Qed.

Lemma names_resolve_accepted (w : world) (dir : gmap string file) (date title : string) :
  (forall name, stat_refuses w name = false) -> names_resolve w dir date title = true.
Proof.
  intros Hacc. unfold names_resolve.
  destruct (check_duplicate_filename_accepted (stat_refuses w) dir
              (generate_filename date title 0) "pdf") as (n & -> & _); [done|].
  by destruct (check_duplicate_filename_accepted (stat_refuses w) dir
                 (generate_filename date title 0) "json") as (k & -> & _).
Qed.

(** One record. *)
Lemma process_publication_spec (w : world) (dir : gmap string file)
    (date title url : string) :
  exists result dir',
    process_publication w dir date title url = Some (result, dir')
    /\ result = (if names_resolve w dir date title
                 then Returned (retrieval_succeeds w url) else Raised OSError)
    /\ (result = Returned true ->
        exists json_filename m,
          dir !! json_filename = None
          /\ sidecars dir' = <[ json_filename := m ]> (sidecars dir)
          /\ source_uri m = url /\ publication_title m = title)
    /\ (result <> Returned true -> sidecars dir' = sidecars dir)
    /\ (names_resolve w dir date title = false -> dir' = dir).
Proof.
  destruct (names_resolve_cases w dir date title)
    as [(pdf & json & Hpdf & Hjson & Hfp & Hfj & ->)|[-> Hraise]].
  - unfold process_publication. rewrite Hpdf, Hjson.
    pose proof (retrieve_success w url pdf dir) as Hs.
    pose proof (retrieve_keeps_sidecars w url pdf dir (sidecars_fresh _ _ Hfp)) as Hk.
    destruct (retrieve w url pdf dir) as [[success creator_name] dir1]. simpl in *.
    subst success. destruct (retrieval_succeeds w url).
    + eexists _, _. split_and!; [done|done| |done|done]. intros _.
      eexists json, _. split; [done|]. unfold save_metadata.
      rewrite sidecars_insert_sidecar, Hk. by split_and!.
    + exists (Returned false), dir1. by split_and!.
  - exists (Raised OSError), dir. by split_and!.
Qed.

(** The loop over the records. *)
Lemma publication_loop_spec (worlds : nat -> world) (i : nat)
    (publications : list (string * string * string)) (s : summary) :
  exists s',
    publication_loop worlds i publications s = Some s'
    /\ successful s' + failed s' = successful s + failed s + length publications
    /\ successful s <= successful s'
    /\ size (sidecars (directory s'))
       = size (sidecars (directory s)) + (successful s' - successful s)
    /\ successful s' <= successful s + succeeded_records worlds i publications
    /\ ((forall j name, stat_refuses (worlds j) name = false) ->
        successful s' = successful s + succeeded_records worlds i publications).
Proof.
  revert i s. induction publications as [|[[date title] url] pubs IH]; intros i s.
  - exists s. simpl. split_and!; [done|lia|lia|lia|lia|lia].
  - cbn [publication_loop succeeded_records length].
    destruct (process_publication_spec (worlds i) (directory s) date title url)
      as (result & dir' & -> & Hres & Hyes & Hno & _).
    pose proof (names_resolve_accepted (worlds i) (directory s) date title) as Hacc.
    destruct (names_resolve (worlds i) (directory s) date title) eqn:Hnames;
      subst result.
    + destruct (retrieval_succeeds (worlds i) url).
      * destruct (Hyes eq_refl) as (json & m & Hfresh & Hside & _).
        destruct (IH (S i) (Summary (S (successful s)) (failed s) dir'))
          as (s' & -> & H1 & H2 & H3 & H4 & H5).
        exists s'. simpl in *. split_and!; [done|lia|lia| |lia|].
        { rewrite H3, Hside, map_size_insert_None by (by apply sidecars_fresh). lia. }
        { intros Hall. specialize (H5 Hall). lia. }
      * destruct (IH (S i) (Summary (successful s) (S (failed s)) dir'))
          as (s' & -> & H1 & H2 & H3 & H4 & H5).
        exists s'. simpl in *. split_and!; [done|lia|lia| |lia|].
        { rewrite H3, Hno by done. lia. }
        { intros Hall. specialize (H5 Hall). lia. }
    + cbv beta iota.
      destruct (IH (S i) (Summary (successful s) (S (failed s)) dir'))
        as (s' & -> & H1 & H2 & H3 & H4 & H5).
      exists s'. simpl in *. split_and!; [done|lia|lia| |lia|].
      { rewrite H3, Hno by done. lia. }
      { intros Hall. exfalso. assert (false = true) as Habs; [|done].
        apply Hacc. intros name. apply Hall. }
Qed.

(** C7. [process_publication] returns whether the retrieval of the
    record succeeded, when the two names of the record are resolved;
    when a name probed for them is refused, it raises, with nothing
    requested and nothing written.  When it returns that the retrieval
    succeeded, the directory has one new metadata sidecar, under a name
    that was free, for the url and the title of the record; in every
    other case the directory has the sidecars it had.
    [process_publications_file] goes through every record of the file,
    whatever happened to the records before it: it counts every record
    as successful or as failed, and adds one sidecar for each success.
    A record counted as successful is one whose retrieval succeeds, and
    with no name refused every such record is counted as successful. *)
Theorem sidecar_iff_retrieved (w : world) (dir : gmap string file)
    (date title url : string) :
  (exists result dir',
     process_publication w dir date title url = Some (result, dir')
     /\ result = (if names_resolve w dir date title
                  then Returned (retrieval_succeeds w url) else Raised OSError)
     /\ (result = Returned true ->
         exists json_filename m,
           dir !! json_filename = None
           /\ sidecars dir' = <[ json_filename := m ]> (sidecars dir)
           /\ source_uri m = url /\ publication_title m = title)
     /\ (result <> Returned true -> sidecars dir' = sidecars dir)
     /\ (names_resolve w dir date title = false -> dir' = dir))
  /\ (forall worlds content,
        exists s,
          process_publications_file worlds content dir = Some s
          /\ successful s + failed s = length (read_publications_file content)
          /\ size (sidecars (directory s)) = size (sidecars dir) + successful s
          /\ successful s <= succeeded_records worlds 1 (read_publications_file content)
          /\ ((forall i name, stat_refuses (worlds i) name = false) ->
              successful s
              = succeeded_records worlds 1 (read_publications_file content))).
Proof.
  split; [apply process_publication_spec|].
  intros worlds content. unfold process_publications_file.
  destruct (publication_loop_spec worlds 1 (read_publications_file content)
              (Summary 0 0 dir)) as (s & Hs & H1 & H2 & H3 & H4 & H5).
  exists s. simpl in *. split_and!; [done|lia|lia|lia|].
  intros Hall. specialize (H5 Hall). lia.
Qed.

Lemma sidecar_iff_retrieved_witness :
  exists s,
    process_publications_file (fun _ => sample_world)
      (Some "2024-05-01 | ECB publishes report | https://example.org/x.pdf") ∅ = Some s
    /\ successful s = 1 /\ failed s = 0 /\ size (sidecars (directory s)) = 1.
Proof.
  destruct (sidecar_iff_retrieved sample_world ∅ "2024-05-01" "ECB publishes report"
              "https://example.org/x.pdf") as [_ H].
  destruct (H (fun _ => sample_world)
              (Some "2024-05-01 | ECB publishes report | https://example.org/x.pdf"))
    as (s & Hs & H1 & H2 & _ & H3).
  exists s. split; [exact Hs|].
  assert (successful s = 1) as Hone by (rewrite H3; [vm_compute; reflexivity|done]).
  rewrite Hone in *.
  replace (size (sidecars ∅)) with 0 in H2
    by (unfold sidecars; by rewrite omap_empty, map_size_empty).
  change (length _) with 1 in H1.
  split_and!; [done|lia|lia].
Defined.

(** The end-to-end scenario of the specification. *)
Example end_to_end_report :
  process_publication sample_world ∅ "2024-05-01" "ECB publishes report"
    "https://example.org/x.pdf"
  = Some (Returned true,
          <[ "2024-05-01_ECB_publishes_report.json" :=
               Sidecar {| dataset_name := "Central Bank EUR";
                          dataset_code := "CB_EUR_ECB";
                          source_uri := "https://example.org/x.pdf";
                          created_at := "2024-05-02T10:00:00+00:00";
                          creator := EmptyString;
                          publisher := "European Central Bank";
                          publication_date := "2024-05-01T09:00:00+00:00";
                          publication_title := "ECB publishes report";
                          ingest_source := "CB_EUR_ECB_LDR";
                          category := "Report";
                          language := "English" |} ]>
            (<[ "2024-05-01_ECB_publishes_report.pdf" := Document "%PDF" ]> ∅)).
Proof.
  vm_cast_no_check
    (eq_refl (process_publication sample_world ∅ "2024-05-01" "ECB publishes report"
                "https://example.org/x.pdf")).
Qed.

(** A record whose names the file system refuses: its title is kept
    by [sanitize_filename] and makes a name of more than 255 bytes.  The
    document could be fetched, but the record is counted as failed, and
    nothing is requested or written. *)
Example long_title_counted_failed :
  retrieval_succeeds short_names_world "https://example.org/x.pdf" = true
  /\ process_publications_file (fun _ => short_names_world)
       (Some ("2024-05-01 | " +:+ long_title +:+ " | https://example.org/x.pdf")) ∅
     = Some (Summary 0 1 ∅).
Proof. split; vm_compute; reflexivity. Qed.

End Process.
(** ** Clean file names *)

Section Sanitize.
Import PyStr ReSpec SanitizeSpec ECBPDFDownloader.

Lemma sub_go_skip (r : Re.regex) (repl a b : string) :
  Re.sub_go r repl (String.length a) (a +:+ b) = Re.sub_go r repl 0 b.
Proof.
  induction a as [|c a IH]; [by destruct b|].
  rewrite app_cons_s. simpl. exact IH.
Qed.

Lemma lstrip_by_split (cls : ascii -> bool) (s : string) :
  exists w, s = w +:+ lstrip_by cls s /\ all_in cls w = true.
Proof.
  induction s as [|c s (w & IH & Hw)]; [by exists EmptyString|]. simpl.
  destruct (cls c) eqn:Hc.
  - exists (String c w). rewrite app_cons_s, <- IH. simpl. by rewrite Hc.
  - by exists EmptyString.
Qed.

Lemma lstrip_by_head (cls : ascii -> bool) (s : string) :
  match lstrip_by cls s with
  | EmptyString => True
  | String c _ => cls c = false
  end.
Proof.
  induction s as [|c s IH]; [done|]. simpl. destruct (cls c) eqn:Hc; [done|]. done.
Qed.

Lemma lstrip_by_length (cls : ascii -> bool) (s : string) :
  String.length (lstrip_by cls s) <= String.length s.
Proof.
  induction s as [|c s IH]; [done|]. simpl. destruct (cls c); simpl; lia.
Qed.

(** The substitution of a single character of a class. *)
Lemma sub_one_cons (cls : ascii -> bool) (repl : string) (c : ascii) (s : string) :
  Re.sub [Re.Rep cls 1 (Some 1)] repl (String c s)
  = if cls c then repl +:+ Re.sub [Re.Rep cls 1 (Some 1)] repl s
    else String c (Re.sub [Re.Rep cls 1 (Some 1)] repl s).
Proof.
  unfold Re.sub. cbn [Re.sub_go].
  destruct (cls c) eqn:Hc.
  - change (String c s) with (String c EmptyString +:+ s).
    rewrite (match_here_rep cls 1 (Some 1) [] (String c EmptyString) s [] s);
      [|by simpl; rewrite Hc|simpl; lia|simpl; lia|by left|done].
    done.
  - assert (Re.match_here [Re.Rep cls 1 (Some 1)] (String c s) = None) as ->; [|done].
    simpl. by rewrite Hc.
Qed.

(** The substitution of a run of characters of a class. *)
Lemma sub_plus_cons (cls : ascii -> bool) (repl : string) (c : ascii) (s : string) :
  Re.sub [Re.plus cls] repl (String c s)
  = if cls c then repl +:+ Re.sub [Re.plus cls] repl (lstrip_by cls s)
    else String c (Re.sub [Re.plus cls] repl s).
Proof.
  unfold Re.sub, Re.plus. cbn [Re.sub_go].
  destruct (cls c) eqn:Hc.
  - destruct (lstrip_by_split cls s) as (w & Hs & Hw).
    assert (Re.match_here [Re.Rep cls 1 None] (String c s)
            = Some ([String c w], lstrip_by cls s)) as ->.
    { rewrite Hs at 1. rewrite <- app_cons_s.
      apply match_here_rep; [by simpl; rewrite Hc|simpl; lia|done| |done].
      right. apply lstrip_by_head. }
    cbn [Re.concat_pieces]. rewrite app_nil_r_s. cbn [String.length].
    f_equal. rewrite <- (sub_go_skip _ _ w). by rewrite <- Hs.
  - assert (Re.match_here [Re.Rep cls 1 None] (String c s) = None) as ->; [|done].
    simpl. by rewrite Hc.
Qed.

Lemma all_in_lstrip_by (cls : ascii -> bool) (s : string) :
  all_in cls (lstrip_by cls s) = all_in cls s.
Proof.
  induction s as [|c s IH]; [done|]. simpl. destruct (cls c) eqn:Hc; [done|].
  simpl. by rewrite Hc.
Qed.

Lemma lstrip_by_id (cls : ascii -> bool) (s : string) :
  match s with EmptyString => True | String c _ => cls c = false end ->
  lstrip_by cls s = s.
Proof. destruct s as [|c s]; [done|]. simpl. by intros ->. Qed.

Lemma rstrip_by_split (cls : ascii -> bool) (s : string) :
  exists w, s = rstrip_by cls s +:+ w /\ all_in cls w = true.
Proof.
  induction s as [|c s (w & IH & Hw)]; [by exists EmptyString|]. simpl.
  destruct (rstrip_by cls s) as [|d r] eqn:E.
  - rewrite app_nil_l_s in IH. subst w. destruct (cls c) eqn:Hc.
    + exists (String c s). simpl. by rewrite Hc.
    + by exists s.
  - exists w. by rewrite !app_cons_s, <- app_cons_s, <- IH.
Qed.

Lemma rstrip_by_tail (cls : ascii -> bool) (s : string) :
  rstrip_by cls s = EmptyString \/ ends_outside cls (rstrip_by cls s) = true.
Proof.
  induction s as [|c s IH]; [by left|]. simpl.
  destruct (rstrip_by cls s) as [|d r] eqn:E.
  - destruct (cls c) eqn:Hc; [by left|right]. simpl. by rewrite Hc.
  - right. destruct IH as [IH|IH]; [done|]. done.
Qed.

Lemma rstrip_by_head (cls : ascii -> bool) (c : ascii) (s : string) :
  cls c = false -> exists r, rstrip_by cls (String c s) = String c r.
Proof.
  intros Hc. simpl. destruct (rstrip_by cls s); [|by eexists].
  rewrite Hc. by eexists.
Qed.

Lemma ends_outside_snoc (cls : ascii -> bool) (a : string) (c : ascii) :
  ends_outside cls (a +:+ String c EmptyString) = negb (cls c).
Proof.
  induction a as [|d a IH]; [done|]. rewrite app_cons_s.
  destruct a as [|e a]; [done|]. rewrite app_cons_s in *. exact IH.
Qed.

Lemma endswith_spec (p s : string) :
  endswith p s = true <-> exists a, s = a +:+ p.
Proof.
  unfold endswith. split.
  - intros [Hl Hp]%andb_true_iff. apply String.eqb_eq in Hp.
    exists (slice_to (String.length s - String.length p) s).
    rewrite <- Hp at 2. by rewrite slice_to_from.
  - intros [a ->]. rewrite length_app_s. apply andb_true_iff. split.
    + apply Nat.leb_le. lia.
    + replace (String.length a + String.length p - String.length p)
        with (String.length a) by lia.
      rewrite slice_from_app. apply String.eqb_refl.
Qed.

Lemma endswith_underscore (s : string) :
  endswith "_" s = false <-> s = EmptyString \/ ends_outside underscore s = true.
Proof.
  split.
  - intros H. destruct s as [|c s]; [by left|right].
    destruct (ends_outside underscore (String c s)) eqn:E; [done|].
    assert (endswith "_" (String c s) = true) as Ht; [|congruence].
    apply endswith_spec. clear H.
    revert c E. induction s as [|d s IH]; intros c E.
    + simpl in E. apply negb_false_iff in E. apply Ascii.eqb_eq in E as ->.
      by exists EmptyString.
    + destruct (IH d) as [a Ha]; [done|]. exists (String c a).
      by rewrite app_cons_s, <- Ha.
  - intros [->|H]; [done|].
    destruct (endswith "_" s) eqn:E; [|done].
    apply endswith_spec in E as [a ->]. by rewrite ends_outside_snoc in H.
Qed.

Lemma startswith_underscore (s : string) :
  startswith "_" s = false <->
  match s with EmptyString => True | String c _ => underscore c = false end.
Proof.
  destruct s as [|c s]; [done|]. unfold underscore. simpl.
  by rewrite andb_true_r, Ascii.eqb_sym.
Qed.

Lemma startswith_prefix (a b : string) :
  startswith "_" (a +:+ b) = false -> startswith "_" a = false.
Proof. destruct a as [|c a]; [done|]. by rewrite app_cons_s. Qed.

Lemma contains_prefix (needle a b : string) :
  contains needle (a +:+ b) = false -> contains needle a = false.
Proof.
  intros H. destruct (contains needle a) eqn:E; [|done].
  apply contains_spec in E as (x & y & ->).
  assert (contains needle ((x +:+ needle +:+ y) +:+ b) = true) as Ht; [|congruence].
  apply contains_spec. exists x, (y +:+ b). by rewrite !app_assoc_s.
Qed.

Lemma contains_suffix (needle a b : string) :
  contains needle (a +:+ b) = false -> contains needle b = false.
Proof.
  intros H. destruct (contains needle b) eqn:E; [|done].
  apply contains_spec in E as (x & y & ->).
  assert (contains needle (a +:+ x +:+ needle +:+ y) = true) as Ht; [|congruence].
  apply contains_spec. exists (a +:+ x), y. by rewrite !app_assoc_s.
Qed.

Lemma contains_run_cons (c : ascii) (s : string) :
  contains "__" (String c s) = underscore c && startswith "_" s || contains "__" s.
Proof.
  unfold underscore. cbn [contains]. by f_equal.
Qed.

Lemma underscore_plain (c : ascii) : underscore c = true -> plain c = true.
Proof. unfold underscore. by intros ->%Ascii.eqb_eq. Qed.

(** *** The two substitutions *)

Lemma sub_special_plain (t : string) :
  all_in plain (Re.sub [Re.Rep special_chars 1 (Some 1)] "_" t) = true.
Proof.
  induction t as [|c t IH]; [done|]. rewrite sub_one_cons.
  destruct (special_chars c) eqn:Hc.
  - by rewrite all_in_app, IH.
  - simpl. unfold plain at 1. by rewrite Hc, IH.
Qed.

Lemma sub_special_underscores (t : string) :
  all_in underscore (Re.sub [Re.Rep special_chars 1 (Some 1)] "_" t)
  = all_in dropped t.
Proof.
  induction t as [|c t IH]; [done|]. rewrite sub_one_cons. unfold dropped at 1. simpl.
  destruct (special_chars c) eqn:Hc.
  - by rewrite all_in_app, IH.
  - simpl. by rewrite IH.
Qed.

Lemma sub_one_id (cls : ascii -> bool) (repl s : string) :
  all_in (fun c => negb (cls c)) s = true ->
  Re.sub [Re.Rep cls 1 (Some 1)] repl s = s.
Proof.
  induction s as [|c s IH]; [done|]. simpl.
  intros [Hc Hs]%andb_true_iff. rewrite sub_one_cons.
  apply negb_true_iff in Hc. rewrite Hc. by rewrite IH.
Qed.

Lemma sub_runs_length_ind (P : string -> Prop) :
  (forall s, (forall s', String.length s' < String.length s -> P s') -> P s) ->
  forall s, P s.
Proof.
  intros H s. remember (String.length s) as n eqn:Hn. revert s Hn.
  induction n as [n IH] using lt_wf_ind. intros s ->.
  apply H. intros s' Hs'. by apply (IH (String.length s')).
Qed.

Lemma sub_runs_all (P : ascii -> bool) (s : string) :
  P "_"%char = true -> all_in P s = true ->
  all_in P (Re.sub [Re.plus underscore] "_" s) = true.
Proof.
  intros HP. induction s as [s IH] using sub_runs_length_ind.
  destruct s as [|c s]; [done|]. simpl. intros [Hc Hs]%andb_true_iff.
  rewrite sub_plus_cons. destruct (underscore c).
  - rewrite all_in_app. simpl. rewrite HP. simpl. apply IH.
    + pose proof (lstrip_by_length underscore s). simpl. lia.
    + destruct (lstrip_by_split underscore s) as (w & Hw & _).
      rewrite Hw, all_in_app in Hs. by apply andb_true_iff in Hs as [_ ?].
  - simpl. rewrite Hc. apply IH; [simpl; lia|done].
Qed.

Lemma sub_runs_underscores (s : string) :
  all_in underscore (Re.sub [Re.plus underscore] "_" s) = all_in underscore s.
Proof.
  induction s as [s IH] using sub_runs_length_ind.
  destruct s as [|c s]; [done|]. rewrite sub_plus_cons. simpl.
  destruct (underscore c) eqn:Hc.
  - rewrite all_in_app. simpl. rewrite IH, all_in_lstrip_by; [done|].
    pose proof (lstrip_by_length underscore s). simpl. lia.
  - simpl. by rewrite Hc.
Qed.

Lemma sub_runs_head (s : string) :
  startswith "_" (Re.sub [Re.plus underscore] "_" s) = startswith "_" s.
Proof.
  destruct s as [|c s]; [done|]. rewrite sub_plus_cons.
  destruct (underscore c) eqn:Hc.
  - unfold underscore in Hc. apply Ascii.eqb_eq in Hc as ->. done.
  - simpl. done.
Qed.

Lemma sub_runs_no_run (s : string) :
  contains "__" (Re.sub [Re.plus underscore] "_" s) = false.
Proof.
  induction s as [s IH] using sub_runs_length_ind.
  destruct s as [|c s]; [done|]. rewrite sub_plus_cons.
  destruct (underscore c) eqn:Hc.
  - change ("_" +:+ ?x) with (String "_" x). rewrite contains_run_cons.
    rewrite IH by (pose proof (lstrip_by_length underscore s); simpl; lia).
    rewrite sub_runs_head.
    assert (startswith "_" (lstrip_by underscore s) = false) as ->; [|done].
    apply startswith_underscore. apply lstrip_by_head.
  - rewrite contains_run_cons, Hc. simpl. apply IH. simpl. lia.
Qed.

Lemma sub_runs_id (s : string) :
  contains "__" s = false -> Re.sub [Re.plus underscore] "_" s = s.
Proof.
  induction s as [|c s IH]; [done|]. rewrite contains_run_cons.
  intros [Hh Hs]%orb_false_iff. rewrite sub_plus_cons.
  destruct (underscore c) eqn:Hc.
  - simpl in Hh. rewrite lstrip_by_id by (by apply startswith_underscore).
    rewrite IH by done. unfold underscore in Hc. by apply Ascii.eqb_eq in Hc as ->.
  - by rewrite IH.
Qed.

(** *** The name *)

(** The text between the substitutions and the cut. *)
Lemma stripped_clean (s : string) :
  all_in plain s = true -> contains "__" s = false ->
  clean (strip_by underscore s).
Proof.
  intros Hp Hr. unfold strip_by.
  destruct (lstrip_by_split underscore s) as (w & Hs & _).
  destruct (rstrip_by_split underscore (lstrip_by underscore s)) as (v & Hl & _).
  split_and!.
  - rewrite Hs, Hl, !all_in_app in Hp.
    by apply andb_true_iff in Hp as [_ [? _]%andb_true_iff].
  - rewrite Hs in Hr. apply contains_suffix in Hr. rewrite Hl in Hr.
    by apply contains_prefix in Hr.
  - apply (startswith_prefix _ v). rewrite <- Hl.
    apply startswith_underscore, lstrip_by_head.
  - apply endswith_underscore.
    destruct (rstrip_by_tail underscore (lstrip_by underscore s)); [by left|by right].
Qed.

(** A prefix of a clean name, with the underscores at its end taken
    off. *)
Lemma cut_clean (s : string) (n : nat) :
  clean s -> clean (rstrip_by underscore (slice_to n s)).
Proof.
  intros (Hp & Hr & Hh & _).
  destruct (rstrip_by_split underscore (slice_to n s)) as (v & Hv & _).
  pose proof (slice_to_from n s) as Hs. rewrite Hv in Hs.
  rewrite app_assoc_s in Hs. split_and!.
  - rewrite <- Hs, all_in_app in Hp. by apply andb_true_iff in Hp as [? _].
  - rewrite <- Hs in Hr. by apply contains_prefix in Hr.
  - rewrite <- Hs in Hh. by apply startswith_prefix in Hh.
  - apply endswith_underscore.
    destruct (rstrip_by_tail underscore (slice_to n s)); [by left|by right].
Qed.

Lemma slice_to_length (n : nat) (s : string) : String.length (slice_to n s) <= n.
Proof.
  revert s. induction n as [|n IH]; intros [|c s]; simpl; try lia.
  specialize (IH s). lia.
Qed.

Lemma rstrip_by_length (cls : ascii -> bool) (s : string) :
  String.length (rstrip_by cls s) <= String.length s.
Proof.
  destruct (rstrip_by_split cls s) as (w & Hs & _).
  rewrite Hs at 2. rewrite length_app_s. lia.
Qed.

Lemma strip_by_id (s : string) :
  startswith "_" s = false -> endswith "_" s = false -> strip_by underscore s = s.
Proof.
  intros Hh He. unfold strip_by.
  rewrite lstrip_by_id by (by apply startswith_underscore).
  apply endswith_underscore in He as [->|He]; [done|]. by apply rstrip_by_id.
Qed.

Lemma strip_by_nil_iff (cls : ascii -> bool) (s : string) :
  strip_by cls s = EmptyString <-> all_in cls s = true.
Proof.
  unfold strip_by. split.
  - intros H. destruct (rstrip_by_split cls (lstrip_by cls s)) as (w & Hs & Hw).
    rewrite H, app_nil_l_s in Hs. rewrite <- all_in_lstrip_by. by rewrite Hs.
  - intros H. by rewrite lstrip_by_all.
Qed.

Lemma sanitize_filename_fixed (s : string) (n : nat) :
  clean s -> String.length s <= n -> sanitize_filename s n = s.
Proof.
  intros (Hp & Hr & Hh & He) Hl. unfold sanitize_filename.
  rewrite sub_one_id by done. rewrite sub_runs_id by done.
  rewrite strip_by_id by done.
  destruct (Nat.ltb n (String.length s)) eqn:E; [|done].
  apply Nat.ltb_lt in E. lia.
Qed.

(** The shape of the name. *)
Lemma sanitize_filename_shape (title : string) (max_length : nat) :
  clean (sanitize_filename title max_length)
  /\ String.length (sanitize_filename title max_length) <= max_length.
Proof.
  unfold sanitize_filename.
  set (s := strip_by underscore _).
  assert (clean s) as Hs.
  { apply stripped_clean; [|apply sub_runs_no_run].
    apply sub_runs_all; [done|]. apply sub_special_plain. }
  destruct (Nat.ltb max_length (String.length s)) eqn:E.
  - split; [by apply cut_clean|].
    pose proof (rstrip_by_length underscore (slice_to max_length s)).
    pose proof (slice_to_length max_length s). lia.
  - split; [done|]. apply Nat.ltb_ge in E. lia.
Qed.

Lemma sanitize_filename_plain (title : string) (max_length : nat) :
  all_in plain (sanitize_filename title max_length) = true.
Proof. by destruct (sanitize_filename_shape title max_length) as [(? & _) _]. Qed.

(** X1. [sanitize_filename] returns a clean name of no more than
    [max_length] characters: it holds none of the special characters and
    no white space, no two underscores in a row, and no underscore at
    either end. *)
Theorem sanitize_filename_clean (title : string) (max_length : nat) :
  clean (sanitize_filename title max_length)
  /\ String.length (sanitize_filename title max_length) <= max_length.
Proof. apply sanitize_filename_shape. Qed.

(** X2. [sanitize_filename] changes nothing in a name it has returned,
    and the names it leaves as they are are the clean names of no more
    than [max_length] characters. *)
Theorem sanitize_filename_idempotent (title : string) (max_length : nat) :
  sanitize_filename (sanitize_filename title max_length) max_length
  = sanitize_filename title max_length
  /\ (sanitize_filename title max_length = title
      <-> clean title /\ String.length title <= max_length).
Proof.
  pose proof (sanitize_filename_shape title max_length) as [Hc Hl]. split.
  - by apply sanitize_filename_fixed.
  - split.
    + intros H. by rewrite H in Hc, Hl.
    + intros [? ?]. by apply sanitize_filename_fixed.
Qed.

(** X3. With room for one character or more, [sanitize_filename]
    returns the empty name for the titles made of special characters, white
    space and underscores only, the empty title among them, and for no
    other title. *)
Theorem sanitize_filename_empty (title : string) (max_length : nat) :
  1 <= max_length ->
  sanitize_filename title max_length = EmptyString <-> all_in dropped title = true.
Proof.
  intros Hn. unfold sanitize_filename.
  set (s := strip_by underscore _).
  assert (s = EmptyString <-> all_in dropped title = true) as Hs.
  { unfold s. by rewrite strip_by_nil_iff, sub_runs_underscores, sub_special_underscores. }
  assert (startswith "_" s = false) as Hh.
  { unfold s, strip_by at 1.
    destruct (rstrip_by_split underscore
                (lstrip_by underscore
                   (Re.sub [Re.plus underscore] "_"
                      (Re.sub [Re.Rep special_chars 1 (Some 1)] "_" title))))
      as (v & Hv & _).
    apply (startswith_prefix _ v). rewrite <- Hv.
    apply startswith_underscore, lstrip_by_head. }
  rewrite <- Hs. destruct (Nat.ltb max_length (String.length s)) eqn:E; [|done].
  destruct s as [|c s']; [done|].
  apply startswith_underscore in Hh.
  destruct max_length as [|n]; [lia|]. cbn [slice_to].
  destruct (rstrip_by_head underscore c (slice_to n s') Hh) as [r ->]. done.
Qed.

Lemma sanitize_filename_empty_witness :
  sanitize_filename " :/_ " 200 = EmptyString.
Proof.
  apply (sanitize_filename_empty " :/_ " 200); [lia|reflexivity].
Defined.

(** White space beyond ASCII is white space: a no-break space is
    replaced like a blank. *)
Example sanitize_filename_no_break_space :
  sanitize_filename ("a" +:+ Samples.nbsp +:+ "b") 200 = "a_b"
  /\ sanitize_filename Samples.nbsp 200 = EmptyString.
Proof. split; vm_compute; reflexivity. Qed.

End Sanitize.

(** ** Numbered names and generated names *)

Section MoreNames.
Import PyStr ReSpec NameSpec SanitizeSpec ECBPDFDownloader.

Lemma at_suffix_matched_digits (ps : list string) (rest : string) :
  matched_by at_suffix ps rest ->
  exists ds, ps = ["_"; "A"; "t"; ds; EmptyString]
             /\ all_in is_digit ds = true /\ 1 <= String.length ds
             /\ Re.at_end rest = true.
Proof.
  unfold at_suffix, Re.lit, Re.plus. intros H.
  matched_rep H p1 Hp1 Hl1 Hh1 H1. matched_rep H1 p2 Hp2 Hl2 Hh2 H2.
  matched_rep H2 p3 Hp3 Hl3 Hh3 H3. matched_rep H3 ds Hds Hdsl Hdsh H4.
  inversion H4 as [| |? ps5 ? Hend H5]; subst. clear H4.
  inversion H5; subst. simpl in *.
  rewrite (one_char "_" p1), (one_char "A" p2), (one_char "t" p3) by (done || lia).
  by exists ds.
Qed.

(** The counter suffix is not there to strip. *)
Lemma at_suffix_absent (s : string) :
  all_in plain s = true ->
  (forall t digits,
     all_in is_digit digits = true -> 1 <= String.length digits ->
     s <> t +:+ "_At" +:+ digits) ->
  Re.sub at_suffix EmptyString s = s.
Proof.
  intros Hplain Hno. unfold Re.sub.
  rewrite <- (app_nil_r_s s) at 1. rewrite sub_go_unmatched; [by rewrite app_nil_r_s|].
  intros a b -> Hb. rewrite app_nil_r_s.
  destruct (Re.match_here at_suffix b) as [[ps rest]|] eqn:E; [exfalso|done].
  apply match_here_sound in E as [Ht Hm].
  destruct (at_suffix_matched_digits _ _ Hm) as (ds & -> & Hds & Hl & Hend).
  assert (b = "_At" +:+ ds +:+ rest) as ->.
  { rewrite Ht. cbn [Re.concat_pieces]. by rewrite app_nil_l_s, !app_assoc_s. }
  destruct rest as [|c [|c' rest]]; [| |done].
  - apply (Hno a ds Hds Hl). by rewrite app_nil_r_s.
  - simpl in Hend. apply Ascii.eqb_eq in Hend as ->.
    rewrite !all_in_app in Hplain.
    change (all_in plain (String "010" EmptyString)) with false in Hplain.
    by rewrite !andb_false_r in Hplain.
Qed.

(** X4. The numbered names of [check_duplicate_filename] are the names
    [generate_filename] gives with a counter, for a date without
    underscore and a title whose clean form does not end in a counter
    suffix of its own. *)
Theorem numbered_filename_generated (date title extension : string) (counter : nat) :
  all_in not_underscore date = true ->
  (forall t digits,
     all_in is_digit digits = true -> 1 <= String.length digits ->
     sanitize_filename title 200 <> t +:+ "_At" +:+ digits) ->
  0 < counter ->
  numbered_filename (generate_filename date title 0) extension counter
  = generate_filename date title counter +:+ "." +:+ extension.
Proof.
  intros Hdate Hno Hcounter. destruct counter as [|n]; [lia|].
  unfold generate_filename. cbn [Nat.ltb Nat.leb].
  change (numbered_filename ?b ?e (S n)) with (probe b e (S n)).
  rewrite probe_underscore by done.
  rewrite at_suffix_absent; [by rewrite !app_assoc_s|by apply sanitize_filename_plain|done].
Qed.

Lemma numbered_filename_generated_witness :
  numbered_filename (generate_filename "2024-01-01" "Annual Report" 0) "pdf" 2
  = generate_filename "2024-01-01" "Annual Report" 2 +:+ ".pdf".
Proof.
  apply (numbered_filename_generated "2024-01-01" "Annual Report" "pdf" 2); [done| |lia].
  intros t digits _ _ H.
  assert (sanitize_filename "Annual Report" 200 = "Annual_Report") as E
    by (vm_compute; reflexivity).
  rewrite E in H. apply (f_equal (contains "_At")) in H.
  rewrite (proj2 (contains_spec "_At" (t +:+ "_At" +:+ digits))) in H by eauto.
  vm_compute in H. discriminate.
Defined.

End MoreNames.

(** ** The category table *)

Section Mapping.
Import ECBPDFDownloader.

(** X5. The categories [determine_category] returns are the values of
    [category_mapping]: every category it returns is one of them, and it
    returns every one of them for some title and url. *)
Theorem determine_category_mapping (c : string) :
  (exists title url, determine_category title url = c)
  <-> (exists key, category_mapping !! key = Some c).
Proof.
  split.
  - intros (title & url & <-). unfold determine_category.
    repeat (match goal with |- context [if ?b then _ else _] => destruct b end);
      [ exists "monetary policy" | exists "economic bulletin" | exists "financial stability"
      | exists "speech" | exists "interview" | exists "blog" | exists "statistics"
      | exists "press release" | exists "report" ]; reflexivity.
  - intros (key & Hkey). unfold category_mapping in Hkey.
    apply elem_of_list_to_map_2 in Hkey.
    repeat (apply elem_of_cons in Hkey as [[= -> ->]|Hkey]); [..|by apply elem_of_nil in Hkey].
    + by exists EmptyString, "press".
    + by exists "monetary policy", EmptyString.
    + by exists "economic bulletin", EmptyString.
    + by exists "financial stability", EmptyString.
    + by exists EmptyString, "speech".
    + by exists EmptyString, "interview".
    + by exists EmptyString, "blog".
    + by exists EmptyString, EmptyString.
    + by exists "statistics", EmptyString.
Qed.

End Mapping.

(** ** The publication date *)

Section PublicationDate.
Import PyStr Datetime CalendarSpec ECBPDFDownloader.
Local Open Scope Z_scope.

Lemma year_texts (y : Z) : 0 <= y <= 9999 -> year_text_ok y = true.
Proof.
  intros Hy.
  assert (forallb year_text_ok (seqZ 0 10000) = true) as H by (vm_compute; reflexivity).
  rewrite forallb_forall in H. apply H, list_elem_of_In, elem_of_seqZ. lia.
Qed.

Lemma month_day_texts (m d : Z) :
  0 <= m <= 99 -> 0 <= d <= 99 -> month_day_text_ok m d = true.
Proof.
  intros Hm Hd.
  assert (forallb (fun m => forallb (month_day_text_ok m) (seqZ 0 100)) (seqZ 0 100) = true)
    as H by (vm_compute; reflexivity).
  rewrite forallb_forall in H.
  specialize (H m). rewrite forallb_forall in H.
  apply H; apply list_elem_of_In, elem_of_seqZ; lia.
Qed.

Lemma strptime_year (a b c e : ascii) (r : string) :
  is_digit a = true -> is_digit b = true -> is_digit c = true -> is_digit e = true ->
  strptime (String a (String b (String c (String e r))))
  = match match_groups month_day_groups r with
    | Some ([_; m; _; d], rest) =>
        let Y := String a (String b (String c (String e EmptyString))) in
        if truthy rest then None
        else if check_date_fields (int Y) (int m) (int d)
             then Some (Datetime_ (int Y) (int m) (int d) 0 0 0)
             else None
    | _ => None
    end.
Proof.
  intros Ha Hb Hc He. unfold strptime.
  change (match_groups [directive_Y; literal "-"; directive_m; literal "-"; directive_d])
    with (match_groups (directive_Y :: month_day_groups)).
  cbn [match_groups]. unfold group, directive_Y. cbn [omap list_omap take_chars].
  rewrite Ha, Hb, Hc, He. cbn [first_some fst snd].
  destruct (match_groups month_day_groups r) as [[ms rest]|]; [|done].
  by destruct ms as [|? [|? [|? [|? [|? ?]]]]].
Qed.

Lemma month_day_check (y m d : Z) :
  month_day m d = false -> check_date_fields y m d = false.
Proof.
  unfold month_day, check_date_fields. intros H.
  destruct (1 <=? y), (y <=? 9999), (1 <=? m) eqn:E1, (m <=? 12) eqn:E2, (1 <=? d);
    simpl in *; try done.
  assert (days_in_month y m <= 31) as Hdim.
  { unfold days_in_month. destruct (is_leap y).
    - repeat (destruct m as [|[m|m|]|]; try lia).
    - repeat (destruct m as [|[m|m|]|]; try lia). }
  apply Z.leb_gt in H. apply Z.leb_gt. lia.
Qed.

Lemma calendar_date_check (y m d : Z) :
  y <= 9999 -> check_date_fields y m d = true <-> calendar_date y m d.
Proof.
  intros Hy. unfold check_date_fields, calendar_date.
  rewrite !andb_true_iff, !Z.leb_le. lia.
Qed.

Lemma pub_date_isoformat_check (now : string) (y m d : Z) :
  0 <= y <= 9999 -> 0 <= m <= 99 -> 0 <= d <= 99 ->
  pub_date_isoformat (isoformat_date y m d) now
  = if check_date_fields y m d
    then isoformat_date y m d +:+ "T09:00:00+00:00" else now.
Proof.
  intros Hy Hm Hd.
  pose proof (year_texts y Hy) as Hyear. pose proof (month_day_texts m d Hm Hd) as Htail.
  unfold pub_date_isoformat.
  change (isoformat_date y m d) with (pad 4 y +:+ month_day_text m d) at 1.
  unfold year_text_ok in Hyear.
  destruct (pad 4 y) as [|a [|b [|c [|e [|]]]]] eqn:Hpad; try done.
  apply andb_true_iff in Hyear as [Hyear Hint]. apply Z.eqb_eq in Hint.
  apply andb_true_iff in Hyear as [Hyear He].
  apply andb_true_iff in Hyear as [Hyear Hc].
  apply andb_true_iff in Hyear as [Ha Hb].
  rewrite !app_cons_s, app_nil_l_s, strptime_year by done.
  unfold month_day_text_ok in Htail.
  destruct (match_groups month_day_groups (month_day_text m d)) as [[ms rest]|].
  - destruct ms as [|? [|mm [|? [|dd [|? ?]]]]]; try done.
    destruct (month_day m d) eqn:Hmd.
    + apply andb_true_iff in Htail as [Htail Hdd]. apply Z.eqb_eq in Hdd.
      apply andb_true_iff in Htail as [Hrest Hmm]. apply Z.eqb_eq in Hmm.
      apply negb_true_iff in Hrest. cbv zeta. rewrite Hrest, Hint, Hmm, Hdd.
      destruct (check_date_fields y m d); [|done].
      unfold isoformat_utc. cbn [year month day hour minute second].
      by f_equal.
    + cbv zeta. rewrite Htail. by rewrite month_day_check.
  - apply negb_true_iff in Htail. by rewrite month_day_check.
Qed.

(** X6. The publication date [generate_metadata] gives for a date
    written as YYYY-MM-DD: for a date of the calendar it is that date at
    nine o'clock UTC; for any other, a day the month does not have or a
    month or a year out of range, it is the instant of the clock. *)
Theorem publication_date_calendar (fallback_now now title url filename creator : string)
    (y m d : Z) :
  0 <= y <= 9999 -> 0 <= m <= 99 -> 0 <= d <= 99 ->
  let date := isoformat_date y m d in
  let metadata := generate_metadata_clock fallback_now now date title url filename creator in
  (calendar_date y m d -> publication_date metadata = date +:+ "T09:00:00+00:00")
  /\ (~ calendar_date y m d -> publication_date metadata = fallback_now).
Proof.
  intros Hy Hm Hd date metadata. subst date metadata.
  unfold generate_metadata_clock, generate_metadata. cbn [publication_date].
  rewrite pub_date_isoformat_check by done.
  split; intros H.
  - apply calendar_date_check in H; [|lia]. by rewrite H.
  - destruct (check_date_fields y m d) eqn:E; [|done].
    apply calendar_date_check in E; [done|lia].
Qed.

Lemma publication_date_calendar_witness :
  publication_date
    (generate_metadata_clock "2026-01-01T00:00:00+00:00" "2026-01-01T00:00:01+00:00"
       "2024-02-29" "Report" "https://example.org/x.pdf" "2024-02-29_Report.pdf"
       EmptyString)
  = "2024-02-29T09:00:00+00:00".
Proof.
  apply (publication_date_calendar "2026-01-01T00:00:00+00:00" "2026-01-01T00:00:01+00:00"
           "Report" "https://example.org/x.pdf" "2024-02-29_Report.pdf" EmptyString
           2024 2 29); [lia|lia|lia|].
  unfold calendar_date. vm_compute. intuition discriminate.
Defined.

(** A date [parse_date] returns for a day the month does not have,
    and the publication date it gets. *)
Example parse_date_day_out_of_month :
  ECBScraper.parse_date "31 February 2024" = Some "2024-02-31"
  /\ pub_date_isoformat "2024-02-31" "2026-01-01T00:00:00+00:00"
     = "2026-01-01T00:00:00+00:00".
Proof. split; vm_compute; reflexivity. Qed.

End PublicationDate.

(** ** The latest publications file *)

Section Latest.
Import PyStr ECBScraper ECBPDFDownloader.

Lemma max_by_spec {A} (key : A -> Z) (best : A) (files : list A) :
  max_by key best files ∈ best :: files
  /\ forall x, x ∈ best :: files -> (key x <= key (max_by key best files))%Z.
Proof.
  revert best. induction files as [|y files IH]; intros best; simpl.
  - split; [by left|]. intros x ->%list_elem_of_singleton. lia.
  - destruct (IH (if (key best <? key y)%Z then y else best)) as [Hin Hmax]. split.
    + apply elem_of_cons in Hin as [Hin|Hin].
      * rewrite Hin. destruct (key best <? key y)%Z; [right; left|left].
      * by do 2 right.
    + intros x Hx.
      assert (key best <= key (if (key best <? key y)%Z then y else best)
              /\ key y <= key (if (key best <? key y)%Z then y else best))%Z as [Hb Hy].
      { destruct (key best <? key y)%Z eqn:E; [apply Z.ltb_lt in E|apply Z.ltb_ge in E]; lia. }
      pose proof (Hmax _ (list_elem_of_here _ _)) as H0.
      apply elem_of_cons in Hx as [->|Hx]; [lia|].
      apply elem_of_cons in Hx as [->|Hx]; [lia|].
      apply Hmax. by right.
Qed.

(** The file taken is a newest one. *)
Lemma find_latest_spec (entries : list dir_entry) :
  match find_latest_publications_file entries with
  | None => forall e, e ∈ entries -> publications_pattern (entry_name e) = false
  | Some name =>
      exists e, e ∈ entries /\ entry_name e = name
                /\ publications_pattern name = true
                /\ forall e', e' ∈ entries -> publications_pattern (entry_name e') = true ->
                     (st_mtime e' <= st_mtime e)%Z
  end.
Proof.
  unfold find_latest_publications_file.
  destruct (filter _ entries) as [|file files] eqn:E.
  - intros e He. destruct (publications_pattern (entry_name e)) eqn:Hp; [|done].
    assert (e ∈ filter (fun e => publications_pattern (entry_name e) = true) entries) as Hin
      by (by apply list_elem_of_filter).
    rewrite E in Hin. by apply elem_of_nil in Hin.
  - destruct (max_by_spec st_mtime file files) as [Hin Hmax].
    rewrite <- E in Hin. apply list_elem_of_filter in Hin as [Hp Hin].
    eexists. split_and!; [exact Hin|done|done|].
    intros e' He' Hp'. apply Hmax. rewrite <- E. by apply list_elem_of_filter.
Qed.

(** X7. [find_latest_publications_file] returns nothing when no
    entry of the directory matches the pattern; otherwise it returns the
    name of an entry that matches and that no matching entry is more
    recent than. *)
Theorem find_latest_publications_file_newest (entries : list dir_entry) :
  match find_latest_publications_file entries with
  | None => forall e, e ∈ entries -> publications_pattern (entry_name e) = false
  | Some name =>
      exists e, e ∈ entries /\ entry_name e = name
                /\ publications_pattern name = true
                /\ forall e', e' ∈ entries -> publications_pattern (entry_name e') = true ->
                     (st_mtime e' <= st_mtime e)%Z
  end.
Proof. apply find_latest_spec. Qed.

Lemma save_filename_pattern (timestamp : string) :
  publications_pattern (save_filename timestamp) = true.
Proof.
  unfold publications_pattern, save_filename. rewrite startswith_app, slice_from_app.
  apply endswith_spec. by exists timestamp.
Qed.

(** X8. The file the scraper has written is the one the downloader takes,
    wherever it stands among the entries, when every other entry that
    matches the pattern is older. *)
Theorem scraper_file_is_latest (before after : list dir_entry) (timestamp : string)
    (mtime : Z) :
  (forall e, e ∈ before ++ after -> publications_pattern (entry_name e) = true ->
     (st_mtime e < mtime)%Z) ->
  find_latest_publications_file
    (before ++ DirEntry (save_filename timestamp) mtime :: after)
  = Some (save_filename timestamp).
Proof.
  intros Holder.
  pose proof (find_latest_spec
                (before ++ DirEntry (save_filename timestamp) mtime :: after)) as H.
  set (new := DirEntry (save_filename timestamp) mtime) in *.
  assert (new ∈ before ++ new :: after) as Hnew
    by (apply elem_of_app; right; left).
  destruct (find_latest_publications_file _) as [name|].
  - destruct H as (e & He & <- & Hp & Hmax). f_equal.
    specialize (Hmax new Hnew (save_filename_pattern timestamp)). simpl in Hmax.
    assert (e = new \/ e ∈ before ++ after) as [->|Hin]; [|done|].
    { rewrite elem_of_app in *. rewrite elem_of_cons in He. tauto. }
    specialize (Holder e Hin Hp). lia.
  - specialize (H new Hnew). simpl in H. by rewrite save_filename_pattern in H.
Qed.

Lemma scraper_file_is_latest_witness :
  find_latest_publications_file
    [ DirEntry "ecb_publications_20240101_120000.txt" 100;
      DirEntry (save_filename "20240315_093000") 200;
      DirEntry "pdf_downloader.py" 300 ]
  = Some "ecb_publications_20240315_093000.txt".
Proof.
  apply (scraper_file_is_latest
           [DirEntry "ecb_publications_20240101_120000.txt" 100] [DirEntry "pdf_downloader.py" 300]
           "20240315_093000" 200).
  intros e He Hp. simpl in He.
  apply elem_of_cons in He as [->|He]; [simpl; lia|].
  apply list_elem_of_singleton in He as ->. simpl in Hp. vm_compute in Hp. discriminate.
Defined.

End Latest.

(** ** The records of extraction *)

Section Extracted.
Import PyStr ReSpec DateSpec FileSpec ExtractionSpec ECBScraper ECBPDFDownloader.

Lemma elem_of_flat_map {A B} (f : A -> list B) (l : list A) (y : B) :
  y ∈ flat_map f l <-> exists x, x ∈ l /\ y ∈ f x.
Proof.
  rewrite list_elem_of_In, in_flat_map.
  split; intros (x & Hx & Hy); exists x; by rewrite ?list_elem_of_In in *.
Qed.

Lemma truthy_replace_char (a b : ascii) (s : string) :
  truthy (replace_char a b s) = truthy s.
Proof. by destruct s. Qed.

Lemma link_url_absolute (link : Bs4.tag) : startswith "/" (link_url link) = false.
Proof.
  unfold link_url.
  destruct (startswith "/" (default EmptyString (Bs4.get_attr "href" (Bs4.tag_attrs link))))
    eqn:E; [|done].
  by rewrite app_cons_s.
Qed.

(** What a candidate record is made of. *)
Lemma candidate_fields (date_text : string) (link : Bs4.tag) (p : publication) :
  candidate date_text link = Some p ->
  Bs4.find_parent "div" "accordion" link = None
  /\ parse_date date_text = Some (date p)
  /\ original_date_text p = date_text
  /\ title p = replace_char "|" "-" (Bs4.get_text_strip link)
  /\ truthy (title p) = true
  /\ url p = link_url link /\ truthy (url p) = true.
Proof.
  unfold candidate. destruct (Bs4.find_parent _ _ _); [done|].
  destruct (parse_date date_text) as [parsed|]; [|done].
  destruct (truthy (Bs4.get_text_strip link)) eqn:Ht; [|done].
  destruct (truthy (link_url link)) eqn:Hu; [|done].
  destruct (truthy parsed); [|done]. simpl. intros [= <-]. simpl.
  by rewrite truthy_replace_char.
Qed.

Lemma extracted_candidate (m : Z) (soup : list Bs4.node) (p : publication) :
  p ∈ extract_publications_from_html m soup ->
  exists dl_wrapper dl dt dd link,
    Bs4.find_class "div" "dl-wrapper" soup = Some dl_wrapper
    /\ dl ∈ Bs4.find_all "dl" dl_wrapper
    /\ (dt, dd) ∈ zip (Bs4.find_all "dt" dl) (Bs4.find_all "dd" dl)
    /\ link ∈ Bs4.find_all_href "a" dd
    /\ candidate (Bs4.get_text_strip dt) link = Some p.
Proof.
  rewrite extract_take. intros Hp.
  apply elem_of_take in Hp as (i & Hp%list_elem_of_lookup_2 & _).
  unfold candidate_links in Hp.
  destruct (Bs4.find_class "div" "dl-wrapper" soup) as [w|]; [|by apply elem_of_nil in Hp].
  apply elem_of_flat_map in Hp as (dl & Hdl & Hp).
  apply elem_of_flat_map in Hp as ([dt dd] & Hpair & Hp).
  apply list_elem_of_omap in Hp as (link & Hlink & Hp).
  by exists w, dl, dt, dd, link.
Qed.

(** The fields of the records. *)
Lemma extracted_record_fields (max_publications : Z) (soup : list Bs4.node) :
  Forall (fun p =>
            iso_form (date p)
            /\ parse_date (original_date_text p) = Some (date p)
            /\ truthy (title p) = true /\ all_in no_pipe (title p) = true
            /\ truthy (url p) = true /\ startswith "/" (url p) = false)
         (extract_publications_from_html max_publications soup).
Proof.
  apply Forall_forall. intros p Hp.
  apply extracted_candidate in Hp as (w & dl & dt & dd & link & _ & _ & _ & _ & Hp).
  apply candidate_fields in Hp as (_ & Hdate & Horig & Htitle & Ht & Hurl & Hu).
  split_and!.
  - by apply (parse_date_iso_form (Bs4.get_text_strip dt)).
  - by rewrite Horig.
  - done.
  - rewrite Htitle. apply replace_pipe_no_pipe.
  - done.
  - rewrite Hurl. apply link_url_absolute.
Qed.

(** X9. Every record [extract_publications_from_html] returns has a
    date of the form YYYY-MM-DD, which is what [parse_date] gives for
    the heading text the record keeps; a title that is not empty and
    holds no pipe; and a url that is not empty and does not start with
    a slash. *)
Theorem extracted_records_well_formed (max_publications : Z) (soup : list Bs4.node) :
  Forall (fun p =>
            iso_form (date p)
            /\ parse_date (original_date_text p) = Some (date p)
            /\ truthy (title p) = true /\ all_in no_pipe (title p) = true
            /\ truthy (url p) = true /\ startswith "/" (url p) = false)
         (extract_publications_from_html max_publications soup).
Proof. apply extracted_record_fields. Qed.

(** X10. Every record [extract_publications_from_html] returns stands
    for a link of the page: a link with an [href], in a content block of a
    date group of the first [dl-wrapper] division, paired by position
    with a heading of the group, and with no [accordion] division
    around it.  The record keeps the text of the heading, the text of
    the link with its pipes replaced, and the target of the link, made
    absolute when it starts with a slash. *)
Theorem extracted_records_from_links (max_publications : Z) (soup : list Bs4.node) :
  Forall (fun p =>
            exists dl_wrapper dl dt dd link href,
              Bs4.find_class "div" "dl-wrapper" soup = Some dl_wrapper
              /\ dl ∈ Bs4.find_all "dl" dl_wrapper
              /\ (dt, dd) ∈ zip (Bs4.find_all "dt" dl) (Bs4.find_all "dd" dl)
              /\ link ∈ Bs4.find_all "a" dd
              /\ Bs4.get_attr "href" (Bs4.tag_attrs link) = Some href
              /\ Bs4.find_parent "div" "accordion" link = None
              /\ original_date_text p = Bs4.get_text_strip dt
              /\ title p = replace_char "|" "-" (Bs4.get_text_strip link)
              /\ url p = if startswith "/" href
                         then "https://www.ecb.europa.eu" +:+ href else href)
         (extract_publications_from_html max_publications soup).
Proof.
  apply Forall_forall. intros p Hp.
  apply extracted_candidate in Hp as (w & dl & dt & dd & link & Hw & Hdl & Hpair & Hlink & Hp).
  apply candidate_fields in Hp as (Hacc & _ & Horig & Htitle & _ & Hurl & _).
  unfold Bs4.find_all_href in Hlink. apply list_elem_of_filter in Hlink as [[href Hhref] Hlink].
  exists w, dl, dt, dd, link, href. split_and!; try done.
  rewrite Hurl. unfold link_url. by rewrite Hhref.
Qed.



(** X12. A lower limit gives the first records of a higher limit:
    raising [max_publications] only adds records at the end.  A limit
    of zero or less gives no record, whatever the page. *)
Theorem extraction_prefix (lower higher : Z) (soup : list Bs4.node) :
  (lower <= higher)%Z ->
  extract_publications_from_html lower soup
  = take (Z.to_nat lower) (extract_publications_from_html higher soup)
  /\ ((lower <= 0)%Z -> extract_publications_from_html lower soup = []).
Proof.
  intros H. rewrite !extract_take, take_take. split.
  - f_equal. lia.
  - intros H0. by replace (Z.to_nat lower) with 0 by lia.
Qed.

Lemma extraction_prefix_witness :
  extract_publications_from_html 1 Samples.sample_page
  = take 1 (extract_publications_from_html 2 Samples.sample_page)
  /\ extract_publications_from_html 0 Samples.sample_page = [].
Proof.
  split.
  - apply (extraction_prefix 1 2 Samples.sample_page). lia.
  - apply (extraction_prefix 0 2 Samples.sample_page); lia.
Defined.

Lemma dedup_and_rank_subset (publications : list publication) (p : publication) :
  p ∈ dedup_and_rank publications -> p ∈ publications.
Proof.
  unfold dedup_and_rank. rewrite list_sort_reverse_perm. intros Hp.
  destruct (unique_loop_spec publications [] ∅) as (kept & Hk & Hsub & _).
  { intros u. rewrite elem_of_empty. simpl. by rewrite elem_of_nil. }
  { constructor. }
  rewrite Hk in Hp. simpl in Hp. by apply (elem_of_sublist kept).
Qed.

Lemma storable_read_back (publications : list publication) :
  Forall storable publications ->
  read_publications_file (save_to_file publications) = triple <$> publications.
Proof.
  intros Hall.
  assert (omap read_line (map save_line publications) = triple <$> publications) as Hread.
  { induction Hall as [|q qs Hq _ IH]; [done|].
    rewrite fmap_cons. cbn [map]. rewrite omap_cons.
    destruct (save_line_read q Hq) as (_ & _ & ->).
    rewrite fmap_cons. f_equal. exact IH. }
  destruct publications as [|p ps]; [done|].
  unfold save_to_file, read_publications_file.
  rewrite read_joined_lines; [done|].
  apply Forall_fmap. eapply Forall_impl; [exact Hall|].
  intros q Hq. simpl. by destruct (save_line_read q Hq) as (? & ? & _).
Qed.

(** X13. What [run] writes is what [read_publications_file] reads: when no
    title and no url of the records [run] keeps holds a line break and
    no url ends in white space, the downloader reads from the file of
    the scraper the date, the title and the url of every record, in the
    order of the scraper; with no record there is no file and nothing
    is read. *)
Theorem run_then_read (max_publications : Z) (soup : list Bs4.node) :
  Forall (fun p => all_in no_break (title p) = true
                   /\ all_in no_break (url p) = true
                   /\ ends_outside is_space (url p) = true)
         (run max_publications soup).1 ->
  read_publications_file (run max_publications soup).2
  = triple <$> (run max_publications soup).1.
Proof.
  unfold run. cbn [fst snd].
  set (pubs := dedup_and_rank _). intros Hlines.
  assert (Forall storable pubs) as Hall.
  { apply Forall_forall. intros p Hp.
    pose proof (extracted_record_fields max_publications soup) as Hwf.
    rewrite Forall_forall in Hwf, Hlines.
    destruct (Hwf p) as (Hd & _ & _ & Ht & _); [by apply dedup_and_rank_subset|].
    destruct (Hlines p Hp) as (? & ? & ?).
    split_and!; try done. by apply no_pipe_no_separator. }
  by apply storable_read_back.
Qed.

Lemma run_then_read_witness :
  read_publications_file (run 100 Samples.sample_page).2
  = [ ("2024-03-15", "Decision - statement", "https://www.ecb.europa.eu/press/pr/a.en.html");
      ("2024-03-15", "Annex", "https://example.org/b.pdf");
      ("2024-03-14", "Speech", "https://www.ecb.europa.eu/press/key/c.en.html") ].
Proof.
  rewrite (run_then_read 100 Samples.sample_page).
  - vm_compute. reflexivity.
  - vm_compute. repeat constructor.
Defined.

End Extracted.

Section MoreDates.
Import PyStr ReSpec DateSpec ECBScraper.

Lemma no_space_no_day_month_year (r : string) :
  all_in (fun c => negb (is_space c)) r = true ->
  forall pre d m y, ~ day_month_year_at r pre d m y.
Proof.
  intros Hr pre d m y (w1 & w2 & rest & -> & _ & _ & Hw1 & Hl1 & _).
  rewrite !all_in_app in Hr.
  destruct (all_in_head _ _ Hw1 Hl1) as (c & w & -> & Hc).
  simpl in Hr. rewrite Hc in Hr. simpl in Hr. by rewrite !andb_false_r in Hr.
Qed.

Lemma digit_no_space (c : ascii) : is_digit c = true -> negb (is_space c) = true.
Proof. intros H. by rewrite digit_not_space. Qed.

(** X14. A date [parse_date] has returned is a date it returns as it
    is. *)
Theorem parse_date_stable (date_text r : string) :
  parse_date date_text = Some r -> parse_date r = Some r.
Proof.
  intros Hr%parse_date_iso_form.
  assert (all_in (fun c => negb (is_space c)) r = true) as Hns.
  { destruct Hr as (y & m & d & rest & _ & -> & Hy & _ & Hm & _ & Hd & _).
    rewrite !all_in_app.
    by rewrite (all_in_impl _ _ y digit_no_space), (all_in_impl _ _ m digit_no_space),
      (all_in_impl _ _ d digit_no_space). }
  assert (strip r = r) as Hstrip.
  { destruct Hr as (y & m & d & rest & _ & Hr & Hy & Hyl & _ & _ & Hd & Hdl).
    unfold strip, strip_by.
    destruct (all_in_head _ _ Hy) as (c & y' & -> & Hc); [lia|].
    rewrite Hr at 1 2. rewrite !app_cons_s. cbn [lstrip_by].
    rewrite (digit_not_space c Hc). rewrite <- !app_cons_s, <- Hr.
    apply rstrip_by_id. rewrite Hr. repeat apply ends_outside_app.
    clear Hr. destruct d as [|a [|b [|? ?]]]; simpl in *; try lia.
    apply andb_true_iff in Hd as [_ Hd]. apply andb_true_iff in Hd as [Hb _].
    by rewrite (digit_not_space b Hb). }
  assert (truthy r = true) as Ht.
  { destruct Hr as (y & m & d & rest & _ & -> & Hy & Hyl & _).
    destruct y; [simpl in Hyl; lia|done]. }
  rewrite parse_date_second; rewrite ?Hstrip; [|done|left; by apply no_space_no_day_month_year].
  destruct (search_iso_leftmost r EmptyString r) as (mt & -> & ->); [done| |done].
  intros pre' iso _. simpl. lia.
Qed.

Lemma parse_date_stable_witness : parse_date "2024-03-15" = Some "2024-03-15".
Proof. apply (parse_date_stable "15 March 2024"). vm_compute. reflexivity. Defined.

End MoreDates.

Section Again.
Import ECBScraper RankSpec.

Lemma list_sort_sorted_id {A} (key : A -> string) (l : list A) :
  StronglySorted (key_le key) l -> list_sort key l = l.
Proof.
  induction 1 as [|x l Hl IH Hx]; [done|]. simpl. rewrite IH.
  destruct l as [|y l]; [done|]. simpl.
  apply Forall_cons in Hx as [Hxy _]. unfold key_le, String.le in Hxy.
  by destruct (String.leb (key x) (key y)).
Qed.

Lemma list_sort_reverse_sorted_id {A} (key : A -> string) (l : list A) :
  StronglySorted (flip (key_le key)) l -> list_sort_reverse key l = l.
Proof.
  intros Hl. unfold list_sort_reverse.
  rewrite list_sort_sorted_id; [apply reverse_involutive|].
  exact (strongly_sorted_reverse _ _ Hl).
Qed.

Lemma unique_loop_nodup (publications unique_pubs : list publication)
    (seen_urls : gset string) :
  (forall u, u ∈ seen_urls <-> u ∈ url <$> unique_pubs) ->
  NoDup (url <$> (unique_pubs ++ publications)) ->
  unique_loop publications unique_pubs seen_urls = unique_pubs ++ publications.
Proof.
  revert unique_pubs seen_urls.
  induction publications as [|pub pubs IH]; intros acc seen Hseen Hnd; simpl.
  - by rewrite app_nil_r.
  - destruct (decide (url pub ∈ seen)) as [Hin|Hin].
    + exfalso. apply Hseen in Hin. rewrite fmap_app, fmap_cons in Hnd.
      apply NoDup_app in Hnd as (_ & Hnd & _). apply (Hnd _ Hin). by left.
    + rewrite (IH (acc ++ [pub]) (seen ∪ {[url pub]})); [by rewrite <- app_assoc| |].
      * intros u. rewrite fmap_app, elem_of_app, elem_of_union, elem_of_singleton, Hseen.
        simpl. by rewrite list_elem_of_singleton.
      * by rewrite <- app_assoc.
Qed.

(** X15. The duplicate filter and the sort of [run] change nothing in
    a list they have returned. *)
Theorem dedup_and_rank_idempotent (publications : list publication) :
  dedup_and_rank (dedup_and_rank publications) = dedup_and_rank publications.
Proof.
  assert (NoDup (url <$> dedup_and_rank publications)) as Hnd.
  { unfold dedup_and_rank. rewrite list_sort_reverse_perm.
    destruct (unique_loop_spec publications [] ∅) as (kept & -> & _ & Hnd & _); [|constructor|done].
    intros u. rewrite elem_of_empty. simpl. by rewrite elem_of_nil. }
  unfold dedup_and_rank at 1.
  rewrite (unique_loop_nodup _ [] ∅); [|by intros u; rewrite elem_of_empty; simpl; rewrite elem_of_nil|done].
  simpl. apply list_sort_reverse_sorted_id. unfold dedup_and_rank.
  apply list_sort_reverse_sorted.
Qed.

End Again.

(** ** The scroll loop *)

Section Scroll.
Import PyStr ECBScraper.
Local Open Scope Z_scope.

(** X16. When the scroll loop ends, ten failures in a row have been
    counted or a parse has found as many publications as asked for. *)
Theorem scroll_loop_ends (fuel : nat) (max_publications : Z) (rounds : nat -> scroll_round)
    (i n : nat) (st st' : scroll_state) :
  scroll_loop fuel max_publications rounds i st = Some (st', n) ->
  max_failed_scrolls <= failed_scroll_attempts st'
  \/ max_publications <= publications_found st'.
Proof.
  revert i st. induction fuel as [|fuel IH]; intros i st; simpl.
  - destruct (failed_scroll_attempts st <? max_failed_scrolls) eqn:E1; simpl.
    + destruct (publications_found st <? max_publications) eqn:E2; [done|].
      intros [= <- <-]. right. by apply Z.ltb_ge.
    + intros [= <- <-]. left. by apply Z.ltb_ge.
  - destruct (failed_scroll_attempts st <? max_failed_scrolls) eqn:E1; simpl.
    + destruct (publications_found st <? max_publications) eqn:E2.
      * destruct (scroll_round_body max_publications (rounds i) st) as [st1 stop] eqn:Hb.
        destruct stop; [|apply IH]. intros [= <- <-].
        unfold scroll_round_body, scroll_failed in Hb.
        destruct (page_height (rounds i)) as [h|].
        -- destruct (scrolled (rounds i)).
           ++ destruct (_ && _); [|by simplify_eq].
              destruct (page_content (rounds i)) as [soup|]; [|by simplify_eq].
              destruct (max_publications <=? _) eqn:E3; [|by simplify_eq].
              simplify_eq. simpl. right. by apply Z.leb_le.
           ++ simplify_eq. simpl in *. left. by apply Z.leb_le.
        -- simplify_eq. simpl in *. left. by apply Z.leb_le.
      * intros [= <- <-]. right. by apply Z.ltb_ge.
    + intros [= <- <-]. left. by apply Z.ltb_ge.
Qed.

Lemma scroll_loop_ends_witness :
  scroll_loop 10 100 (fun _ => ScrollRound (Some 0) true None) 0 scroll_start
  = Some (ScrollState 0 10 0 0, 10%nat)
  /\ (max_failed_scrolls <= failed_scroll_attempts (ScrollState 0 10 0 0)
      \/ 100 <= publications_found (ScrollState 0 10 0 0)).
Proof.
  split; [vm_compute; reflexivity|].
  apply (scroll_loop_ends 10 100 (fun _ => ScrollRound (Some 0) true None) 0 10 scroll_start).
  vm_compute. reflexivity.
Defined.

Lemma scroll_loop_stalls_within (k : nat) (max_publications : Z)
    (rounds : nat -> scroll_round) (i : nat) (st : scroll_state) :
  max_failed_scrolls - Z.of_nat k <= failed_scroll_attempts st ->
  (forall j, (i <= j < i + k)%nat ->
     page_height (rounds j) = Some (previous_height st) /\ scrolled (rounds j) = true) ->
  exists st' n,
    scroll_loop k max_publications rounds i st = Some (st', n) /\ (n <= i + k)%nat.
Proof.
  revert i st. induction k as [|k IH]; intros i st Hfailed Hsame; simpl.
  - assert ((failed_scroll_attempts st <? max_failed_scrolls) = false) as ->
      by (apply Z.ltb_ge; lia).
    exists st, i. split; [done|lia].
  - destruct (_ && _); [|exists st, i; split; [done|lia]].
    destruct (Hsame i) as [Hh Hs]; [lia|].
    unfold scroll_round_body. rewrite Hh, Hs, Z.eqb_refl.
    assert (forall found,
              exists st' n,
                scroll_loop k max_publications rounds (S i)
                  (ScrollState (previous_height st) (failed_scroll_attempts st + 1)
                     (successful_scrolls st) found) = Some (st', n)
                /\ (n <= i + S k)%nat) as Hnext.
    { intros found.
      destruct (IH (S i) (ScrollState (previous_height st) (failed_scroll_attempts st + 1)
                            (successful_scrolls st) found))
        as (st' & n & Hloop & Hn).
      - simpl. lia.
      - intros j Hj. simpl. apply Hsame. lia.
      - exists st', n. split; [done|lia]. }
    destruct (_ && _); [|apply Hnext].
    destruct (page_content (rounds i)) as [soup|]; [|apply Hnext].
    destruct (max_publications <=? _); [|apply Hnext].
    eexists _, _. split; [done|lia].
Qed.

(** X17. The scroll loop ends within ten rounds once the page has stopped
    growing: when the next ten readings of the height give the height
    of the round before and the scrolls raise nothing. *)
Theorem scroll_loop_stalls (max_publications : Z) (rounds : nat -> scroll_round)
    (i : nat) (st : scroll_state) :
  0 <= failed_scroll_attempts st ->
  (forall j, (i <= j < i + 10)%nat ->
     page_height (rounds j) = Some (previous_height st) /\ scrolled (rounds j) = true) ->
  exists st' n,
    scroll_loop 10 max_publications rounds i st = Some (st', n) /\ (n <= i + 10)%nat.
Proof.
  intros Hfailed Hsame.
  apply (scroll_loop_stalls_within 10); [unfold max_failed_scrolls; lia|done].
Qed.

Lemma scroll_loop_stalls_witness :
  exists st' n,
    scroll_loop 10 100 (fun _ => ScrollRound (Some 0) true None) 0 scroll_start
    = Some (st', n) /\ (n <= 10)%nat.
Proof.
  apply (scroll_loop_stalls 100 (fun _ => ScrollRound (Some 0) true None) 0 scroll_start).
  - simpl. lia.
  - intros j _. split; reflexivity.
Defined.

Lemma scroll_loop_grows (fuel : nat) (max_publications : Z)
    (rounds : nat -> scroll_round) (heights : nat -> Z) (i : nat) (st : scroll_state) :
  (forall j, page_height (rounds j) = Some (heights j)) ->
  (forall j, heights (S j) <> heights j) ->
  (forall j, scrolled (rounds j) = true) ->
  (forall j soup,
     page_content (rounds j) = Some soup ->
     Z.of_nat (length (extract_publications_from_html max_publications soup))
     < max_publications) ->
  failed_scroll_attempts st = 0 -> publications_found st < max_publications ->
  previous_height st <> heights i ->
  scroll_loop fuel max_publications rounds i st = None.
Proof.
  intros Hh Hnew Hs Hfew. revert i st.
  induction fuel as [|fuel IH]; intros i st Hfailed Hfound Hprev; simpl.
  - rewrite Hfailed. by apply Z.ltb_lt in Hfound as ->.
  - rewrite Hfailed. apply Z.ltb_lt in Hfound as Hfound'. rewrite Hfound'. simpl.
    unfold scroll_round_body. rewrite Hh, Hs.
    assert ((heights i =? previous_height st) = false) as -> by (apply Z.eqb_neq; congruence).
    destruct (_ && _).
    + destruct (page_content (rounds i)) as [soup|] eqn:Hc.
      * specialize (Hfew i soup Hc).
        assert ((max_publications <=? Z.of_nat
                   (length (extract_publications_from_html max_publications soup))) = false)
          as -> by (apply Z.leb_gt; lia).
        apply IH; simpl; [done|done|]. apply not_eq_sym, Hnew.
      * apply IH; simpl; [done|done|]. apply not_eq_sym, Hnew.
    + apply IH; simpl; [done|done|]. apply not_eq_sym, Hnew.
Qed.

(** X18. The scroll loop has no bound of its own on the number of rounds:
    on a page that is higher at every reading, and on which no parse
    finds as many publications as asked for, it does not end, however
    many rounds it is given. *)
Theorem scroll_loop_unbounded (max_publications : Z) (rounds : nat -> scroll_round)
    (heights : nat -> Z) :
  0 < max_publications ->
  (forall j, page_height (rounds j) = Some (heights j)) ->
  0 < heights 0%nat -> (forall j, heights j < heights (S j)) ->
  (forall j, scrolled (rounds j) = true) ->
  (forall j soup,
     page_content (rounds j) = Some soup ->
     Z.of_nat (length (extract_publications_from_html max_publications soup))
     < max_publications) ->
  forall fuel, scroll_loop fuel max_publications rounds 0 scroll_start = None.
Proof.
  intros Hmax Hh H0 Hgrow Hs Hfew fuel.
  apply (scroll_loop_grows fuel max_publications rounds heights); try done.
  - intros j. specialize (Hgrow j). lia.
  - simpl. lia.
Qed.

Lemma scroll_loop_unbounded_witness :
  scroll_loop 1000 100 (fun j => ScrollRound (Some (Z.of_nat j + 1)) true None)
    0 scroll_start
  = None.
Proof.
  apply (scroll_loop_unbounded 100 (fun j => ScrollRound (Some (Z.of_nat j + 1)) true None)
           (fun j => Z.of_nat j + 1)); try done; try lia.
Defined.

End Scroll.

(** ** The files of a record *)

Section Files.
Import Tenacity PyStr ReSpec NameSpec ProcessSpec DownloadSpec DirectorySpec ECBPDFDownloader.

Lemma written_touched (name : string) (dir s : gmap string file) :
  written name dir s -> touched name dir s.
Proof. by right. Qed.

Lemma written_again (name body : string) (dir s : gmap string file) :
  touched name dir s -> written name dir (<[ name := Document body ]> s).
Proof.
  intros [->|[b ->]]; [by exists body|]. exists body. apply insert_insert_eq.
Qed.

(** A retried operation that writes nothing but documents under
    [name], and that writes one when it returns. *)
Lemma attempt_loop_written {V} (p : policy exception)
    (op : nat -> gmap string file -> outcome V exception * gmap string file)
    (name : string) (dir : gmap string file) (left k : nat) (st : gmap string file)
    (sleeps : list Z) :
  (forall j s, touched name dir s ->
     touched name dir (op j s).2
     /\ (forall v, (op j s).1 = Returned v -> written name dir (op j s).2)) ->
  touched name dir st ->
  let r := attempt_loop p op left k st sleeps in
  touched name dir (state_of r) /\ (succeeded r = true -> written name dir (state_of r)).
Proof.
  intros Hop. revert k st sleeps.
  induction left as [|left IH]; intros k st sleeps Hst; simpl.
  - destruct (Hop k st Hst) as [Ht Hw].
    destruct (op k st) as [[v|e] st']; simpl in *; [by eauto|].
    destruct (retryable p e); simpl; by split.
  - destruct (Hop k st Hst) as [Ht Hw].
    destruct (op k st) as [[v|e] st']; simpl in *; [by eauto|].
    destruct (retryable p e); simpl; [by apply IH|by split].
Qed.

Lemma retrying_written {V} (p : policy exception)
    (op : nat -> gmap string file -> outcome V exception * gmap string file)
    (name : string) (dir st : gmap string file) :
  (forall j s, touched name dir s ->
     touched name dir (op j s).2
     /\ (forall v, (op j s).1 = Returned v -> written name dir (op j s).2)) ->
  touched name dir st ->
  touched name dir (state_of (retrying p op st))
  /\ (succeeded (retrying p op st) = true -> written name dir (state_of (retrying p op st))).
Proof. intros. by apply attempt_loop_written. Qed.

Lemma download_pdf_with_aiohttp_written (net : nat -> fetch) (name : string)
    (dir : gmap string file) (j : nat) (s : gmap string file) :
  touched name dir s ->
  touched name dir (download_pdf_with_aiohttp net name j s).2
  /\ (forall v, (download_pdf_with_aiohttp net name j s).1 = Returned v ->
        written name dir (download_pdf_with_aiohttp net name j s).2).
Proof.
  intros Hs. unfold download_pdf_with_aiohttp.
  destruct (net j); simpl; split; try done;
    eauto using written_again, written_touched.
Qed.

Lemma download_pdf_with_requests_written (net : nat -> fetch) (name : string)
    (dir : gmap string file) (j : nat) (s : gmap string file) :
  touched name dir s ->
  touched name dir (download_pdf_with_requests net name j s).2
  /\ (forall v, (download_pdf_with_requests net name j s).1 = Returned v ->
        written name dir (download_pdf_with_requests net name j s).2).
Proof.
  intros Hs. unfold download_pdf_with_requests.
  destruct (net j); simpl; split; try done;
    eauto using written_again, written_touched.
Qed.

Lemma generate_pdf_from_page_written (br : browser) (name : string)
    (dir : gmap string file) (j : nat) (s : gmap string file) :
  touched name dir s ->
  touched name dir (generate_pdf_from_page br name j s).2
  /\ (forall v, (generate_pdf_from_page br name j s).1 = Returned v ->
        written name dir (generate_pdf_from_page br name j s).2).
Proof.
  intros Hs. unfold generate_pdf_from_page.
  destruct (print_pdf br j); simpl; split; try done;
    eauto using written_again, written_touched.
Qed.

(** What retrieval leaves in the directory. *)
Lemma retrieve_written (w : world) (url name : string) (dir : gmap string file) :
  touched name dir (retrieve w url name dir).2
  /\ ((retrieve w url name dir).1.1 = true -> written name dir (retrieve w url name dir).2).
Proof.
  unfold retrieve. destruct (endswith ".pdf" (lower url)).
  - simpl. rewrite download_pdf_cases. simpl.
    destruct (retrying_written aiohttp_policy (download_pdf_with_aiohttp (primary w) name)
                name dir dir) as [Ha Hao];
      [intros; by apply download_pdf_with_aiohttp_written|by left|].
    destruct (succeeded (retrying aiohttp_policy _ dir)) eqn:Es;
      unfold directory_after; simpl; [by auto|].
    destruct (retrying_written requests_policy (download_pdf_with_requests (fallback w) name)
                name dir
                (state_of (retrying aiohttp_policy
                             (download_pdf_with_aiohttp (primary w) name) dir)))
      as [Hb Hbo]; [intros; by apply download_pdf_with_requests_written|done|].
    by split.
  - unfold html_to_pdf. destruct (new_page (chromium w)); [by split; [left|]|].
    destruct (ending_of (retrying browser_policy _ dir)); [|by split; [left|]..].
    destruct (retrying_written browser_policy (generate_pdf_from_page (chromium w) name)
                name dir dir) as [Hp Hpo];
      [intros; by apply generate_pdf_from_page_written|by left|].
    unfold succeeded in Hpo.
    destruct (ending_of (retrying browser_policy (generate_pdf_from_page _ _) dir));
      [|by split..].
    destruct (close_page (chromium w)); simpl; [by split|]. split; [done|]. auto.
Qed.

Lemma probe_extension (base ext : string) (n : nat) :
  exists stem, probe base ext n = stem +:+ "." +:+ ext.
Proof.
  destruct n as [|n]; simpl; [by exists base|].
  rewrite numbered_filename_prefix. eexists. by rewrite <- app_assoc_s.
Qed.

Lemma pdf_json_differ (base : string) (n k : nat) :
  probe base "pdf" n <> probe base "json" k.
Proof.
  destruct (probe_extension base "pdf" n) as [x ->].
  destruct (probe_extension base "json" k) as [y ->].
  intros H. apply (f_equal (ends_outside (Ascii.eqb "f"))) in H.
  change (x +:+ "." +:+ "pdf") with (x +:+ ".pd" +:+ "f") in H.
  change (y +:+ "." +:+ "json") with (y +:+ ".jso" +:+ "n") in H.
  rewrite <- !app_assoc_s, !ends_outside_snoc in H. done.
Qed.

Lemma check_duplicate_filename_plain {File} (refused : string -> bool)
    (dir : gmap string File) (base ext : string) :
  refused (base +:+ "." +:+ ext) = false ->
  dir !! (base +:+ "." +:+ ext) = None ->
  check_duplicate_filename refused dir base ext = Some (Returned (base +:+ "." +:+ ext)).
Proof.
  intros Hacc Hfree.
  destruct (check_duplicate_filename_least refused dir base ext) as (n & _ & Hbelow & Hend).
  destruct n as [|n].
  - destruct Hend as [(_ & _ & Hc)|(Hr & _)]; [exact Hc|]. simpl in Hr. congruence.
  - destruct (Hbelow 0) as [_ [f Hf]]; [lia|]. simpl in Hf. congruence.
Qed.

Lemma retrieve_creator (w : world) (url name : string) (dir : gmap string file) :
  endswith ".pdf" (lower url) = true -> (retrieve w url name dir).1.2 = EmptyString.
Proof. intros H. unfold retrieve. by rewrite H. Qed.

(** What processing a record leaves in the directory, once the two
    names of the record are resolved. *)
Lemma process_publication_files (w : world) (dir : gmap string file)
    (date title url pdf json : string) :
  check_duplicate_filename (stat_refuses w) dir (generate_filename date title 0) "pdf"
    = Some (Returned pdf) ->
  check_duplicate_filename (stat_refuses w) dir (generate_filename date title 0) "json"
    = Some (Returned json) ->
  dir !! pdf = None /\ dir !! json = None /\ pdf <> json
  /\ exists dir',
       process_publication w dir date title url
         = Some (Returned (retrieval_succeeds w url), dir')
       /\ (retrieval_succeeds w url = true ->
           exists body,
             dir' = <[ json :=
                         Sidecar (generate_metadata_clock (fallback_now_text w) (now_text w)
                                    date title url pdf (retrieve w url pdf dir).1.2) ]>
                      (<[ pdf := Document body ]> dir))
       /\ (retrieval_succeeds w url = false -> touched pdf dir dir').
Proof.
  intros Hpdf Hjson.
  destruct (check_duplicate_filename_returned _ _ _ _ _ Hpdf) as (n & Hn & Hfn & _).
  destruct (check_duplicate_filename_returned _ _ _ _ _ Hjson) as (k & Hk & Hfk & _).
  split_and!; [done|done|rewrite Hn, Hk; apply pdf_json_differ|].
  unfold process_publication. rewrite Hpdf, Hjson.
  pose proof (retrieve_success w url pdf dir) as Hs.
  destruct (retrieve_written w url pdf dir) as [Ht Hw].
  destruct (retrieve w url pdf dir) as [[success creator_name] dir1].
  simpl in *. subst success.
  destruct (retrieval_succeeds w url).
  - eexists. split_and!; try done.
    intros _. destruct Hw as [body ->]; [done|]. by exists body.
  - exists dir1. by split_and!.
Qed.

(** X19. When the two names of a record are resolved and its retrieval
    succeeds, [process_publication] adds two files to the directory and
    changes nothing else: the document and the metadata of the record,
    each under a name that was free, the two names apart.  The metadata
    is what [generate_metadata] gives for the record, the publication
    date computed from the date of the record; its creator is empty for
    a url that ends in [.pdf]. *)
Theorem process_publication_adds_pair (w : world) (dir : gmap string file)
    (date title url pdf_filename json_filename : string) :
  check_duplicate_filename (stat_refuses w) dir (generate_filename date title 0) "pdf"
    = Some (Returned pdf_filename) ->
  check_duplicate_filename (stat_refuses w) dir (generate_filename date title 0) "json"
    = Some (Returned json_filename) ->
  retrieval_succeeds w url = true ->
  dir !! pdf_filename = None /\ dir !! json_filename = None
  /\ pdf_filename <> json_filename
  /\ exists body creator_name,
       (endswith ".pdf" (lower url) = true -> creator_name = EmptyString)
       /\ process_publication w dir date title url
          = Some (Returned true,
                  <[ json_filename :=
                       Sidecar (generate_metadata_clock (fallback_now_text w) (now_text w)
                                  date title url pdf_filename creator_name) ]>
                    (<[ pdf_filename := Document body ]> dir))
       /\ publication_date
            (generate_metadata_clock (fallback_now_text w) (now_text w) date title url
               pdf_filename creator_name)
          = pub_date_isoformat date (fallback_now_text w).
Proof.
  intros Hpdf Hjson Hs.
  destruct (process_publication_files w dir date title url _ _ Hpdf Hjson)
    as (Hfn & Hfk & Hne & dir' & Hp & Hyes & _).
  destruct (Hyes Hs) as [body ->]. rewrite Hs in Hp.
  split_and!; [done|done|done|].
  eexists body, _. split_and!; [|exact Hp|done].
  apply retrieve_creator.
Qed.

(** X20. When the two names of a record are resolved and its
    retrieval fails, [process_publication] returns false, writes no
    metadata and leaves the directory as it was, but for the part of a
    document that a failed attempt may have written under the name
    chosen for the document, a name that was free. *)
Theorem process_publication_failure_leaves (w : world) (dir : gmap string file)
    (date title url pdf_filename json_filename : string) :
  check_duplicate_filename (stat_refuses w) dir (generate_filename date title 0) "pdf"
    = Some (Returned pdf_filename) ->
  check_duplicate_filename (stat_refuses w) dir (generate_filename date title 0) "json"
    = Some (Returned json_filename) ->
  retrieval_succeeds w url = false ->
  dir !! pdf_filename = None
  /\ (process_publication w dir date title url = Some (Returned false, dir)
      \/ exists part,
           process_publication w dir date title url
           = Some (Returned false, <[ pdf_filename := Document part ]> dir)).
Proof.
  intros Hpdf Hjson Hs.
  destruct (process_publication_files w dir date title url _ _ Hpdf Hjson)
    as (Hfn & _ & _ & dir' & Hp & _ & Hno).
  rewrite Hs in Hp. split; [done|].
  destruct (Hno Hs) as [->|[part ->]]; [by left|right; by exists part].
Qed.

(** The outcomes of a record. *)
Lemma process_publication_cases (w : world) (dir : gmap string file)
    (date title url : string) :
  (exists pdf json,
     check_duplicate_filename (stat_refuses w) dir (generate_filename date title 0) "pdf"
       = Some (Returned pdf)
     /\ check_duplicate_filename (stat_refuses w) dir (generate_filename date title 0) "json"
        = Some (Returned json))
  \/ process_publication w dir date title url = Some (Raised OSError, dir).
Proof.
  destruct (names_resolve_cases w dir date title)
    as [(pdf & json & Hpdf & Hjson & _)|[_ Hraise]]; [left|right].
  - by exists pdf, json.
  - apply Hraise.
Qed.

Lemma process_publication_grows (w : world) (dir : gmap string file)
    (date title url : string) :
  exists result dir',
    process_publication w dir date title url = Some (result, dir') /\ dir ⊆ dir'.
Proof.
  destruct (process_publication_cases w dir date title url)
    as [(pdf & json & Hpdf & Hjson)|Hraise]; [|by exists (Raised OSError), dir].
  destruct (process_publication_files w dir date title url _ _ Hpdf Hjson)
    as (Hfn & Hfk & Hne & dir' & Hp & Hyes & Hno).
  exists (Returned (retrieval_succeeds w url)), dir'. split; [done|].
  destruct (retrieval_succeeds w url).
  - destruct (Hyes eq_refl) as [body ->].
    trans (<[ pdf := Document body ]> dir).
    + by apply insert_subseteq.
    + apply insert_subseteq. by rewrite lookup_insert_ne.
  - destruct (Hno eq_refl) as [->|[part ->]]; [done|]. by apply insert_subseteq.
Qed.

Lemma publication_loop_grows (worlds : nat -> world) (i : nat)
    (publications : list (string * string * string)) (s : summary) :
  exists s', publication_loop worlds i publications s = Some s'
             /\ directory s ⊆ directory s'.
Proof.
  revert i s. induction publications as [|[[date title] url] pubs IH]; intros i s; simpl.
  - by exists s.
  - destruct (process_publication_grows (worlds i) (directory s) date title url)
      as ([success|e] & dir' & -> & Hsub).
    + destruct (IH (S i) (if success
                          then Summary (S (successful s)) (failed s) dir'
                          else Summary (successful s) (S (failed s)) dir'))
        as (s' & -> & Hsub').
      exists s'. split; [done|]. etrans; [exact Hsub|]. by destruct success.
    + destruct (IH (S i) (Summary (successful s) (S (failed s)) dir'))
        as (s' & -> & Hsub').
      exists s'. split; [done|]. by etrans.
Qed.

(** X21. [process_publications_file] never removes or overwrites a file:
    every file of the directory is there afterwards, with the contents
    it had. *)
Theorem process_publications_file_keeps_files (worlds : nat -> world)
    (content : option string) (dir : gmap string file) :
  exists s,
    process_publications_file worlds content dir = Some s
    /\ forall name f, dir !! name = Some f -> directory s !! name = Some f.
Proof.
  destruct (publication_loop_grows worlds 1 (read_publications_file content)
              (Summary 0 0 dir)) as (s & Hs & Hsub).
  exists s. split; [done|]. intros name f Hf. by apply (lookup_weaken dir).
Qed.

(** X22. The names of the document and of its metadata are chosen apart:
    when the plain name of the document is taken and the plain name of
    the metadata is free, a record that is retrieved gets its metadata
    under the plain name and its document under a numbered name.  The
    file system is one that refuses none of the names probed. *)
Theorem process_publication_names_apart (w : world) (dir : gmap string file)
    (date title url : string) :
  let base := generate_filename date title 0 in
  (forall n, stat_refuses w (probe base "pdf" n) = false) ->
  stat_refuses w (base +:+ ".json") = false ->
  is_Some (dir !! (base +:+ ".pdf")) -> dir !! (base +:+ ".json") = None ->
  retrieval_succeeds w url = true ->
  exists n body creator_name,
    (1 <= n)%nat
    /\ process_publication w dir date title url
       = Some (Returned true,
               <[ base +:+ ".json" :=
                    Sidecar (generate_metadata_clock (fallback_now_text w) (now_text w)
                               date title url (numbered_filename base "pdf" n)
                               creator_name) ]>
                 (<[ numbered_filename base "pdf" n := Document body ]> dir)).
Proof.
  intros base Hacc Haccj Hpdf Hjson Hs.
  destruct (check_duplicate_filename_accepted (stat_refuses w) dir base "pdf" Hacc)
    as (n & Hn & _ & Hfn & _).
  pose proof (check_duplicate_filename_plain (stat_refuses w) dir base "json" Haccj Hjson)
    as Hk.
  destruct (process_publication_files w dir date title url _ _ Hn Hk)
    as (_ & _ & _ & dir' & Hp & Hyes & _).
  destruct (Hyes Hs) as [body ->]. rewrite Hs in Hp.
  destruct n as [|n].
  - assert (dir !! (base +:+ ".pdf") = None) as Hfree by exact Hfn.
    destruct Hpdf as [f Hf]. congruence.
  - exists (S n), body, (retrieve w url (probe base "pdf" (S n)) dir).1.2.
    split; [lia|]. exact Hp.
Qed.

Lemma process_publication_adds_pair_witness :
  exists body creator_name,
    process_publication Samples.sample_world ∅ "2024-05-01" "ECB publishes report"
      "https://example.org/x.pdf"
    = Some (Returned true,
            <[ "2024-05-01_ECB_publishes_report.json" :=
                 Sidecar (generate_metadata_clock
                            (fallback_now_text Samples.sample_world)
                            (now_text Samples.sample_world) "2024-05-01"
                            "ECB publishes report" "https://example.org/x.pdf"
                            "2024-05-01_ECB_publishes_report.pdf" creator_name) ]>
              (<[ "2024-05-01_ECB_publishes_report.pdf" := Document body ]> ∅))
    /\ publication_date
         (generate_metadata_clock (fallback_now_text Samples.sample_world)
            (now_text Samples.sample_world) "2024-05-01" "ECB publishes report"
            "https://example.org/x.pdf" "2024-05-01_ECB_publishes_report.pdf" creator_name)
       = "2024-05-01T09:00:00+00:00".
Proof.
  destruct (process_publication_adds_pair Samples.sample_world ∅ "2024-05-01"
              "ECB publishes report" "https://example.org/x.pdf"
              "2024-05-01_ECB_publishes_report.pdf" "2024-05-01_ECB_publishes_report.json")
    as (_ & _ & _ & body & creator_name & _ & Hp & Hd).
  - vm_compute. reflexivity.
  - vm_compute. reflexivity.
  - vm_compute. reflexivity.
  - exists body, creator_name. split; [exact Hp|]. rewrite Hd. vm_compute. reflexivity.
Defined.

Lemma process_publication_failure_leaves_witness :
  process_publication Samples.interrupted_world ∅ "2024-05-01" "ECB publishes report"
    "https://example.org/x.pdf" = Some (Returned false, ∅)
  \/ exists part,
       process_publication Samples.interrupted_world ∅ "2024-05-01"
         "ECB publishes report" "https://example.org/x.pdf"
       = Some (Returned false,
               <[ "2024-05-01_ECB_publishes_report.pdf" := Document part ]> ∅).
Proof.
  destruct (process_publication_failure_leaves Samples.interrupted_world ∅ "2024-05-01"
              "ECB publishes report" "https://example.org/x.pdf"
              "2024-05-01_ECB_publishes_report.pdf" "2024-05-01_ECB_publishes_report.json")
    as [_ H].
  - vm_compute. reflexivity.
  - vm_compute. reflexivity.
  - vm_compute. reflexivity.
  - exact H.
Defined.

(** A record whose retrieval is cut short leaves the part of the
    document that was written, under the plain name. *)
Example interrupted_leaves_part :
  process_publication Samples.interrupted_world ∅ "2024-05-01" "ECB publishes report"
    "https://example.org/x.pdf"
  = Some (Returned false, <[ "2024-05-01_ECB_publishes_report.pdf" := Document "%PD" ]> ∅).
Proof.
  vm_cast_no_check
    (eq_refl (process_publication Samples.interrupted_world ∅ "2024-05-01"
                "ECB publishes report" "https://example.org/x.pdf")).
Qed.

Lemma process_publication_names_apart_witness :
  exists n body creator_name,
    (1 <= n)%nat
    /\ process_publication Samples.sample_world
         (<[ "2024-05-01_ECB_publishes_report.pdf" := Document "%PD" ]> ∅)
         "2024-05-01" "ECB publishes report" "https://example.org/x.pdf"
       = Some (Returned true,
               <[ "2024-05-01_ECB_publishes_report.json" :=
                    Sidecar (generate_metadata_clock
                               (fallback_now_text Samples.sample_world)
                               (now_text Samples.sample_world) "2024-05-01"
                               "ECB publishes report" "https://example.org/x.pdf"
                               (numbered_filename "2024-05-01_ECB_publishes_report" "pdf" n)
                               creator_name) ]>
                 (<[ numbered_filename "2024-05-01_ECB_publishes_report" "pdf" n
                       := Document body ]>
                    (<[ "2024-05-01_ECB_publishes_report.pdf" := Document "%PD" ]> ∅))).
Proof.
  assert (generate_filename "2024-05-01" "ECB publishes report" 0
          = "2024-05-01_ECB_publishes_report") as Hbase by (vm_compute; reflexivity).
  pose proof (process_publication_names_apart Samples.sample_world
                (<[ "2024-05-01_ECB_publishes_report.pdf" := Document "%PD" ]> ∅)
                "2024-05-01" "ECB publishes report" "https://example.org/x.pdf") as H.
  cbv zeta in H. rewrite Hbase in H. apply H.
  - reflexivity.
  - reflexivity.
  - vm_compute. eauto.
  - vm_compute. reflexivity.
  - vm_compute. reflexivity.
Defined.

Lemma process_publication_size (w : world) (dir : gmap string file)
    (date title url : string) :
  exists result dir',
    process_publication w dir date title url = Some (result, dir')
    /\ match result with
       | Returned true => size dir' = size dir + 2
       | _ => size dir <= size dir' <= size dir + 1
       end.
Proof.
  destruct (process_publication_cases w dir date title url)
    as [(pdf & json & Hpdf & Hjson)|Hraise].
  2:{ exists (Raised OSError), dir. split; [done|]. lia. }
  destruct (process_publication_files w dir date title url _ _ Hpdf Hjson)
    as (Hfn & Hfk & Hne & dir' & Hp & Hyes & Hno).
  exists (Returned (retrieval_succeeds w url)), dir'. split; [done|].
  destruct (retrieval_succeeds w url).
  - destruct (Hyes eq_refl) as [body ->].
    rewrite !map_size_insert_None; [lia|done|]. by rewrite lookup_insert_ne.
  - destruct (Hno eq_refl) as [->|[part ->]]; [lia|].
    rewrite map_size_insert_None by done. lia.
Qed.

Lemma publication_loop_size (worlds : nat -> world) (i : nat)
    (publications : list (string * string * string)) (s : summary) :
  exists s', publication_loop worlds i publications s = Some s'
             /\ successful s <= successful s' /\ failed s <= failed s'
             /\ size (directory s) + 2 * (successful s' - successful s)
                <= size (directory s')
                <= size (directory s) + 2 * (successful s' - successful s)
                   + (failed s' - failed s).
Proof.
  revert i s. induction publications as [|[[date title] url] pubs IH]; intros i s; simpl.
  - exists s. split; [done|]. lia.
  - destruct (process_publication_size (worlds i) (directory s) date title url)
      as ([[|]|e] & dir' & -> & Hsize).
    + destruct (IH (S i) (Summary (S (successful s)) (failed s) dir'))
        as (s' & -> & H1 & H2 & H3).
      exists s'. simpl in *. split; [done|]. lia.
    + destruct (IH (S i) (Summary (successful s) (S (failed s)) dir'))
        as (s' & -> & H1 & H2 & H3).
      exists s'. simpl in *. split; [done|]. lia.
    + destruct (IH (S i) (Summary (successful s) (S (failed s)) dir'))
        as (s' & -> & H1 & H2 & H3).
      exists s'. simpl in *. split; [done|]. lia.
Qed.

(** X25. [process_publications_file] leaves two new files for every
    record it counts as successful, and no more than one for every
    record it counts as failed. *)
Theorem process_publications_file_counts (worlds : nat -> world)
    (content : option string) (dir : gmap string file) :
  exists s,
    process_publications_file worlds content dir = Some s
    /\ size dir + 2 * successful s <= size (directory s)
       <= size dir + 2 * successful s + failed s.
Proof.
  destruct (publication_loop_size worlds 1 (read_publications_file content)
              (Summary 0 0 dir)) as (s & Hs & _ & _ & Hsize).
  exists s. split; [done|]. simpl in Hsize. lia.
Qed.

Lemma retrying_budget {St V} (p : policy exception)
    (op : nat -> St -> outcome V exception * St) (st : St) (n : nat) (w : Z) :
  max_attempt_number p = S n ->
  (forall k, (1 <= k <= n)%nat -> (0 <= wait p k <= w)%Z) ->
  (attempts_of (retrying p op st) <= S n)%nat
  /\ (0 <= total (sleeps_of (retrying p op st)) <= Z.of_nat n * w)%Z.
Proof.
  intros Hmax Hwait. pose proof (retrying_attempts p op st) as Ha.
  rewrite Hmax in Ha. split; [lia|].
  rewrite retrying_sleeps.
  assert (forall m k, (k + m <= S n)%nat -> (1 <= k)%nat ->
            (0 <= total (wait p <$> seq k m) <= Z.of_nat m * w)%Z) as Hsum.
  { induction m as [|m IH]; intros k Hk Hk1; [simpl; lia|].
    cbn [seq fmap list_fmap total foldr].
    specialize (IH (S k)). specialize (Hwait k).
    unfold total in IH. lia. }
  specialize (Hsum (attempts_of (retrying p op st) - 1)%nat 1%nat).
  destruct n as [|n].
  - replace (attempts_of (retrying p op st) - 1)%nat with 0%nat in * by lia.
    simpl in *. lia.
  - specialize (Hwait 1%nat). nia.
Qed.

(** X23. A call of [download_pdf] makes no more than five requests, three
    by the primary transport and two by the fallback transport, and
    sleeps no more than six seconds in all between them, four and
    two. *)
Theorem download_pdf_budget (primary fallback : nat -> fetch) (filename : string)
    (dir : gmap string file) :
  let d := download_pdf primary fallback filename dir in
  (attempts_of (primary_run d) <= 3)%nat
  /\ (total (sleeps_of (primary_run d)) <= 4)%Z
  /\ (forall b, fallback_run d = Some b ->
        (attempts_of b <= 2)%nat /\ (total (sleeps_of b) <= 2)%Z).
Proof.
  intros d. subst d. rewrite download_pdf_cases. cbv zeta.
  set (a := retrying aiohttp_policy _ dir).
  set (b := retrying requests_policy _ (state_of a)).
  destruct (retrying_budget aiohttp_policy (download_pdf_with_aiohttp primary filename)
              dir 2 2) as [Ha Hsa].
  { done. }
  { intros k Hk. assert (k = 1 \/ k = 2)%nat as [-> | ->] by lia; vm_compute; split; discriminate. }
  destruct (retrying_budget requests_policy (download_pdf_with_requests fallback filename)
              (state_of a) 1 2) as [Hb Hsb].
  { done. }
  { intros k Hk. assert (k = 1)%nat as -> by lia. vm_compute; split; discriminate. }
  fold a in Ha, Hsa. fold b in Hb, Hsb.
  destruct (succeeded a); simpl; split_and!; try lia; try done.
  intros ? [= <-]. split; lia.
Qed.

End Files.

(** ** Rendering a page *)

Section Rendering.
Import Tenacity PyStr RetrySpec ECBPDFDownloader.

(** A call that retries on every exception returns what the first
    attempt that returns gives, when that attempt is one of those the
    stop condition allows. *)
Lemma retrying_first_return {St V} (p : policy exception)
    (op : nat -> St -> outcome V exception * St) (out : nat -> outcome V exception)
    (st : St) (v : V) :
  (forall j s, (op j s).1 = out j) ->
  (forall e, retryable p e = true) ->
  ending_of (retrying p op st) = Done v
  <-> exists k, 1 <= k <= 1 + (max_attempt_number p - 1)
                /\ out k = Returned v
                /\ forall j, 1 <= j < k -> exists e, out j = Raised e.
Proof.
  intros Hout Hall. unfold retrying.
  destruct (attempt_loop_spec p op out (max_attempt_number p - 1) 1 st [] Hout)
    as (Ha & _ & Hretried & Hend).
  set (r := attempt_loop p op (max_attempt_number p - 1) 1 st []) in *.
  split.
  - intros Hv. rewrite Hv in Hend. exists (attempts_of r). split_and!; [lia|lia|done|].
    intros j Hj. destruct (Hretried j Hj) as (e & He & _). by exists e.
  - intros (k & Hk & Hret & Hbefore).
    assert (attempts_of r < k \/ attempts_of r = k \/ k < attempts_of r) as [Hlt|[Heq|Hgt]]
      by lia.
    + destruct (Hbefore (attempts_of r)) as [e He]; [lia|].
      destruct (ending_of r) as [v'|e'|e'].
      * congruence.
      * destruct Hend as [_ Hend]. by rewrite Hall in Hend.
      * destruct Hend as (_ & _ & Hend). lia.
    + destruct (ending_of r) as [v'|e'|e'].
      * rewrite Heq in Hend. congruence.
      * destruct Hend as [_ Hend]. by rewrite Hall in Hend.
      * destruct Hend as (Hend & _). rewrite Heq in Hend. congruence.
    + destruct (Hretried k) as (e & He & _); [lia|]. congruence.
Qed.

Lemma navigation_first_return (br : browser) (dir : gmap string file) (creator_name : string) :
  ending_of (retrying browser_policy (fun n (st : gmap string file) => (navigate br n, st)) dir)
  = Done creator_name
  <-> exists k, 1 <= k <= 3 /\ navigate br k = Returned creator_name
                /\ forall j, 1 <= j < k -> exists e, navigate br j = Raised e.
Proof. by apply retrying_first_return. Qed.

Lemma printing_first_return (br : browser) (filename : string) (dir : gmap string file) :
  ending_of (retrying browser_policy (generate_pdf_from_page br filename) dir) = Done tt
  <-> exists k, 1 <= k <= 3 /\ (exists body, print_pdf br k = Printed body)
                /\ forall j, 1 <= j < k -> forall body, print_pdf br j <> Printed body.
Proof.
  rewrite (retrying_first_return browser_policy (generate_pdf_from_page br filename)
             (fun k => match print_pdf br k with
                       | Printed _ => Returned tt
                       | PrintInterrupted _ e => Raised e
                       | PrintFailure e => Raised e
                       end)); [|intros j s; unfold generate_pdf_from_page;
                                 by destruct (print_pdf br j)|done].
  split; intros (k & Hk & Hret & Hbefore); exists k; (split; [exact Hk|split]).
  - destruct (print_pdf br k) as [body| |]; [by exists body|done..].
  - intros j Hj body Hb. destruct (Hbefore j Hj) as [e He]. by rewrite Hb in He.
  - destruct Hret as [body ->]. done.
  - intros j Hj. specialize (Hbefore j Hj).
    destruct (print_pdf br j) as [b| |]; [by destruct (Hbefore b)|by eexists..].
Qed.

(** X24. [html_to_pdf] returns true with a creator exactly when the
    page opens, one of the first three attempts to navigate returns that
    creator after the attempts before it have raised, one of the first
    three attempts to print returns after the attempts before it have
    raised, and the page closes. *)
Theorem html_to_pdf_succeeds (br : browser) (filename : string) (dir : gmap string file)
    (creator_name : string) :
  (exists dir', html_to_pdf br filename dir = (true, creator_name, dir'))
  <-> new_page br = None /\ close_page br = None
      /\ (exists k, 1 <= k <= 3 /\ navigate br k = Returned creator_name
                    /\ forall j, 1 <= j < k -> exists e, navigate br j = Raised e)
      /\ (exists k, 1 <= k <= 3 /\ (exists body, print_pdf br k = Printed body)
                    /\ forall j, 1 <= j < k -> forall body, print_pdf br j <> Printed body).
Proof.
  rewrite <- navigation_first_return with (dir := dir).
  rewrite <- printing_first_return with (filename := filename) (dir := dir).
  unfold html_to_pdf. split.
  - intros [dir' H]. destruct (new_page br); [done|].
    destruct (ending_of (retrying browser_policy _ dir)) as [creator| |]; [|done..].
    destruct (ending_of (retrying browser_policy (generate_pdf_from_page _ _) dir))
      as [[]| |]; [|done..].
    destruct (close_page br); [done|]. by injection H as <- _.
  - intros (-> & -> & -> & ->). by eexists.
Qed.

End Rendering.
